(** * Shopee agent: task-to-action execution framework

    A shallow embedding of the worker loop ([worker.py]), the action
    template ([actions/base_action.py]), the three registered actions, the
    locator tables ([actions/locators.py]), the browser controller
    ([core/browser_controller.py]), the session provider client
    ([core/ziniao_client.py]) and the task store client
    ([core/supabase_store.py]).

    Python objects with identity are records carrying an object id; the
    external collaborators (WebDriver, the provider's HTTP API, the
    database, the file system, the clocks) are request logs plus an
    environment [Env] that decides the answer to each request, a raised
    exception included.  Code that can raise lives in a state-and-exception
    monad; [try]/[except] is [try_except]. *)

From Stdlib Require Import ZArith Ascii.
From stdpp Require Import gmap strings list pretty.

Set Warnings "-register-all".
Open Scope string_scope.
Open Scope list_scope.
Open Scope Z_scope.

(** ** Python values *)

(** JSON-like values held by payloads, result data and locator tables.  A
    float [m * 2^e] only matters through its truth value here. *)
Inductive PyVal :=
| VNone
| VBool (b : bool)
| VInt (z : Z)
| VFloat (m e : Z)
| VStr (s : string)
| VList (l : list PyVal)
| VDict (d : gmap string PyVal).

(** [bool(v)] *)
Definition truthy (v : PyVal) : bool :=
  match v with
  | VNone => false
  | VBool b => b
  | VInt z => negb (z =? 0)
  | VFloat m _ => negb (m =? 0)
  | VStr s => negb (String.eqb s "")
  | VList l => match l with [] => false | _ => true end
  | VDict d => negb (bool_decide (d = ∅))
  end.

(** [type(v).__name__] *)
Definition type_name (v : PyVal) : string :=
  match v with
  | VNone => "NoneType"
  | VBool _ => "bool"
  | VInt _ => "int"
  | VFloat _ _ => "float"
  | VStr _ => "str"
  | VList _ => "list"
  | VDict _ => "dict"
  end.

(** Truth value of a [str] and of an [Optional[str]]. *)
Definition str_truthy (s : string) : bool := negb (String.eqb s "").
Definition opt_truthy (o : option string) : bool :=
  match o with Some s => str_truthy s | None => false end.

(** [str(x)] for an [Optional[str]] inside an f-string. *)
Definition fmt_opt (o : option string) : string :=
  match o with Some s => s | None => "None" end.

(** [s[n:]] *)
Fixpoint drop_chars (n : nat) (s : string) : string :=
  match n, s with
  | O, _ => s
  | S n', String _ r => drop_chars n' r
  | S _, EmptyString => EmptyString
  end.

(** [s.split(c)[0]]: the part of [s] before the first [c]. *)
Fixpoint split_head (c : ascii) (s : string) : string :=
  match s with
  | EmptyString => EmptyString
  | String a r => if Ascii.eqb a c then EmptyString else String a (split_head c r)
  end.

(** ** Exceptions and the state-and-exception monad *)

Inductive ExnClass :=
| TimeoutException
| NoSuchElementException
| WebDriverException
| ValueError
| TypeError
| AttributeError
| KeyError
| OSError
| APIError
| PlainException.

#[global] Instance ExnClass_eq_dec : EqDecision ExnClass.
Proof. solve_decision. Defined.

(** A raised exception: its class and [str(e)]. *)
Record Exn := mkExn { exn_class : ExnClass; exn_str : string }.

(** [v.attr] on a value whose type has no such attribute. *)
Definition no_attribute (v : PyVal) (attr : string) : Exn :=
  mkExn AttributeError
    ("'" +:+ type_name v +:+ "' object has no attribute '" +:+ attr +:+ "'").

Inductive Res (A : Type) :=
| Ret (a : A)
| Raise (e : Exn).
Arguments Ret {A} a.
Arguments Raise {A} e.

Definition M (S A : Type) : Type := S -> Res A * S.

Definition ret {S A} (a : A) : M S A := fun s => (Ret a, s).
Definition raise {S A} (e : Exn) : M S A := fun s => (Raise e, s).
Definition bind {S A B} (m : M S A) (k : A -> M S B) : M S B :=
  fun s => match m s with
           | (Ret a, s') => k a s'
           | (Raise e, s') => (Raise e, s')
           end.

(** [try: m  except Exception as e: h e] *)
Definition try_except {S A} (m : M S A) (h : Exn -> M S A) : M S A :=
  fun s => match m s with
           | (Ret a, s') => (Ret a, s')
           | (Raise e, s') => h e s'
           end.

(** [try: m  except C: h], every other class propagates. *)
Definition try_except_class {S A} (c : ExnClass) (m : M S A) (h : M S A) : M S A :=
  fun s => match m s with
           | (Ret a, s') => (Ret a, s')
           | (Raise e, s') =>
               if bool_decide (exn_class e = c) then h s' else (Raise e, s')
           end.

(** Run a computation on a component of the state. *)
Definition zoom {S T A} (get : S -> T) (set : T -> S -> S) (m : M T A) : M S A :=
  fun s => let '(r, t') := m (get s) in (r, set t' s).

Declare Scope py_scope.
Delimit Scope py_scope with py.
Notation "x <- m ;; k" := (bind m (fun x => k))
  (at level 100, m at next level, right associativity) : py_scope.
Notation "m ;;; k" := (bind m (fun _ => k))
  (at level 100, right associativity) : py_scope.
Open Scope py_scope.

(** ** Locator tables ([actions/locators.py]) *)

Inductive By := CSS_SELECTOR | XPATH | ID | NAME.

Definition Locator : Type := By * string.

Definition parse_locator (locator_str : string) : Locator :=
  if String.prefix "css:" locator_str then (CSS_SELECTOR, drop_chars 4 locator_str)
  else if String.prefix "xpath:" locator_str then (XPATH, drop_chars 6 locator_str)
  else if String.prefix "id:" locator_str then (ID, drop_chars 3 locator_str)
  else if String.prefix "name:" locator_str then (NAME, drop_chars 5 locator_str)
  else (CSS_SELECTOR, locator_str).

Definition SHOPEE_ID : gmap string PyVal :=
  {[ "base_url" := VStr "https://seller.shopee.co.id";
     "login_url" := VStr "https://seller.shopee.co.id/account/signin";
     "login_check" := VDict
       {[ "logged_in" := VStr "css:.navbar-username";
          "login_form" := VStr "css:input[name='loginKey']" ]};
     "ads_center" := VDict
       {[ "entry_url" := VStr "https://seller.shopee.co.id/portal/marketing/pas/assembly";
          "summary_section" := VStr "css:.ads-summary, .marketing-summary";
          "total_spend" := VStr "css:[data-testid='total-spend'], .spend-value";
          "total_impressions" := VStr "css:[data-testid='impressions'], .impressions-value";
          "total_clicks" := VStr "css:[data-testid='clicks'], .clicks-value";
          "total_orders" := VStr "css:[data-testid='orders'], .orders-value";
          "roas" := VStr "css:[data-testid='roas'], .roas-value";
          "date_picker" := VStr "css:.date-range-picker, [data-testid='date-picker']";
          "date_today" := VStr "css:button:has-text('Hari ini'), button:has-text('Today')";
          "date_7days" := VStr "css:button:has-text('7 hari'), button:has-text('7 days')";
          "date_30days" := VStr "css:button:has-text('30 hari'), button:has-text('30 days')" ]};
     "product_list" := VDict
       {[ "entry_url" := VStr "https://seller.shopee.co.id/portal/product/list/all";
          "search_input" := VStr "css:input[placeholder*='Cari'], input[placeholder*='Search']";
          "search_button" := VStr "css:button[type='submit'], .search-btn";
          "product_table" := VStr "css:.product-table, table";
          "product_row" := VStr "css:.product-row, tr.product-item";
          "product_name" := VStr "css:.product-name, .product-title";
          "product_sku" := VStr "css:.product-sku";
          "product_price" := VStr "css:.product-price";
          "product_stock" := VStr "css:.product-stock";
          "edit_btn" := VStr "css:button:has-text('Ubah'), button:has-text('Edit')";
          "more_actions_btn" := VStr "css:.more-actions, .dropdown-toggle" ]};
     "product_edit" := VDict
       {[ "title_input" := VStr "css:input[name='name'], input[placeholder*='Nama produk'], textarea[name='name']";
          "description_textarea" := VStr "css:textarea[name='description'], .product-description textarea";
          "price_input" := VStr "css:input[name='price'], input[type='number'][placeholder*='Harga']";
          "stock_input" := VStr "css:input[name='stock'], input[type='number'][placeholder*='Stok']";
          "sku_input" := VStr "css:input[name='sku']";
          "save_btn" := VStr "css:button:has-text('Simpan'), button:has-text('Save'), button[type='submit']";
          "save_and_publish_btn" := VStr "css:button:has-text('Simpan & Tampilkan')";
          "cancel_btn" := VStr "css:button:has-text('Batal'), button:has-text('Cancel')";
          "success_toast" := VStr "css:.toast-success, [role='alert']:has-text('Berhasil'), .ant-message-success";
          "error_toast" := VStr "css:.toast-error, [role='alert']:has-text('Gagal'), .ant-message-error" ]};
     "order_list" := VDict
       {[ "entry_url" := VStr "https://seller.shopee.co.id/portal/sale/order";
          "tab_all" := VStr "css:[data-tab='all']";
          "tab_pending" := VStr "css:[data-tab='toship']";
          "tab_shipping" := VStr "css:[data-tab='shipping']";
          "tab_completed" := VStr "css:[data-tab='completed']";
          "order_table" := VStr "css:.order-table, table";
          "order_row" := VStr "css:.order-row, tr.order-item";
          "order_id" := VStr "css:.order-id";
          "order_status" := VStr "css:.order-status";
          "order_total" := VStr "css:.order-total" ]} ]}.

Definition SHOPEE_MY : gmap string PyVal := {[ "base_url" := VStr "https://seller.shopee.com.my" ]}.
Definition SHOPEE_TH : gmap string PyVal := {[ "base_url" := VStr "https://seller.shopee.co.th" ]}.
Definition SHOPEE_VN : gmap string PyVal := {[ "base_url" := VStr "https://banhang.shopee.vn" ]}.
Definition SHOPEE_PH : gmap string PyVal := {[ "base_url" := VStr "https://seller.shopee.ph" ]}.
Definition SHOPEE_SG : gmap string PyVal := {[ "base_url" := VStr "https://seller.shopee.sg" ]}.

(** The dict literal [sites] of [get_locators]. *)
Definition sites : gmap string (gmap string PyVal) :=
  {[ "id" := SHOPEE_ID;
     "my" := SHOPEE_MY;
     "th" := SHOPEE_TH;
     "vn" := SHOPEE_VN;
     "ph" := SHOPEE_PH;
     "sg" := SHOPEE_SG ]}.

(** [sites.get(site, SHOPEE_ID)] *)
Definition get_locators (site : string) : gmap string PyVal :=
  default SHOPEE_ID (sites !! site).

(** [config = self.locators; for key in keys: config = config.get(key, {})],
    then the selector if the walk ended on a [str].  [str] has no [get]. *)
Fixpoint loc_walk (config : PyVal) (keys : list string) : Res PyVal :=
  match keys with
  | [] => Ret config
  | key :: rest =>
      match config with
      | VDict d => loc_walk (default (VDict ∅) (d !! key)) rest
      | _ => Raise (no_attribute config "get")
      end
  end.

Definition loc {S} (locators : gmap string PyVal) (keys : list string)
  : M S (option Locator) :=
  fun s =>
    match loc_walk (VDict locators) keys with
    | Ret (VStr sel) => (Ret (Some (parse_locator sel)), s)
    | Ret _ => (Ret None, s)
    | Raise e => (Raise e, s)
    end.

(** [d.get(k1, {}).get(k2)] on the locator table. *)
Definition cfg_get2 {S} (locators : gmap string PyVal) (k1 k2 : string) : M S PyVal :=
  fun s =>
    match default (VDict ∅) (locators !! k1) with
    | VDict d => (Ret (default VNone (d !! k2)), s)
    | v => (Raise (no_attribute v "get"), s)
    end.

(** ** Requests to the external collaborators *)

(** A [WebElement]: located on the page, the [i]-th match of a
    [find_elements], or located below another element. *)
Inductive Element :=
| Found (l : Locator)
| Nth (l : Locator) (i : nat)
| Within (parent : Element) (l : Locator).

Inductive KeysArg :=
| Keys_RETURN
| KeysOf (v : PyVal).

(** The WebDriver requests a controller issues. *)
Inductive Request :=
| Attach (debugging_port : Z)
| Get (url : PyVal)
| WaitPresence (l : Locator) (timeout : Z)
| WaitClickable (l : Locator) (timeout : Z)
| FindElement (l : Locator)
| FindElements (l : Locator)
| FindWithin (e : Element) (l : Locator)
| GetText (e : Element)
| GetAttribute (e : Element) (name : string)
| PageSource
| SaveScreenshot (path : string)
| Click (e : Element)
| Clear (e : Element)
| SendKeys (e : Element) (k : KeysArg)
| ExecuteScript (src : string) (arg : option Element).

(** Requests that change the page: typing, clicking, running a script. *)
Definition mutating (r : Request) : bool :=
  match r with
  | Click _ | Clear _ | SendKeys _ _ | ExecuteScript _ _ => true
  | _ => false
  end.

(** The kinds of request the store client sends. *)
Inductive StoreOp :=
| SelectNext
| UpdateTask
| InsertRun
| UpdateRun
| InsertArtifact.

(** ** The environment

    Every request to an external collaborator is answered by the
    environment: the [n]-th request of a collaborator either raises or
    returns the value the environment holds for it.  A request that
    raises has had no effect. *)

Inductive ApiReply :=
| ApiRaises (e : Exn)
| ApiJson (j : gmap string PyVal).

Record Env := mkEnv {
  (* WebDriver *)
  driver_fault : nat -> Request -> option Exn;
  driver_text : nat -> string;
  driver_attr : nat -> option string;
  driver_count : nat -> nat;
  chrome_attach : nat -> bool;
  strftime_now : nat -> string;
  (* database *)
  store_fault : nat -> StoreOp -> option Exn;
  uuid4 : nat -> string;
  utcnow : nat -> Z;
  (* session provider HTTP API *)
  api_reply : nat -> ApiReply;
  (* interpreter and operating system *)
  elapsed_ms : nat -> nat -> Z;
  makedirs_fault : nat -> option Exn;
  int_of_str : string -> option Z;
  repr_of : PyVal -> string;
  parse_number : string -> PyVal;
}.

(** [str(v)] inside an f-string; containers and floats are printed by the
    interpreter. *)
Definition fmt (env : Env) (v : PyVal) : string :=
  match v with
  | VStr s => s
  | VNone => "None"
  | VBool true => "True"
  | VBool false => "False"
  | VInt z => pretty z
  | _ => repr_of env v
  end.

(** Settings ([config/settings.py]). *)
Definition screenshot_dir : string := "./evidence".
Definition headless : bool := false.

(** ** Page sessions ([core/browser_controller.py]) *)

(** A [BrowserController] object, told apart by its identity [oid].  An
    action is only ever handed a controller whose [connect] returned
    [True], so its [driver] attribute is set. *)
Record BrowserController := mkController {
  oid : nat;
  debugging_port : Z;
  core_version : string;
}.

#[global] Instance BrowserController_eq_dec : EqDecision BrowserController.
Proof. solve_decision. Defined.

(** The WebDriver side: the requests sent so far, tagged with the
    controller that sent them. *)
Record Page := mkPage {
  p_tick : nat;
  p_trace : list (nat * Request);
}.

Section Controller.
Context (env : Env).

(** One request through [self.driver]: logged, then answered by the
    environment.  Returns the index under which the environment holds
    the answer. *)
Definition request (b : BrowserController) (r : Request) : M Page nat :=
  fun p =>
    let p' := mkPage (S (p_tick p)) (p_trace p ++ [(oid b, r)]) in
    match driver_fault env (p_tick p) r with
    | Some e => (Raise e, p')
    | None => (Ret (p_tick p), p')
    end.

(** [connect]: attach a driver to the debugging port; any failure is
    swallowed into [False]. *)
Definition connect (b : BrowserController) : M Page bool :=
  fun p =>
    (Ret (chrome_attach env (p_tick p)),
     mkPage (S (p_tick p)) (p_trace p ++ [(oid b, Attach (debugging_port b))])).

Definition navigate (b : BrowserController) (url : PyVal) : M Page bool :=
  try_except (_ <- request b (Get url) ;; ret true) (fun _ => ret false).

Definition wait_for_element (b : BrowserController) (locator : Locator) (timeout : Z)
  : M Page (option Element) :=
  try_except_class TimeoutException
    (_ <- request b (WaitPresence locator timeout) ;; ret (Some (Found locator)))
    (ret None).

Definition wait_and_click (b : BrowserController) (locator : Locator) (timeout : Z)
  : M Page bool :=
  try_except
    (_ <- request b (WaitClickable locator timeout) ;;
     _ <- request b (Click (Found locator)) ;;
     ret true)
    (fun _ => ret false).

Definition safe_send_keys (b : BrowserController) (locator : Locator) (text : PyVal)
    (clear_first : bool) (timeout : Z) : M Page bool :=
  try_except
    (_ <- request b (WaitPresence locator timeout) ;;
     _ <- (if clear_first then request b (Clear (Found locator)) else ret O) ;;
     _ <- request b (SendKeys (Found locator) (KeysOf text)) ;;
     ret true)
    (fun _ => ret false).

Definition get_text (b : BrowserController) (locator : Locator) (timeout : Z)
  : M Page (option string) :=
  try_except
    (_ <- request b (WaitPresence locator timeout) ;;
     t <- request b (GetText (Found locator)) ;;
     ret (Some (driver_text env t)))
    (fun _ => ret None).

Definition get_attribute (b : BrowserController) (locator : Locator) (attr : string)
    (timeout : Z) : M Page (option string) :=
  try_except
    (_ <- request b (WaitPresence locator timeout) ;;
     t <- request b (GetAttribute (Found locator) attr) ;;
     ret (driver_attr env t))
    (fun _ => ret None).

(** [screenshot]: the file name carries the wall-clock second. *)
Definition screenshot (b : BrowserController) (name : string) : M Page string :=
  fun p =>
    let timestamp := strftime_now env (p_tick p) in
    let filename := name +:+ "_" +:+ timestamp +:+ ".png" in
    let filepath := screenshot_dir +:+ "/" +:+ filename in
    (_ <- request b (SaveScreenshot filepath) ;; ret filepath) p.

Definition screenshot_evidence (b : BrowserController) (run_id stage : string)
  : M Page string :=
  screenshot b (run_id +:+ "_" +:+ stage).

(** [execute_script(self, script)]: the script and nothing else. *)
Definition execute_script (b : BrowserController) (script : string) : M Page unit :=
  _ <- request b (ExecuteScript script None) ;; ret tt.

(** The call [browser.execute_script(script, *more)]: binding the
    arguments fails, before the body runs, when there are more than the
    method takes. *)
Definition execute_script_call (b : BrowserController) (script : string)
    (more : list Element) : M Page unit :=
  match more with
  | [] => execute_script b script
  | _ :: _ =>
      raise (mkExn TypeError
               ("BrowserController.execute_script() takes 2 positional arguments but "
                +:+ pretty (2 + length more)%nat +:+ " were given"))
  end.

Definition check_element_exists (b : BrowserController) (locator : Locator)
  : M Page bool :=
  try_except_class NoSuchElementException
    (_ <- request b (FindElement locator) ;; ret true)
    (ret false).

Definition scroll_to_element (b : BrowserController) (locator : Locator) : M Page bool :=
  try_except
    (_ <- request b (FindElement locator) ;;
     _ <- request b (ExecuteScript
            "arguments[0].scrollIntoView({behavior: 'smooth', block: 'center'});"
            (Some (Found locator))) ;;
     ret true)
    (fun _ => ret false).

End Controller.

(** ** Outcomes ([ActionResult]) and the task store ([core/supabase_store.py]) *)

Record ActionResult := mkResult {
  ok : bool;
  action : string;
  data : option (gmap string PyVal);
  error_code : option string;
  error_message : option string;
  evidence : option (gmap string PyVal);
  timing_ms : option Z;
}.

Definition set_evidence (ev : option (gmap string PyVal)) (r : ActionResult) : ActionResult :=
  mkResult (ok r) (action r) (data r) (error_code r) (error_message r) ev (timing_ms r).

Definition set_timing_ms (t : option Z) (r : ActionResult) : ActionResult :=
  mkResult (ok r) (action r) (data r) (error_code r) (error_message r) (evidence r) t.

Inductive TaskStatus := QUEUED | RUNNING | SUCCESS | FAILED.
Inductive ArtifactType := BEFORE | AFTER | ERROR | TRACE.

#[global] Instance TaskStatus_eq_dec : EqDecision TaskStatus.
Proof. solve_decision. Defined.
#[global] Instance ArtifactType_eq_dec : EqDecision ArtifactType.
Proof. solve_decision. Defined.

(** A row of [agent_tasks]; [t_payload] is the value its JSON text denotes. *)
Record Task := mkTask {
  t_id : string;
  t_shop_id : string;
  t_action : string;
  t_payload : gmap string PyVal;
  t_status : TaskStatus;
  t_priority : Z;
  t_dry_run : bool;
  t_created_at : Z;
  t_updated_at : Z;
  t_error : option string;
}.

(** What [complete_run] serialises: [asdict(result)] or the empty dict. *)
Inductive RunResult :=
| EmptyResult
| ResultOf (r : ActionResult).

Record Run := mkRun {
  r_id : string;
  r_task_id : string;
  r_worker_id : string;
  r_start_at : Z;
  r_end_at : option Z;
  r_result : option RunResult;
  r_error : option string;
}.

Record Artifact := mkArtifact {
  a_id : string;
  a_run_id : string;
  a_type : ArtifactType;
  a_url : string;
}.

(** The writes the database has applied, oldest first. *)
Inductive Write :=
| SetStatus (task_id : string) (status : TaskStatus) (error : option string)
| NewRun (run_id task_id worker_id : string)
| EndRun (run_id : string) (result : RunResult) (error : option string)
| NewArtifact (run_id : string) (type : ArtifactType) (url : string).

Record Store := mkStore {
  agent_tasks : list Task;
  agent_runs : list Run;
  agent_artifacts : list Artifact;
  st_tick : nat;
  st_log : list Write;
}.

(** [ORDER BY priority DESC, created_at ASC]: [a] sorts no later than [b]. *)
Definition precedes (a b : Task) : bool :=
  (t_priority b <? t_priority a)
  || ((t_priority a =? t_priority b) && (t_created_at a <=? t_created_at b)).

Fixpoint insert_row (a : Task) (l : list Task) : list Task :=
  match l with
  | [] => [a]
  | b :: r => if precedes a b then a :: l else b :: insert_row a r
  end.

Definition order_rows (l : list Task) : list Task := foldr insert_row [] l.

Definition is_queued (t : Task) : bool := bool_decide (t_status t = QUEUED).

(** [select * where status = 'queued' order by priority desc, created_at
    limit 1] *)
Definition select_next (rows : list Task) : list Task :=
  take 1 (order_rows (List.filter is_queued rows)).

Definition with_status (status : TaskStatus) (now : Z) (error : option string)
    (t : Task) : Task :=
  mkTask (t_id t) (t_shop_id t) (t_action t) (t_payload t) status (t_priority t)
    (t_dry_run t) (t_created_at t) now
    (if opt_truthy error then error else t_error t).

Definition with_completion (now : Z) (result : RunResult) (error : option string)
    (r : Run) : Run :=
  mkRun (r_id r) (r_task_id r) (r_worker_id r) (r_start_at r) (Some now) (Some result)
    (if opt_truthy error then error else r_error r).

Section StoreClient.
Context (env : Env).

(** One round trip to the database.  A failed request raises and changes
    no table; an answered one applies [write] and is logged. *)
Definition transact {A} (op : StoreOp) (answer : nat -> Store -> A)
    (write : nat -> Store -> Store) (logged : nat -> list Write) : M Store A :=
  fun s =>
    let n := st_tick s in
    match store_fault env n op with
    | Some e =>
        (Raise e, mkStore (agent_tasks s) (agent_runs s) (agent_artifacts s) (S n) (st_log s))
    | None =>
        let s' := write n s in
        (Ret (answer n s),
         mkStore (agent_tasks s') (agent_runs s') (agent_artifacts s') (S n)
                 (st_log s ++ logged n))
    end.

(** [get_next_task]: the query, then [json.loads] on the payload column
    of the row it brought.  A row holds its payload as the dict the column
    decodes to, so the second step shows only in the fault of
    [SelectNext], which stands for an exception of either step; neither
    writes. *)
Definition get_next_task : M Store (option Task) :=
  transact SelectNext (fun _ s => head (select_next (agent_tasks s))) (fun _ s => s) (fun _ => []).

Definition update_task_status (task_id : string) (status : TaskStatus)
    (error : option string) : M Store unit :=
  transact UpdateTask (fun _ _ => tt)
    (fun n s =>
       mkStore
         (map (fun t => if String.eqb (t_id t) task_id
                        then with_status status (utcnow env n) error t else t)
              (agent_tasks s))
         (agent_runs s) (agent_artifacts s) (st_tick s) (st_log s))
    (fun _ => [SetStatus task_id status error]).

Definition create_run (task_id worker_id : string) : M Store string :=
  transact InsertRun (fun n _ => uuid4 env n)
    (fun n s =>
       mkStore (agent_tasks s)
         (agent_runs s ++ [mkRun (uuid4 env n) task_id worker_id (utcnow env n) None None None])
         (agent_artifacts s) (st_tick s) (st_log s))
    (fun n => [NewRun (uuid4 env n) task_id worker_id]).

Definition complete_run (run_id : string) (result : RunResult) (error : option string)
  : M Store unit :=
  transact UpdateRun (fun _ _ => tt)
    (fun n s =>
       mkStore (agent_tasks s)
         (map (fun r => if String.eqb (r_id r) run_id
                        then with_completion (utcnow env n) result error r else r)
              (agent_runs s))
         (agent_artifacts s) (st_tick s) (st_log s))
    (fun _ => [EndRun run_id result error]).

Definition save_artifact_record (run_id : string) (artifact_type : ArtifactType)
    (local_path : string) : M Store unit :=
  transact InsertArtifact (fun _ _ => tt)
    (fun n s =>
       mkStore (agent_tasks s) (agent_runs s)
         (agent_artifacts s ++
            [mkArtifact (uuid4 env n) run_id artifact_type ("local://" +:+ local_path)])
         (st_tick s) (st_log s))
    (fun _ => [NewArtifact run_id artifact_type ("local://" +:+ local_path)]).

End StoreClient.

(** ** Actions ([actions/base_action.py]) *)

Record ActionContext := mkContext {
  task_id : string;
  run_id : string;
  shop_id : string;
  site : string;
  dry_run : bool;
  extra : gmap string PyVal;
}.

(** What a subclass of [BaseAction] provides.  The registered subclasses
    only ever touch [self.browser] and [self.locators], so the inner logic
    is a computation over the page world. *)
Record BaseAction := mkAction {
  action_name : string;
  _do_action : BrowserController -> gmap string PyVal -> ActionContext ->
               gmap string PyVal -> M Page ActionResult;
}.

(** [payload[key]]; [str] of a [KeyError] is the [repr] of the key, which
    for the keys used here, plain identifiers, is the key in quotes. *)
Definition subscript {S} (payload : gmap string PyVal) (key : string) : M S PyVal :=
  match payload !! key with
  | Some v => ret v
  | None => raise (mkExn KeyError ("'" +:+ key +:+ "'"))
  end.

(** [BaseAction._validate_payload] *)
Fixpoint _validate_payload (payload : gmap string PyVal) (required_fields : list string)
  : option string :=
  match required_fields with
  | [] => None
  | field :: rest =>
      match payload !! field with
      | None => Some ("缺少必需字段: " +:+ field)
      | Some _ => _validate_payload payload rest
      end
  end.

Definition failed_result (name code message : string) : ActionResult :=
  mkResult false name None (Some code) (Some message) None None.

Definition ok_result (name : string) (d : gmap string PyVal) : ActionResult :=
  mkResult true name (Some d) None None None None.

Module UpdateTitleAction.
Section Methods.
Context (env : Env) (b : BrowserController) (locators : gmap string PyVal).

Definition name : string := "update_title".

Definition _search_product (keyword : PyVal) : M Page bool :=
  search_input_loc <- loc locators ["product_list"; "search_input"] ;;
  search_btn_loc <- loc locators ["product_list"; "search_button"] ;;
  match search_input_loc with
  | None => ret false
  | Some input_loc =>
      sent <- safe_send_keys env b input_loc keyword true 10 ;;
      if negb sent then ret false
      else
        _ <- match search_btn_loc with
             | Some btn_loc => _ <- wait_and_click env b btn_loc 5 ;; ret tt
             | None =>
                 element <- wait_for_element env b input_loc 5 ;;
                 match element with
                 | Some el => _ <- request env b (SendKeys el Keys_RETURN) ;; ret tt
                 | None => ret tt
                 end
             end ;;
        ret true
  end.

Definition _click_edit_button : M Page (option string) :=
  product_name_loc <- loc locators ["product_list"; "product_name"] ;;
  old_title <- match product_name_loc with
               | Some l => get_text env b l 5
               | None => ret None
               end ;;
  edit_btn_loc <- loc locators ["product_list"; "edit_btn"] ;;
  match edit_btn_loc with
  | None => ret None
  | Some btn_loc =>
      clicked <- wait_and_click env b btn_loc 10 ;;
      if negb clicked then ret None
      else ret (Some (if opt_truthy old_title then default "" old_title
                      else "[未获取到原标题]"))
  end.

Definition _update_title_field (new_title : PyVal) : M Page bool :=
  title_input_loc <- loc locators ["product_edit"; "title_input"] ;;
  match title_input_loc with
  | None => ret false
  | Some input_loc =>
      element <- wait_for_element env b input_loc 10 ;;
      match element with
      | None => ret false
      | Some el =>
          _ <- scroll_to_element env b input_loc ;;
          _ <- execute_script_call env b "arguments[0].value = '';" [el] ;;
          _ <- request env b (SendKeys el (KeysOf new_title)) ;;
          _ <- execute_script_call env b
                 "arguments[0].dispatchEvent(new Event('input', { bubbles: true }));"
                 [el] ;;
          ret true
      end
  end.

(** The dict [{"success": .., "message": ..}] as a pair. *)
Definition _click_save : M Page (bool * string) :=
  save_btn_loc <- loc locators ["product_edit"; "save_btn"] ;;
  match save_btn_loc with
  | None => ret (false, "保存按钮定位器未配置")
  | Some btn_loc =>
      _ <- execute_script env b "window.scrollTo(0, document.body.scrollHeight);" ;;
      clicked <- wait_and_click env b btn_loc 10 ;;
      if negb clicked then ret (false, "无法点击保存按钮")
      else
        success_toast_loc <- loc locators ["product_edit"; "success_toast"] ;;
        error_toast_loc <- loc locators ["product_edit"; "error_toast"] ;;
        shown <- match success_toast_loc with
                 | Some l => check_element_exists env b l
                 | None => ret false
                 end ;;
        if shown then ret (true, "保存成功")
        else
          refused <- match error_toast_loc with
                     | Some l => check_element_exists env b l
                     | None => ret false
                     end ;;
          if refused then
            error_text <- match error_toast_loc with
                          | Some l => get_text env b l 2
                          | None => ret None
                          end ;;
            ret (false, "保存失败: " +:+ fmt_opt error_text)
          else ret (true, "保存完成（未检测到明确提示）")
  end.

Definition _do_action (context : ActionContext) (payload : gmap string PyVal)
  : M Page ActionResult :=
  let validation_error := _validate_payload payload ["product_id"; "new_title"] in
  if opt_truthy validation_error then
    ret (mkResult false name None (Some "VALIDATION_ERROR") validation_error None None)
  else
    product_id <- subscript payload "product_id" ;;
    new_title <- subscript payload "new_title" ;;
    let product_name := default product_id (payload !! "product_name") in
    if dry_run context then
      ret (ok_result name
             {[ "product_id" := product_id;
                "new_title" := new_title;
                "dry_run" := VBool true;
                "message" := VStr "Dry run 模式，未实际执行" ]})
    else
      product_list_url <- cfg_get2 locators "product_list" "entry_url" ;;
      opened <- navigate env b product_list_url ;;
      if negb opened then ret (failed_result name "NAVIGATION_ERROR" "无法打开商品列表页")
      else
        searched <- _search_product product_name ;;
        if negb searched then
          ret (failed_result name "SEARCH_ERROR" ("搜索商品失败: " +:+ fmt env product_name))
        else
          old_title <- _click_edit_button ;;
          match old_title with
          | None =>
              ret (failed_result name "PRODUCT_NOT_FOUND"
                     ("未找到商品或无法点击编辑: " +:+ fmt env product_id))
          | Some before_title =>
              updated <- _update_title_field new_title ;;
              if negb updated then
                ret (failed_result name "UPDATE_ERROR" "无法修改标题字段")
              else
                save_result <- _click_save ;;
                if negb (fst save_result) then
                  ret (failed_result name "SAVE_ERROR" (snd save_result))
                else
                  ret (ok_result name
                         {[ "product_id" := product_id;
                            "before_title" := VStr before_title;
                            "after_title" := new_title ]})
          end.

End Methods.

Definition cls (env : Env) : BaseAction :=
  mkAction name (fun b locators => _do_action env b locators).

End UpdateTitleAction.

(** [s.strip()].  A text is the UTF-8 encoding of the [str]; what
    [strip] removes are the code points for which [str.isspace] holds:
    U+0009 to U+000D, U+001C to U+0020, U+0085, U+00A0, U+1680, U+2000 to
    U+200A, U+2028, U+2029, U+202F, U+205F and U+3000, encoded in one, two
    or three bytes. *)
Definition is_space1 (a : ascii) : bool :=
  let a := N_of_ascii a in
  ((9 <=? a) && (a <=? 13) || (28 <=? a) && (a <=? 32))%N.

Definition is_space2 (a b : ascii) : bool :=
  let a := N_of_ascii a in
  let b := N_of_ascii b in
  ((a =? 194) && ((b =? 133) || (b =? 160)))%N.

Definition is_space3 (a b c : ascii) : bool :=
  let a := N_of_ascii a in
  let b := N_of_ascii b in
  let c := N_of_ascii c in
  ((a =? 225) && (b =? 154) && (c =? 128)
   || (a =? 226) && (b =? 128)
      && ((128 <=? c) && (c <=? 138) || (c =? 168) || (c =? 169) || (c =? 175))
   || (a =? 226) && (b =? 129) && (c =? 159)
   || (a =? 227) && (b =? 128) && (c =? 128))%N.

Fixpoint lstrip (s : string) : string :=
  match s with
  | String a r =>
      if is_space1 a then lstrip r
      else
        match r with
        | String b r2 =>
            if is_space2 a b then lstrip r2
            else
              match r2 with
              | String c r3 => if is_space3 a b c then lstrip r3 else s
              | EmptyString => s
              end
        | EmptyString => s
        end
  | EmptyString => EmptyString
  end.

(** [lstrip] on the reversed text: the bytes of the last code point come
    first, last byte ahead. *)
Fixpoint lstrip_reversed (s : string) : string :=
  match s with
  | String c r =>
      if is_space1 c then lstrip_reversed r
      else
        match r with
        | String b r2 =>
            if is_space2 b c then lstrip_reversed r2
            else
              match r2 with
              | String a r3 => if is_space3 a b c then lstrip_reversed r3 else s
              | EmptyString => s
              end
        | EmptyString => s
        end
  | EmptyString => EmptyString
  end.

Definition rstrip (s : string) : string := String.rev (lstrip_reversed (String.rev s)).

Definition strip (s : string) : string := rstrip (lstrip s).

(** [rows[:limit]] *)
Definition slice_to {A} (limit : PyVal) (rows : list A) : Res (list A) :=
  let upto (n : Z) :=
    if n <? 0 then take (Z.to_nat (Z.of_nat (length rows) + n)) rows
    else take (Z.to_nat n) rows in
  match limit with
  | VNone => Ret rows
  | VInt n => Ret (upto n)
  | VBool flag => Ret (upto (if flag then 1 else 0))
  | _ => Raise (mkExn TypeError "slice indices must be integers or None or have an __index__ method")
  end.

Module FetchProductSnapshotAction.
Section Methods.
Context (env : Env) (b : BrowserController) (locators : gmap string PyVal).

Definition name : string := "fetch_product_snapshot".

Definition _search_product (keyword : PyVal) : M Page bool :=
  search_input_loc <- loc locators ["product_list"; "search_input"] ;;
  match search_input_loc with
  | None => ret false
  | Some input_loc =>
      sent <- safe_send_keys env b input_loc keyword true 10 ;;
      if negb sent then ret false
      else
        element <- wait_for_element env b input_loc 5 ;;
        _ <- match element with
             | Some el => _ <- request env b (SendKeys el Keys_RETURN) ;; ret tt
             | None => ret tt
             end ;;
        ret true
  end.

(** One guarded cell read of a row:
    [try: elem = row.find_element(..); .. = elem.text.strip()  except: pass] *)
Definition cell_text (row : Element) (css : string) : M Page (option string) :=
  try_except
    (_ <- request env b (FindWithin row (CSS_SELECTOR, css)) ;;
     t <- request env b (GetText (Within row (CSS_SELECTOR, css))) ;;
     ret (Some (strip (driver_text env t))))
    (fun _ => ret None).

Definition assign (key : string) (cell : option string) (product : gmap string PyVal)
  : gmap string PyVal :=
  match cell with
  | Some s => <[ key := VStr s ]> product
  | None => product
  end.

Definition _extract_product_from_row (row : Element) (index : nat)
  : M Page (option (gmap string PyVal)) :=
  try_except
    (let product : gmap string PyVal :=
       {[ "index" := VInt (Z.of_nat index);
          "name" := VNone; "sku" := VNone; "price" := VNone;
          "stock" := VNone; "status" := VNone ]} in
     name_cell <- cell_text row ".product-name, .product-title, td:nth-child(2)" ;;
     let product := assign "name" name_cell product in
     sku_cell <- cell_text row ".product-sku, .sku" ;;
     let product := assign "sku" sku_cell product in
     price_cell <- cell_text row ".product-price, .price" ;;
     let product := assign "price" price_cell product in
     stock_cell <- cell_text row ".product-stock, .stock" ;;
     let product := assign "stock" stock_cell product in
     product <- try_except
                  (t <- request env b (GetAttribute row "data-product-id") ;;
                   ret (<[ "product_id" :=
                             match driver_attr env t with
                             | Some s => VStr s
                             | None => VNone
                             end ]> product))
                  (fun _ => ret product) ;;
     if truthy (default VNone (product !! "name")) then ret (Some product)
     else ret None)
    (fun _ => ret None).

(** The [for] loop of [_extract_products]; the list being built is part
    of the state, so what was appended survives an exception. *)
Fixpoint extract_rows (rows : list Element) (i : nat)
  : M (Page * list PyVal) unit :=
  match rows with
  | [] => ret tt
  | row :: rest =>
      product <- zoom fst (fun p s => (p, snd s)) (_extract_product_from_row row i) ;;
      _ <- match product with
           | Some d => fun s => (Ret tt, (fst s, snd s ++ [VDict d]))
           | None => ret tt
           end ;;
      extract_rows rest (S i)
  end.

Definition _extract_products (limit : PyVal) : M Page (list PyVal) :=
  product_row_loc <- loc locators ["product_list"; "product_row"] ;;
  let row_loc := default (CSS_SELECTOR, "tr[data-product-id], .product-item")
                   product_row_loc in
  fun p =>
    let '(_, (p', products)) :=
      try_except
        (t <- zoom fst (fun p s => (p, snd s)) (request env b (FindElements row_loc)) ;;
         let rows := map (Nth row_loc) (seq 0 (driver_count env t)) in
         rows <- (fun s => match slice_to limit rows with
                           | Ret l => (Ret l, s)
                           | Raise e => (Raise e, s)
                           end) ;;
         extract_rows rows 0)
        (fun _ => ret tt)
        (p, []) in
    (Ret products, p').

Definition _do_action (context : ActionContext) (payload : gmap string PyVal)
  : M Page ActionResult :=
  let product_ids := default (VList []) (payload !! "product_ids") in
  let keyword := default (VStr "") (payload !! "keyword") in
  let limit := default (VInt 10) (payload !! "limit") in
  product_list_url <- cfg_get2 locators "product_list" "entry_url" ;;
  opened <- navigate env b product_list_url ;;
  if negb opened then ret (failed_result name "NAVIGATION_ERROR" "无法打开商品列表页")
  else
    _ <- (if truthy keyword then _search_product keyword else ret false) ;;
    products <- _extract_products limit ;;
    match products with
    | _ :: _ =>
        ret (ok_result name
               {[ "keyword" := keyword;
                  "count" := VInt (Z.of_nat (length products));
                  "products" := VList products ]})
    | [] => ret (failed_result name "NO_PRODUCTS" "未找到任何商品")
    end.

End Methods.

Definition cls (env : Env) : BaseAction :=
  mkAction name (fun b locators => _do_action env b locators).

End FetchProductSnapshotAction.

Module FetchAdsSummaryAction.
Section Methods.
Context (env : Env) (b : BrowserController) (locators : gmap string PyVal).

Definition name : string := "fetch_ads_summary".

(** [range_key_map.get(date_range, "date_today")]; a list or dict is not
    hashable. *)
Definition range_key {S} (date_range : PyVal) : M S string :=
  match date_range with
  | VStr s =>
      ret (if String.eqb s "today" then "date_today"
           else if String.eqb s "7days" then "date_7days"
           else if String.eqb s "30days" then "date_30days"
           else "date_today")
  | VList _ | VDict _ =>
      raise (mkExn TypeError ("unhashable type: '" +:+ type_name date_range +:+ "'"))
  | _ => ret "date_today"
  end.

Definition _select_date_range (date_range : PyVal) : M Page unit :=
  date_picker_loc <- loc locators ["ads_center"; "date_picker"] ;;
  match date_picker_loc with
  | None => ret tt
  | Some picker_loc =>
      opened <- wait_and_click env b picker_loc 5 ;;
      if opened then
        key <- range_key date_range ;;
        range_loc <- loc locators ["ads_center"; key] ;;
        match range_loc with
        | Some l => _ <- wait_and_click env b l 5 ;; ret tt
        | None => ret tt
        end
      else ret tt
  end.

Definition fields : list (string * string) :=
  [ ("spend", "total_spend");
    ("impressions", "total_impressions");
    ("clicks", "total_clicks");
    ("orders", "total_orders");
    ("roas", "roas") ].

Fixpoint read_metrics (fs : list (string * string)) (metrics : gmap string PyVal)
  : M Page (gmap string PyVal) :=
  match fs with
  | [] => ret metrics
  | (metric_name, locator_key) :: rest =>
      l <- loc locators ["ads_center"; locator_key] ;;
      match l with
      | Some metric_loc =>
          text <- get_text env b metric_loc 5 ;;
          if opt_truthy text
          then read_metrics rest
                 (<[ metric_name := parse_number env (default "" text) ]> metrics)
          else read_metrics rest metrics
      | None => read_metrics rest metrics
      end
  end.

Definition _extract_by_fallback : M Page (gmap string PyVal) :=
  _ <- try_except (_ <- request env b PageSource ;; ret tt) (fun _ => ret tt) ;;
  ret ∅.

Definition _extract_summary_data : M Page (option (gmap string PyVal)) :=
  metrics <- read_metrics fields ∅ ;;
  metrics <- (if bool_decide (metrics = ∅) then _extract_by_fallback else ret metrics) ;;
  ret (if bool_decide (metrics = ∅) then None else Some metrics).

Definition _do_action (context : ActionContext) (payload : gmap string PyVal)
  : M Page ActionResult :=
  let date_range := default (VStr "today") (payload !! "date_range") in
  ads_url <- cfg_get2 locators "ads_center" "entry_url" ;;
  if negb (truthy ads_url) then
    ret (failed_result name "CONFIG_ERROR" "广告中心 URL 未配置")
  else
    opened <- navigate env b ads_url ;;
    if negb opened then
      ret (failed_result name "NAVIGATION_ERROR" ("无法导航到: " +:+ fmt env ads_url))
    else
      _ <- _select_date_range date_range ;;
      summary <- _extract_summary_data ;;
      match summary with
      | Some metrics =>
          ret (ok_result name
                 {[ "date_range" := date_range; "metrics" := VDict metrics ]})
      | None =>
          ret (failed_result name "DATA_EXTRACTION_ERROR"
                 "无法提取广告数据，可能页面结构已变化")
      end.

End Methods.

Definition cls (env : Env) : BaseAction :=
  mkAction name (fun b locators => _do_action env b locators).

End FetchAdsSummaryAction.

(** [ACTION_REGISTRY] and [get_action_class] ([actions/__init__.py]) *)
Definition ACTION_REGISTRY (env : Env) : gmap string BaseAction :=
  {[ "fetch_ads_summary" := FetchAdsSummaryAction.cls env;
     "update_title" := UpdateTitleAction.cls env;
     "fetch_product_snapshot" := FetchProductSnapshotAction.cls env ]}.

Definition get_action_class {S} (env : Env) (action_name : string) : M S BaseAction :=
  match ACTION_REGISTRY env !! action_name with
  | Some c => ret c
  | None =>
      raise (mkExn ValueError
               ("未知的 Action: " +:+ action_name +:+
                "，可用: ['fetch_ads_summary', 'update_title', 'fetch_product_snapshot']"))
  end.

(** ** Session provider client ([core/ziniao_client.py]) *)

Inductive ApiCall :=
| StartBrowser (browser_id : string) (is_headless : bool) (force_download_path : option string).

Record Provider := mkProvider {
  z_tick : nat;
  z_log : list ApiCall;
}.

Record StartBrowserResult := mkStart {
  success : bool;
  sb_debugging_port : option Z;
  sb_core_type : PyVal;
  sb_core_version : PyVal;
  sb_download_path : PyVal;
  sb_error : PyVal;
}.

(** [a or b] *)
Definition py_or (a b : PyVal) : PyVal := if truthy a then a else b.

(** [j.get(k)] *)
Definition jget (j : gmap string PyVal) (k : string) : PyVal := default VNone (j !! k).

(** [v == 0] *)
Definition eq_zero (v : PyVal) : bool :=
  match v with
  | VInt z => z =? 0
  | VBool flag => negb flag
  | VFloat m _ => m =? 0
  | _ => false
  end.

(** [int(v)] *)
Definition py_int {S} (env : Env) (v : PyVal) : M S Z :=
  match v with
  | VInt z => ret z
  | VBool flag => ret (if flag then 1 else 0)
  | VFloat m e => ret (if 0 <=? e then m * 2 ^ e else Z.quot m (2 ^ (- e)))
  | VStr s => match int_of_str env s with
              | Some z => ret z
              | None =>
                  raise (mkExn ValueError
                           ("invalid literal for int() with base 10: " +:+ repr_of env v))
              end
  | _ =>
      raise (mkExn TypeError
               ("int() argument must be a string, a bytes-like object or a real number, not '"
                +:+ type_name v +:+ "'"))
  end.

Section ZiNiaoClient.
Context (env : Env).

(** [_call_api]: one POST; a transport error, an HTTP error status and a
    body that is not JSON all raise. *)
Definition _call_api (call : ApiCall) : M Provider (gmap string PyVal) :=
  fun z =>
    let z' := mkProvider (S (z_tick z)) (z_log z ++ [call]) in
    match api_reply env (z_tick z) with
    | ApiRaises e => (Raise e, z')
    | ApiJson j => (Ret j, z')
    end.

Definition start_browser (browser_id : string) (is_headless : bool)
    (download_path : option string) : M Provider StartBrowserResult :=
  try_except
    (result <- _call_api
                 (StartBrowser browser_id is_headless
                    (if opt_truthy download_path then download_path else None)) ;;
     if eq_zero (jget result "statusCode") then
       port <- py_int env (jget result "debuggingPort") ;;
       ret (mkStart true (Some port)
              (py_or (jget result "core_type") (jget result "coreType"))
              (py_or (jget result "core_version") (jget result "coreVersion"))
              (jget result "downloadPath") VNone)
     else
       ret (mkStart false None VNone VNone VNone
              (py_or (jget result "err")
                 (py_or (jget result "LastError")
                    (VStr ("状态码: " +:+ fmt env (jget result "statusCode")))))))
    (fun e => ret (mkStart false None VNone VNone VNone (VStr (exn_str e)))).

End ZiNiaoClient.

(** ** The world and the action template ([BaseAction.execute]) *)

Record World := mkWorld {
  store : Store;
  page : Page;
  ziniao : Provider;
  clock : nat;
  fs_tick : nat;
  next_oid : nat;
}.

Definition on_store {A} (m : M Store A) : M World A :=
  zoom store (fun st w => mkWorld st (page w) (ziniao w) (clock w) (fs_tick w) (next_oid w)) m.
Definition on_page {A} (m : M Page A) : M World A :=
  zoom page (fun p w => mkWorld (store w) p (ziniao w) (clock w) (fs_tick w) (next_oid w)) m.
Definition on_ziniao {A} (m : M Provider A) : M World A :=
  zoom ziniao (fun z w => mkWorld (store w) (page w) z (clock w) (fs_tick w) (next_oid w)) m.

Section Executor.
Context (env : Env).

(** [time.time()]: a reading of the clock, named by its number.  What
    the template makes of two readings, [int((t1 - t0) * 1000)] on floats,
    is the environment's [elapsed_ms]. *)
Definition time_time : M World nat :=
  fun w => (Ret (clock w),
            mkWorld (store w) (page w) (ziniao w) (S (clock w)) (fs_tick w) (next_oid w)).

(** The capture-and-record pair the template runs at each stage. *)
Definition capture (b : BrowserController) (run : string) (stage : string)
    (type : ArtifactType) : M World string :=
  shot <- on_page (screenshot_evidence env b run stage) ;;
  _ <- on_store (save_artifact_record env run type shot) ;;
  ret shot.

(** [BaseAction.execute]; [has_store] is the truth value of [self.store]. *)
Definition execute (a : BaseAction) (b : BrowserController) (has_store : bool)
    (context : ActionContext) (payload : gmap string PyVal) : M World ActionResult :=
  start_time <- time_time ;;
  let locators := get_locators (site context) in
  before_screenshot <-
    (if has_store
     then shot <- capture b (run_id context) "before" BEFORE ;; ret (Some shot)
     else ret None) ;;
  try_except
    (result <- on_page (_do_action a b locators context payload) ;;
     result <-
       (if has_store && ok result then
          after_screenshot <- capture b (run_id context) "after" AFTER ;;
          ret (set_evidence
                 (Some {[ "before_png" := match before_screenshot with
                                          | Some p => VStr p
                                          | None => VNone
                                          end;
                          "after_png" := VStr after_screenshot ]})
                 result)
        else ret result) ;;
     now <- time_time ;;
     ret (set_timing_ms (Some (elapsed_ms env start_time now)) result))
    (fun e =>
       error_screenshot <-
         (if has_store
          then shot <- capture b (run_id context) "error" ERROR ;; ret (Some shot)
          else ret None) ;;
       now <- time_time ;;
       ret (mkResult false (action_name a) None (Some "EXCEPTION") (Some (exn_str e))
              (if opt_truthy error_screenshot
               then Some {[ "error_png" := VStr (default "" error_screenshot) ]}
               else None)
              (Some (elapsed_ms env start_time now)))).

End Executor.

(** ** The worker ([worker.py]) *)

(** A [Worker] after a successful [setup]: the provider client and the
    store are attached. *)
Record Worker := mkWorker {
  worker_id : string;
  shop_browser_map : gmap string string;
  active_browsers : gmap string BrowserController;
}.

Record Sys := mkSys {
  self : Worker;
  world : World;
}.

Definition on_world {A} (m : M World A) : M Sys A :=
  zoom world (fun w s => mkSys (self s) w) m.

Section WorkerMethods.
Context (env : Env).

(** [BrowserController.__init__]: a fresh object, then
    [os.makedirs(screenshot_dir, exist_ok=True)]. *)
Definition create_browser_controller (port : Z) (version : string)
  : M World BrowserController :=
  fun w =>
    let c := mkController (next_oid w) port version in
    let w' := mkWorld (store w) (page w) (ziniao w) (clock w) (S (fs_tick w))
                (S (next_oid w)) in
    match makedirs_fault env (fs_tick w) with
    | Some e => (Raise e, w')
    | None => (Ret c, w')
    end.

(** [result.core_version.split('.')[0] if result.core_version else "131"] *)
Definition major_version {S} (v : PyVal) : M S string :=
  if truthy v then
    match v with
    | VStr s => ret (split_head "." s)
    | _ => raise (no_attribute v "split")
    end
  else ret "131".

Definition get_browser_for_shop (shop : string) : M Sys (option BrowserController) :=
  fun s =>
    match active_browsers (self s) !! shop with
    | Some controller => (Ret (Some controller), s)
    | None =>
        match shop_browser_map (self s) !! shop with
        | None => (Ret None, s)
        | Some browser_id =>
            if negb (str_truthy browser_id) then (Ret None, s)
            else
              (result <- on_world (on_ziniao (start_browser env browser_id headless None)) ;;
               if negb (success result) then ret None
               else
                 version <- major_version (sb_core_version result) ;;
                 controller <- on_world
                                 (create_browser_controller
                                    (default 0 (sb_debugging_port result)) version) ;;
                 connected <- on_world (on_page (connect env controller)) ;;
                 if negb connected then ret None
                 else
                   fun s' =>
                     (Ret (Some controller),
                      mkSys (mkWorker (worker_id (self s')) (shop_browser_map (self s'))
                               (<[ shop := controller ]> (active_browsers (self s'))))
                            (world s'))) s
        end
    end.

(** [payload.get("locale", "id").split("-")[0]] *)
Definition locale_site {S} (payload : gmap string PyVal) : M S string :=
  match default (VStr "id") (payload !! "locale") with
  | VStr s => ret (split_head "-" s)
  | v => raise (no_attribute v "split")
  end.

Definition execute_task (task : Task) : M Sys bool :=
  let task_id := t_id task in
  let shop := t_shop_id task in
  let action_name := t_action task in
  let payload := t_payload task in
  let dry := t_dry_run task in
  _ <- on_world (on_store (update_task_status env task_id RUNNING None)) ;;
  run <- (fun s => on_world (on_store (create_run env task_id (worker_id (self s)))) s) ;;
  try_except
    (browser <- get_browser_for_shop shop ;;
     match browser with
     | None => raise (mkExn PlainException ("无法获取店铺 " +:+ shop +:+ " 的浏览器"))
     | Some b =>
         action_class <- get_action_class env action_name ;;
         site <- locale_site payload ;;
         let context := mkContext task_id run shop site dry ∅ in
         result <- on_world (execute env action_class b true context payload) ;;
         _ <- on_world (on_store
                (complete_run env run (ResultOf result)
                   (if negb (ok result) then error_message result else None))) ;;
         _ <- (if ok result then
                 on_world (on_store (update_task_status env task_id SUCCESS None))
               else
                 on_world (on_store
                   (update_task_status env task_id FAILED
                      (Some (fmt_opt (error_code result) +:+ ": " +:+
                             fmt_opt (error_message result)))))) ;;
         ret (ok result)
     end)
    (fun e =>
       _ <- on_world (on_store (complete_run env run EmptyResult (Some (exn_str e)))) ;;
       _ <- on_world (on_store (update_task_status env task_id FAILED (Some (exn_str e)))) ;;
       ret false).

Definition run_once : M Sys bool :=
  task <- on_world (on_store (get_next_task env)) ;;
  match task with
  | None => ret false
  | Some t => _ <- execute_task t ;; ret true
  end.

End WorkerMethods.

(** ** Concrete environments and inputs used in the examples *)

(** Every request is answered: no fault, empty texts, no matching rows. *)
Definition calm : Env :=
  mkEnv (fun _ _ => None) (fun _ => "") (fun _ => None) (fun _ => O) (fun _ => true)
    (fun _ => "20240101_000000")
    (fun _ _ => None) (fun n => "uuid-" +:+ pretty n) (fun n => Z.of_nat n)
    (fun _ => ApiJson {[ "statusCode" := VInt 0; "debuggingPort" := VInt 9222;
                         "coreVersion" := VStr "131.0.6778" ]})
    (fun n0 n1 => Z.of_nat n1 - Z.of_nat n0) (fun _ => None) (fun _ => None) (fun _ => "?")
    (fun s => VStr s).

Definition override_driver_fault (f : nat -> Request -> option Exn) (env : Env) : Env :=
  mkEnv f (driver_text env) (driver_attr env) (driver_count env) (chrome_attach env)
    (strftime_now env) (store_fault env) (uuid4 env) (utcnow env) (api_reply env)
    (elapsed_ms env) (makedirs_fault env) (int_of_str env) (repr_of env) (parse_number env).

Definition override_store_fault (f : nat -> StoreOp -> option Exn) (env : Env) : Env :=
  mkEnv (driver_fault env) (driver_text env) (driver_attr env) (driver_count env)
    (chrome_attach env) (strftime_now env) f (uuid4 env) (utcnow env) (api_reply env)
    (elapsed_ms env) (makedirs_fault env) (int_of_str env) (repr_of env) (parse_number env).

Definition empty_store : Store := mkStore [] [] [] O [].
Definition empty_page : Page := mkPage O [].
Definition empty_world : World :=
  mkWorld empty_store empty_page (mkProvider O []) O O O.

Definition chrome : BrowserController := mkController O 9222 "131".

Definition known_sites : list string := ["id"; "my"; "th"; "vn"; "ph"; "sg"].

Definition required_keys : list string := ["product_id"; "new_title"].


(** The requests sent between two page worlds. *)
Definition new_requests (p p' : Page) : list (nat * Request) :=
  drop (length (p_trace p)) (p_trace p').

(** The dry-run contract for one run [out] of an inner action started in
    page world [p]: a successful outcome whose data carries
    [dry_run = True], and no mutating request sent. *)
Definition dry_run_contract (out : Res ActionResult * Page) (p : Page) : Prop :=
  exists res,
    out.1 = Ret res
    /\ ok res = true
    /\ (data res ≫= (fun d => d !! "dry_run")) = Some (VBool true)
    /\ Forall (fun c => mutating c.2 = false) (new_requests p out.2).

(** The store side of claiming a task in one worker cycle: [run_once]
    fetches the next task and [execute_task] first marks it running. *)
Definition claim_next (env : Env) : M Store (option string) :=
  task <- get_next_task env ;;
  match task with
  | Some t => _ <- update_task_status env (t_id t) RUNNING None ;; ret (Some (t_id t))
  | None => ret None
  end.

Definition queued_task (id : string) (priority created : Z) : Task :=
  mkTask id "shop_01" "fetch_ads_summary" ∅ QUEUED priority false created created None.

(** Priorities 5, 1, 5, created in the order t1, t2, t3. *)
Definition three_tasks : Store :=
  mkStore [queued_task "t1" 5 100; queued_task "t2" 1 200; queued_task "t3" 5 300]
    [] [] O [].

(** The first row leads every row of the list. *)
Definition leads (l : list Task) : Prop :=
  match l with
  | [] => True
  | t :: _ => forall t', t' ∈ l -> precedes t t' = true
  end.

(** Environments in which no screenshot request fails, and in which no
    artifact insert fails. *)
Definition shots_ok (env : Env) : Prop :=
  forall n path, driver_fault env n (SaveScreenshot path) = None.
Definition artifacts_ok (env : Env) : Prop :=
  forall n, store_fault env n InsertArtifact = None.

(** Environments in which the store answers the requests the worker
    itself sends about tasks and runs. *)
Definition worker_store_ok (env : Env) : Prop :=
  forall n, store_fault env n UpdateTask = None
            /\ store_fault env n InsertRun = None
            /\ store_fault env n UpdateRun = None.

(** The artifact rows and the writes added between two store states. *)
Definition new_artifacts (s s' : Store) : list Artifact :=
  drop (length (agent_artifacts s)) (agent_artifacts s').
Definition new_writes (s s' : Store) : list Write :=
  drop (length (st_log s)) (st_log s').

Definition tagged (a : Artifact) : string * ArtifactType := (a_run_id a, a_type a).

(** The page world the inner action starts in: after the "before" shot
    when a store is attached. *)
Definition inner_start (env : Env) (b : BrowserController) (context : ActionContext)
    (has_store : bool) (p : Page) : Page :=
  if has_store then snd (screenshot_evidence env b (run_id context) "before" p) else p.

(** The template in its three parts.  The "before" stage runs ahead of
    the [try]; the guarded block is the body of the [try], from the inner
    action to the "after" capture and the elapsed time; the "error" stage is
    the capture of the handler.  Without a store the two stages do nothing. *)
Definition before_stage (env : Env) (b : BrowserController) (has_store : bool)
    (context : ActionContext) : M World (option string) :=
  if has_store
  then shot <- capture env b (run_id context) "before" BEFORE ;; ret (Some shot)
  else ret None.

Definition guarded (env : Env) (a : BaseAction) (b : BrowserController) (has_store : bool)
    (context : ActionContext) (payload : gmap string PyVal) (start_time : nat)
    (before_screenshot : option string) : M World ActionResult :=
  result <- on_page (_do_action a b (get_locators (site context)) context payload) ;;
  result <-
    (if has_store && ok result then
       after_screenshot <- capture env b (run_id context) "after" AFTER ;;
       ret (set_evidence
              (Some {[ "before_png" := match before_screenshot with
                                       | Some p => VStr p
                                       | None => VNone
                                       end;
                       "after_png" := VStr after_screenshot ]})
              result)
     else ret result) ;;
  now <- time_time ;;
  ret (set_timing_ms (Some (elapsed_ms env start_time now)) result).

Definition error_stage (env : Env) (b : BrowserController) (has_store : bool)
    (context : ActionContext) : M World (option string) :=
  if has_store
  then shot <- capture env b (run_id context) "error" ERROR ;; ret (Some shot)
  else ret None.

(** The captures [execute] cannot do without, on the run from [w]: the
    "before" stage returns, and so does the "error" stage from the state
    in which the guarded block raised, if it did. *)
Definition stages_return (env : Env) (a : BaseAction) (b : BrowserController)
    (has_store : bool) (context : ActionContext) (payload : gmap string PyVal)
    (w : World) : Prop :=
  exists before w1,
    before_stage env b has_store context (snd (time_time w)) = (Ret before, w1)
    /\ forall e w2,
         guarded env a b has_store context payload (clock w) before w1 = (Raise e, w2) ->
         exists shot w3, error_stage env b has_store context w2 = (Ret shot, w3).

(** The status changes among a list of writes. *)
Definition status_writes (l : list Write) : list (string * TaskStatus) :=
  omap (fun w => match w with
                 | SetStatus id st _ => Some (id, st)
                 | _ => None
                 end) l.

Definition is_artifact_write (w : Write) : Prop :=
  match w with NewArtifact _ _ _ => True | _ => False end.



(** [frames R m]: every run of [m] takes a state to an [R]-related one. *)
Definition frames {S A} (R : S -> S -> Prop) (m : M S A) : Prop :=
  forall s r s', m s = (r, s') -> R s s'.

(** Between two store states only artifact rows were added. *)
Definition only_artifacts (s s' : Store) : Prop :=
  agent_tasks s' = agent_tasks s
  /\ agent_runs s' = agent_runs s
  /\ exists l, st_log s' = st_log s ++ l /\ Forall is_artifact_write l.

(** What a run of the template may change of the world: the page, the
    clock and the artifact rows. *)
Definition template_frame (w w' : World) : Prop :=
  only_artifacts (store w) (store w')
  /\ ziniao w' = ziniao w /\ fs_tick w' = fs_tick w /\ next_oid w' = next_oid w.

(** Where [screenshot_evidence] saves the shot taken in page world [p]. *)
Definition shot_path (env : Env) (run stage : string) (p : Page) : string :=
  screenshot_dir +:+ "/" +:+ ((run +:+ "_" +:+ stage) +:+ "_" +:+
    strftime_now env (p_tick p) +:+ ".png").

(** The store after [save_artifact_record] has been answered. *)
Definition with_artifact (env : Env) (run : string) (type : ArtifactType)
    (path : string) (s : Store) : Store :=
  mkStore (agent_tasks s) (agent_runs s)
    (agent_artifacts s ++
       [mkArtifact (uuid4 env (st_tick s)) run type ("local://" +:+ path)])
    (S (st_tick s))
    (st_log s ++ [NewArtifact run type ("local://" +:+ path)]).

(** The claim about evidence: one "before" row, an "after" row exactly
    when the inner action returned [ok=True], an "error" row exactly when
    it raised, and nothing beyond "before" on a handled failure. *)
Definition evidence_claim (inner : Res ActionResult) (kinds : list ArtifactType) : Prop :=
  length (List.filter (fun k => bool_decide (k = BEFORE)) kinds) = 1%nat
  /\ (AFTER ∈ kinds <-> exists res, inner = Ret res /\ ok res = true)
  /\ (ERROR ∈ kinds <-> exists e, inner = Raise e)
  /\ (forall res, inner = Ret res -> ok res = false -> kinds = [BEFORE]).

(** Environments with a failing screenshot: every one, and only the
    second request sent. *)
Definition capture_failure : Exn := mkExn WebDriverException "unable to capture screen".

Definition no_screenshots : Env :=
  override_driver_fault
    (fun _ r => match r with SaveScreenshot _ => Some capture_failure | _ => None end)
    calm.

Definition second_request_fails : Env :=
  override_driver_fault
    (fun n _ => if Nat.eqb n 1 then Some capture_failure else None) calm.

Definition no_artifact_rows : Env :=
  override_store_fault
    (fun _ op => match op with
                 | InsertArtifact => Some (mkExn APIError "connection refused")
                 | _ => None
                 end) calm.

Definition dry_context : ActionContext := mkContext "t1" "r1" "shop_01" "id" true ∅.

Definition title_payload : gmap string PyVal :=
  {[ "product_id" := VStr "42"; "new_title" := VStr "Sepatu" ]}.

(** A context that is not a dry run. *)
Definition live_context : ActionContext := mkContext "t1" "r1" "shop_01" "id" false ∅.

(** Every live handle of the pool belongs to a tenant with a non-empty
    provisioning id. *)
Definition pool_wf (w : Worker) : Prop :=
  forall shop c,
    active_browsers w !! shop = Some c ->
    exists bid, shop_browser_map w !! shop = Some bid /\ str_truthy bid = true.

(** A worker that knows two tenants, its system state before any task,
    and the state after the first acquire for shop_01. *)
Definition two_shops : Worker :=
  mkWorker "worker-01" {[ "shop_01" := "12345"; "shop_02" := "67890" ]} ∅.

Definition fresh_sys : Sys := mkSys two_shops empty_world.

Definition after_first_acquire : Sys :=
  snd (get_browser_for_shop calm "shop_01" fresh_sys).

(** [s] with its store replaced. *)
Definition put_store (st : Store) (s : Sys) : Sys :=
  mkSys (self s)
    (mkWorld st (page (world s)) (ziniao (world s)) (clock (world s))
       (fs_tick (world s)) (next_oid (world s))).


(** The status histories one worker cycle can leave for a task. *)
Definition cycle_histories (id : string) : list (list (string * TaskStatus)) :=
  [ [];
    [(id, RUNNING)];
    [(id, RUNNING); (id, SUCCESS)];
    [(id, RUNNING); (id, FAILED)] ].

(** The writes of one worker cycle that ran to its end, for task [id] and
    worker [wid]: the task is marked running, a run row is created,
    artifact rows may follow, and then the run is completed and the task
    closed, as a success, as a handled failure [res], or as a raised
    exception [e]. *)
Definition completed_cycle (id wid : string) (r : Res bool) (l : list Write) : Prop :=
  exists run arts,
    Forall is_artifact_write arts
    /\ ((exists res,
           ok res = true /\ r = Ret true
           /\ l = [SetStatus id RUNNING None; NewRun run id wid] ++ arts ++
                  [EndRun run (ResultOf res) None; SetStatus id SUCCESS None])
        \/ (exists res,
              ok res = false /\ r = Ret false
              /\ l = [SetStatus id RUNNING None; NewRun run id wid] ++ arts ++
                     [EndRun run (ResultOf res) (error_message res);
                      SetStatus id FAILED
                        (Some (fmt_opt (error_code res) +:+ ": " +:+
                               fmt_opt (error_message res)))])
        \/ (exists e,
              r = Ret false
              /\ l = [SetStatus id RUNNING None; NewRun run id wid] ++ arts ++
                     [EndRun run EmptyResult (Some (exn_str e));
                      SetStatus id FAILED (Some (exn_str e))])).

(** The persisted status of every task row, and what a list of status
    changes makes of it. *)
Definition board (st : Store) : list (string * TaskStatus) :=
  map (fun t => (t_id t, t_status t)) (agent_tasks st).

Definition restatus (w : string * TaskStatus) (row : string * TaskStatus)
  : string * TaskStatus :=
  if String.eqb (fst row) (fst w) then (fst row, snd w) else row.

Definition replay (ws : list (string * TaskStatus)) (rows : list (string * TaskStatus))
  : list (string * TaskStatus) :=
  foldl (fun rows w => map (restatus w) rows) rows ws.

(** Between [s] and [s'] the store applied exactly the writes [l], and
    the persisted statuses changed as the status changes among [l] say. *)
Definition logs (l : list Write) (s s' : Sys) : Prop :=
  st_log (store (world s')) = st_log (store (world s)) ++ l
  /\ board (store (world s')) = replay (status_writes l) (board (store (world s))).

(** The store after a request has been applied. *)
Definition committed (write : nat -> Store -> Store) (logged : nat -> list Write)
    (s : Store) : Store :=
  let s' := write (st_tick s) s in
  mkStore (agent_tasks s') (agent_runs s') (agent_artifacts s') (S (st_tick s))
    (st_log s ++ logged (st_tick s)).

(** The ways provisioning a session for a tenant without a live handle
    comes to nothing: no entry in the tenant table (or an empty id), a
    start call that reports failure, or a controller that cannot attach. *)
Definition provisioning_fails (env : Env) (shop : string) (s : Sys) : Prop :=
  match shop_browser_map (self s) !! shop with
  | None => True
  | Some bid =>
      str_truthy bid = false
      \/ exists r z,
           start_browser env bid headless None (ziniao (world s)) = (Ret r, z)
           /\ (success r = false
               \/ ((exists v, major_version (sb_core_version r) tt = (Ret v, tt))
                   /\ makedirs_fault env (fs_tick (world s)) = None
                   /\ chrome_attach env (p_tick (page (world s))) = false))
  end.

(** [str(e)] of the exception the worker raises when no session came. *)
Definition no_browser_message (shop : string) : string :=
  "无法获取店铺 " +:+ shop +:+ " 的浏览器".

(** A queued task of a tenant the worker has no provisioning id for. *)
Definition stray_task : Task :=
  mkTask "t9" "shop_99" "update_title" title_payload QUEUED 5 false 100 100 None.

(** Tasks of shop_01 for the examples, and a system state whose task
    table holds them. *)
Definition dry_task : Task :=
  mkTask "t1" "shop_01" "update_title" title_payload QUEUED 5 true 100 100 None.

Definition short_task : Task :=
  mkTask "t2" "shop_01" "update_title" {[ "product_id" := VStr "42" ]} QUEUED 5 false
    200 200 None.

Definition unknown_task : Task :=
  mkTask "t3" "shop_01" "delete_shop" ∅ QUEUED 5 false 300 300 None.

Definition busy_sys : Sys :=
  mkSys two_shops
    (mkWorld (mkStore [dry_task; short_task; unknown_task; stray_task] [] [] O [])
       empty_page (mkProvider O []) O O O).

(** A store that refuses every update of a run row. *)
Definition runs_locked : Env :=
  override_store_fault
    (fun _ op => match op with
                 | UpdateRun => Some (mkExn APIError "connection refused")
                 | _ => None
                 end) calm.

(** What one cycle leaves behind: the returned flag, the status changes,
    the kinds of artifact, and the persisted statuses. *)
Definition cycle_summary (env : Env) (task : Task) (s : Sys)
  : option bool * list (string * TaskStatus) * list ArtifactType
    * list (string * TaskStatus) :=
  let out := execute_task env task s in
  (match fst out with Ret flag => Some flag | Raise _ => None end,
   status_writes (new_writes (store (world s)) (store (world (snd out)))),
   map a_type (new_artifacts (store (world s)) (store (world (snd out)))),
   board (store (world (snd out)))).

(** A step that keeps the pool well formed. *)
Definition keeps_pool (s s' : Sys) : Prop := pool_wf (self s) -> pool_wf (self s').

(** * Further code of the repository *)

(** The four prefixes of the locator format ([actions/locators.py]). *)
Definition locator_prefixes : list string := ["css:"; "xpath:"; "id:"; "name:"].

(** The two top-level entries of a site table that are plain texts. *)
Definition url_entries : list string := ["base_url"; "login_url"].

(** The six site tables. *)
Definition site_tables : list (gmap string PyVal) :=
  [SHOPEE_ID; SHOPEE_MY; SHOPEE_TH; SHOPEE_VN; SHOPEE_PH; SHOPEE_SG].

(** Between two page worlds only requests satisfying [Q] were sent. *)
Definition sends (Q : nat * Request -> Prop) (p p' : Page) : Prop :=
  exists l, p_trace p' = p_trace p ++ l /\ Forall Q l.

(** [yields P m]: whatever [m] returns satisfies [P]. *)
Definition yields {S A} (P : A -> Prop) (m : M S A) : Prop :=
  forall s a s', m s = (Ret a, s') -> P a.

(** The error codes the three registered actions return, and the one the
    template adds. *)
Definition action_codes : list string :=
  ["VALIDATION_ERROR"; "NAVIGATION_ERROR"; "SEARCH_ERROR"; "PRODUCT_NOT_FOUND";
   "UPDATE_ERROR"; "SAVE_ERROR"; "CONFIG_ERROR"; "DATA_EXTRACTION_ERROR"; "NO_PRODUCTS"].

(** A well-formed outcome of the action called [name]: a success carries
    data and no error, a failure carries one of [codes], a message and no
    data. *)
Definition well_formed (codes : list string) (name : string) (r : ActionResult) : Prop :=
  action r = name
  /\ if ok r
     then error_code r = None /\ error_message r = None /\ is_Some (data r)
     else (exists code, error_code r = Some code /\ code ∈ codes)
          /\ is_Some (error_message r) /\ data r = None.

(** A relation on the page world, seen from a state that holds one. *)
Definition on_fst {T U} (R : T -> T -> Prop) (s s' : T * U) : Prop := R (fst s) (fst s').

(** A request sent through controller [b]. *)
Definition own (b : BrowserController) (c : nat * Request) : Prop := c.1 = oid b.

(** What [fetch_product_snapshot] may send through [b]: the page load,
    the search typing when [typing] is set, and reads. *)
Definition snapshot_request (b : BrowserController) (typing : bool) (c : nat * Request)
  : Prop :=
  c.1 = oid b
  /\ match c.2 with
     | Get _ | FindElements _ | FindWithin _ _ | GetText _ | GetAttribute _ _ => True
     | WaitPresence _ _ | Clear _ | SendKeys _ _ => typing = true
     | _ => False
     end.

(** What [fetch_ads_summary] may send through [b]: the page load, waits,
    clicks on located elements, and reads. *)
Definition ads_request (b : BrowserController) (c : nat * Request) : Prop :=
  c.1 = oid b
  /\ match c.2 with
     | Get _ | WaitPresence _ _ | WaitClickable _ _ | GetText _ | PageSource => True
     | Click (Found _) => True
     | _ => False
     end.

(** The page worlds of two worlds are related by [R]. *)
Definition on_page_of (R : Page -> Page -> Prop) (w w' : World) : Prop :=
  R (page w) (page w').

(** What an inner action returns: a well-formed outcome that carries no
    evidence reference and no timing yet. *)
Definition inner_outcome (codes : list string) (name : string) (r : ActionResult) : Prop :=
  well_formed codes name r /\ evidence r = None /\ timing_ms r = None.

(** The evidence reference of an outcome of the template: both shots on a
    success, the error shot on a converted exception, each only when a
    store is attached, and none on a handled failure. *)
Definition evidence_shape (has_store : bool) (r : ActionResult) : Prop :=
  if ok r then
    if has_store
    then exists before after,
           evidence r = Some {[ "before_png" := VStr before; "after_png" := VStr after ]}
    else evidence r = None
  else if bool_decide (error_code r = Some "EXCEPTION") then
    if has_store
    then exists shot, evidence r = Some {[ "error_png" := VStr shot ]}
    else evidence r = None
  else evidence r = None.

(** Controllers are told apart by their object id: every live handle of
    the pool was created before the next id to hand out, and no two
    tenants share a handle. *)
Definition pool_fresh (s : Sys) : Prop :=
  (forall shop c,
      active_browsers (self s) !! shop = Some c -> (oid c < next_oid (world s))%nat)
  /\ (forall shop1 shop2 c1 c2,
         active_browsers (self s) !! shop1 = Some c1 ->
         active_browsers (self s) !! shop2 = Some c2 ->
         oid c1 = oid c2 -> shop1 = shop2).

(** A request sent through the live handle of a tenant other than [shop]. *)
Definition foreign (shop : string) (s : Sys) (c : nat * Request) : Prop :=
  exists other ctrl,
    other <> shop /\ active_browsers (self s) !! other = Some ctrl /\ c.1 = oid ctrl.

(** What an acquire may do to the system: nothing to the pool (a failed
    provisioning may still have created a controller and tried to attach
    it), or register a fresh controller for [shop]. *)
Definition acquired (shop : string) (r : Res (option BrowserController)) (s s1 : Sys)
  : Prop :=
  (self s1 = self s
   /\ (next_oid (world s) <= next_oid (world s1))%nat
   /\ (forall c, r = Ret (Some c) -> active_browsers (self s) !! shop = Some c)
   /\ sends (fun c => c.1 = next_oid (world s)) (page (world s)) (page (world s1)))
  \/ (exists c,
        r = Ret (Some c)
        /\ active_browsers (self s) !! shop = None
        /\ oid c = next_oid (world s)
        /\ next_oid (world s1) = S (next_oid (world s))
        /\ self s1 = mkWorker (worker_id (self s)) (shop_browser_map (self s))
                       (<[ shop := c ]> (active_browsers (self s)))
        /\ sends (own c) (page (world s)) (page (world s1))).

(** A step that leaves the worker and the controller ids alone and sends
    only requests satisfying [Q]. *)
Definition acts (Q : nat * Request -> Prop) (s s' : Sys) : Prop :=
  self s' = self s
  /\ next_oid (world s') = next_oid (world s)
  /\ sends Q (page (world s)) (page (world s')).

(** A step that keeps tenants apart while working for [shop]: the pool
    stays well numbered, no live handle is dropped or replaced, and no
    request goes through another tenant's handle. *)
Definition isolated (shop : string) (s s' : Sys) : Prop :=
  pool_fresh s ->
  pool_fresh s'
  /\ active_browsers (self s) ⊆ active_browsers (self s')
  /\ sends (fun c => ~ foreign shop s' c) (page (world s)) (page (world s')).

(** ** The worker loop ([Worker.run_loop]) *)

(** One turn of the [while] of [run_loop]: a cycle, with every exception
    caught and reported. *)
Definition loop_turn (env : Env) : M Sys unit :=
  try_except (_ <- run_once env ;; ret tt) (fun _ => ret tt).

(** The first [turns] turns of the loop. *)
Fixpoint loop_turns (env : Env) (turns : nat) : M Sys unit :=
  match turns with
  | O => ret tt
  | S n => _ <- loop_turn env ;; loop_turns env n
  end.

(** What defines a task and a run, as opposed to what records progress. *)
Definition task_def (t : Task)
  : string * string * string * gmap string PyVal * Z * bool * Z :=
  (t_id t, t_shop_id t, t_action t, t_payload t, t_priority t, t_dry_run t,
   t_created_at t).

Definition run_def (r : Run) : string * string * string * Z :=
  (r_id r, r_task_id r, r_worker_id r, r_start_at r).

(** The store only grows: no task is added, removed, reordered or
    redefined; runs are only added and never redefined; artifact rows
    and applied writes are only added. *)
Definition store_grows (s s' : Store) : Prop :=
  map task_def (agent_tasks s') = map task_def (agent_tasks s)
  /\ map run_def (agent_runs s) `prefix_of` map run_def (agent_runs s')
  /\ agent_artifacts s `prefix_of` agent_artifacts s'
  /\ st_log s `prefix_of` st_log s'.

Definition on_store_of (R : Store -> Store -> Prop) (w w' : World) : Prop :=
  R (store w) (store w').

Definition on_world_of (R : World -> World -> Prop) (s s' : Sys) : Prop :=
  R (world s) (world s').

(** [a] is [b] or an earlier status along queued, running, success or
    failed. *)
Definition status_le (a b : TaskStatus) : bool :=
  match a, b with
  | QUEUED, _ => true
  | RUNNING, QUEUED => false
  | RUNNING, _ => true
  | SUCCESS, SUCCESS | FAILED, FAILED => true
  | _, _ => false
  end.

(** Row by row the same tasks, each with its status unchanged or moved
    forward. *)
Definition advances (rows rows' : list (string * TaskStatus)) : Prop :=
  Forall2 (fun a b => a.1 = b.1 /\ status_le a.2 b.2 = true) rows rows'.

(** Task ids are a key of the task table. *)
Definition ids_unique (s : Sys) : Prop := NoDup (map fst (board (store (world s)))).

Definition moves_forward (s s' : Sys) : Prop :=
  ids_unique s -> advances (board (store (world s))) (board (store (world s'))).

(** A step of the worker that keeps its sessions: the pool stays well
    numbered and no live handle is dropped or replaced. *)
Definition keeps_sessions (s s' : Sys) : Prop :=
  pool_fresh s ->
  pool_fresh s' /\ active_browsers (self s) ⊆ active_browsers (self s').

(** A task of the second tenant. *)
Definition other_task : Task :=
  mkTask "t5" "shop_02" "fetch_ads_summary" ∅ QUEUED 5 false 500 500 None.

(** The worker after its first acquire for shop_01, facing the task table
    of [busy_sys]. *)
Definition serving_sys : Sys := put_store (store (world busy_sys)) after_first_acquire.

(** The store after a request that changed no table: only the request
    counter moved. *)
Definition asked (st : Store) : Store :=
  mkStore (agent_tasks st) (agent_runs st) (agent_artifacts st) (S (st_tick st))
    (st_log st).

(** A system whose only task is already finished. *)
Definition done_sys : Sys :=
  mkSys two_shops
    (mkWorld (mkStore [with_status SUCCESS 150 None dry_task] [] [] O [])
       empty_page (mkProvider O []) O O O).

(** What [start_browser] hands back, by the provider's reply: a success
    carries the port and no error; a failure carries no port and an
    error.  When the provider answered, the error is truthy: the reply's
    own [err] or [LastError] as it came, of whatever type, or else a text,
    the status code message or [str] of what [int] raised on the port.
    When the request raised, the error is [str] of that exception. *)
Definition start_result_shape (reply : ApiReply) (r : StartBrowserResult) : Prop :=
  if success r
  then (exists j, reply = ApiJson j /\ eq_zero (jget j "statusCode") = true)
       /\ is_Some (sb_debugging_port r) /\ sb_error r = VNone
  else sb_debugging_port r = None
       /\ match reply with
          | ApiJson j =>
              truthy (sb_error r) = true
              /\ (sb_error r = jget j "err"
                  \/ sb_error r = jget j "LastError"
                  \/ exists text, sb_error r = VStr text)
          | ApiRaises e => sb_error r = VStr (exn_str e)
          end.

(** A provider reply whose [err] is a number. *)
Definition numeric_error_reply : gmap string PyVal :=
  {[ "statusCode" := VInt 1; "err" := VInt 500 ]}.

(** The site codes whose table only holds a base URL. *)
Definition other_sites : list string := ["my"; "th"; "vn"; "ph"; "sg"].

(** A product entry of a snapshot: a dict with a non-empty name. *)
Definition named (v : PyVal) : Prop :=
  exists d, v = VDict d /\ truthy (default VNone (d !! "name")) = true.

(** A page with two product rows, every text "Sepatu". *)
Definition stocked : Env :=
  mkEnv (fun _ _ => None) (fun _ => "Sepatu") (fun _ => Some "42") (fun _ => 2%nat)
    (fun _ => true) (fun _ => "20240101_000000")
    (fun _ _ => None) (fun n => "uuid-" +:+ pretty n) (fun n => Z.of_nat n)
    (fun _ => ApiJson {[ "statusCode" := VInt 0; "debuggingPort" := VInt 9222 ]})
    (fun n0 n1 => Z.of_nat n1 - Z.of_nat n0) (fun _ => None) (fun _ => None) (fun _ => "?")
    (fun s => VStr s).

Definition one_row_payload : gmap string PyVal := {[ "limit" := VInt 1 ]}.

(** [returns m]: from every state [m] returns a value; it never raises. *)
Definition returns {S A} (m : M S A) : Prop :=
  forall s, exists a s', m s = (Ret a, s').

(** A table whose entry [k] can be walked into: absent, or a dict. *)
Definition walkable (table : gmap string PyVal) (k : string) : Prop :=
  match table !! k with
  | Some (VDict _) | None => True
  | Some _ => False
  end.

(** Values that can be the key of a dict. *)
Definition hashable (v : PyVal) : bool :=
  match v with
  | VList _ | VDict _ => false
  | _ => true
  end.

(** The date picker of the id site and the page of its ads centre. *)
Definition id_date_picker : Locator :=
  (CSS_SELECTOR, ".date-range-picker, [data-testid='date-picker']").
Definition id_ads_url : PyVal :=
  VStr "https://seller.shopee.co.id/portal/marketing/pas/assembly".

Definition list_range_payload : gmap string PyVal :=
  {[ "date_range" := VList [VStr "2024-01-01"; VStr "2024-01-31"] ]}.

(** ** [update_title] by the calls it makes

    [BrowserController.execute_script(self, script)] takes the script and
    nothing else.  [_update_title_field] calls it with the element as a
    further argument, so the call raises [TypeError] before the driver is
    asked anything.  The module spells out the title step and the inner
    logic of [UpdateTitleAction] once more, helper by helper, for the
    theorems about that call. *)

Module UpdateTitleAsCalled.
Section Methods.
Context (env : Env) (b : BrowserController) (locators : gmap string PyVal).

Definition _update_title_field (new_title : PyVal) : M Page bool :=
  title_input_loc <- loc locators ["product_edit"; "title_input"] ;;
  match title_input_loc with
  | None => ret false
  | Some input_loc =>
      element <- wait_for_element env b input_loc 10 ;;
      match element with
      | None => ret false
      | Some el =>
          _ <- scroll_to_element env b input_loc ;;
          _ <- execute_script_call env b "arguments[0].value = '';" [el] ;;
          _ <- request env b (SendKeys el (KeysOf new_title)) ;;
          _ <- execute_script_call env b
                 "arguments[0].dispatchEvent(new Event('input', { bubbles: true }));"
                 [el] ;;
          ret true
      end
  end.

Definition _do_action (context : ActionContext) (payload : gmap string PyVal)
  : M Page ActionResult :=
  let name := UpdateTitleAction.name in
  let validation_error := _validate_payload payload ["product_id"; "new_title"] in
  if opt_truthy validation_error then
    ret (mkResult false name None (Some "VALIDATION_ERROR") validation_error None None)
  else
    product_id <- subscript payload "product_id" ;;
    new_title <- subscript payload "new_title" ;;
    let product_name := default product_id (payload !! "product_name") in
    if dry_run context then
      ret (ok_result name
             {[ "product_id" := product_id;
                "new_title" := new_title;
                "dry_run" := VBool true;
                "message" := VStr "Dry run 模式，未实际执行" ]})
    else
      product_list_url <- cfg_get2 locators "product_list" "entry_url" ;;
      opened <- navigate env b product_list_url ;;
      if negb opened then ret (failed_result name "NAVIGATION_ERROR" "无法打开商品列表页")
      else
        searched <- UpdateTitleAction._search_product env b locators product_name ;;
        if negb searched then
          ret (failed_result name "SEARCH_ERROR" ("搜索商品失败: " +:+ fmt env product_name))
        else
          old_title <- UpdateTitleAction._click_edit_button env b locators ;;
          match old_title with
          | None =>
              ret (failed_result name "PRODUCT_NOT_FOUND"
                     ("未找到商品或无法点击编辑: " +:+ fmt env product_id))
          | Some before_title =>
              updated <- _update_title_field new_title ;;
              if negb updated then
                ret (failed_result name "UPDATE_ERROR" "无法修改标题字段")
              else
                save_result <- UpdateTitleAction._click_save env b locators ;;
                if negb (fst save_result) then
                  ret (failed_result name "SAVE_ERROR" (snd save_result))
                else
                  ret (ok_result name
                         {[ "product_id" := product_id;
                            "before_title" := VStr before_title;
                            "after_title" := new_title ]})
          end.

End Methods.

Definition cls (env : Env) : BaseAction :=
  mkAction UpdateTitleAction.name (fun b locators => _do_action env b locators).

End UpdateTitleAsCalled.

(** The three action classes of the registry, with their names. *)
Definition shipped_actions (env : Env) : list (string * BaseAction) :=
  [ ("fetch_ads_summary", FetchAdsSummaryAction.cls env);
    ("update_title", UpdateTitleAsCalled.cls env);
    ("fetch_product_snapshot", FetchProductSnapshotAction.cls env) ].

(** The codes a live [update_title] can end with. *)
Definition live_update_codes : list string :=
  ["VALIDATION_ERROR"; "NAVIGATION_ERROR"; "SEARCH_ERROR"; "PRODUCT_NOT_FOUND";
   "UPDATE_ERROR"].

(** The tasks that have a run row, in the order the runs were created. *)
Definition run_tasks (s : Sys) : list string :=
  map r_task_id (agent_runs (store (world s))).

(** No task has two runs, and a task that has a run is no longer queued. *)
Definition runs_once (s : Sys) : Prop :=
  NoDup (run_tasks s)
  /\ forall id, id ∈ run_tasks s -> (id, QUEUED) ∉ board (store (world s)).

Definition keeps_runs_once (s s' : Sys) : Prop := runs_once s -> runs_once s'.

(** A step that creates no run and changes statuses only by writes of a
    status other than queued. *)
Definition closes (s s' : Sys) : Prop :=
  run_tasks s' = run_tasks s
  /\ exists history,
       board (store (world s')) = replay history (board (store (world s)))
       /\ Forall (fun w => w.2 <> QUEUED) history.

(** What a cycle for task [id] does to runs and statuses: statuses change
    by writes of a status other than queued, and at most one run is
    created, for [id] and only once [id] has left the queue. *)
Definition cycles (id : string) (s s' : Sys) : Prop :=
  (exists history,
      board (store (world s')) = replay history (board (store (world s)))
      /\ Forall (fun w : string * TaskStatus => w.2 <> QUEUED) history)
  /\ (run_tasks s' = run_tasks s
      \/ (run_tasks s' = run_tasks s ++ [id]
          /\ (id, QUEUED) ∉ board (store (world s')))).

(** The title field of the id site, and the script [scroll_to_element]
    runs. *)
Definition id_title_input : Locator :=
  (CSS_SELECTOR, "input[name='name'], input[placeholder*='Nama produk'], textarea[name='name']").

Definition scroll_script : string :=
  "arguments[0].scrollIntoView({behavior: 'smooth', block: 'center'});".

(** The run row [create_run] inserts and [complete_run] then closes. *)
Definition closed_run (env : Env) (n : nat) (task worker : string) (result : RunResult)
    (error : option string) : Run :=
  mkRun (uuid4 env n) task worker (utcnow env n) (Some (utcnow env (S n))) (Some result)
    (if opt_truthy error then error else None).

(** The number of queued tasks. *)
Definition queued_row (row : string * TaskStatus) : bool := bool_decide (row.2 = QUEUED).

Definition pending (s : Sys) : nat :=
  length (List.filter queued_row (board (store (world s)))).

(** Row by row the same tasks; a status that changed was queued and is
    now success or failed. *)
Definition settles (rows rows' : list (string * TaskStatus)) : Prop :=
  Forall2 (fun a b => a.1 = b.1
                      /\ (b.2 = a.2
                          \/ (a.2 = QUEUED /\ (b.2 = SUCCESS \/ b.2 = FAILED))))
    rows rows'.

(** Row by row the same tasks, every queued one now success or failed and
    every other one as it was. *)
Definition drained (rows rows' : list (string * TaskStatus)) : Prop :=
  Forall2 (fun a b => a.1 = b.1
                      /\ if queued_row a then b.2 = SUCCESS \/ b.2 = FAILED
                         else b.2 = a.2)
    rows rows'.

(** No call the worker makes to the store in a cycle raises: its writes
    about tasks and runs are answered, and [get_next_task] returns, which
    takes an answered query and a payload column [json.loads] accepts. *)
Definition store_answers (env : Env) : Prop :=
  worker_store_ok env /\ forall n, store_fault env n SelectNext = None.

(** The status a closed cycle leaves. *)
Definition closed_status (closed : bool) : TaskStatus := if closed then SUCCESS else FAILED.

(** What the two status writes of a completed cycle make of a row. *)
Definition close_row (id : string) (final : TaskStatus) (row : string * TaskStatus)
  : string * TaskStatus :=
  restatus (id, final) (restatus (id, RUNNING) row).

(** [str(e)] of the [ValueError] of [get_action_class]. *)
Definition unknown_action_message (action_name : string) : string :=
  "未知的 Action: " +:+ action_name +:+
  "，可用: ['fetch_ads_summary', 'update_title', 'fetch_product_snapshot']".

(** Between two store states only artifact rows of run [run] were added,
    none of them a trace. *)
Definition records (run : string) (s s' : Store) : Prop :=
  agent_tasks s' = agent_tasks s
  /\ agent_runs s' = agent_runs s
  /\ exists l, agent_artifacts s' = agent_artifacts s ++ l
               /\ Forall (fun x => a_run_id x = run /\ a_type x <> TRACE) l.

(** A template run that cannot record anything leaves the store alone. *)
Definition store_kept (has_store : bool) (s s' : Store) : Prop :=
  if has_store then True else s' = s.
(** * Properties *)

(** ** Locator lookup *)

Lemma sites_lookup_unknown (site : string) :
  site ∉ known_sites -> sites !! site = None.
Proof.
  unfold known_sites, sites. intros Hnot.
  repeat (rewrite lookup_insert_ne; [| intros <-; apply Hnot; set_solver]).
  rewrite lookup_singleton_ne; [done | intros <-; apply Hnot; set_solver].
Qed.

Lemma registered_actions (env : Env) (name : string) (a : BaseAction) :
  ACTION_REGISTRY env !! name = Some a ->
  a = FetchAdsSummaryAction.cls env \/ a = UpdateTitleAction.cls env
  \/ a = FetchProductSnapshotAction.cls env.
Proof.
  unfold ACTION_REGISTRY. intros Hin.
  apply lookup_insert_Some in Hin as [[_ <-] | [_ Hin]]; [by left |].
  apply lookup_insert_Some in Hin as [[_ <-] | [_ Hin]]; [by right; left |].
  apply lookup_singleton_Some in Hin as [_ <-]. by right; right.
Qed.

(** No registered action reads [context.site]; the site only reaches it
    through the locator table the template loads. *)
Lemma registered_ignore_site (env : Env) (name : string) (a : BaseAction)
    (b : BrowserController) (locators : gmap string PyVal)
    (t r sh site1 site2 : string) (d : bool) (e : gmap string PyVal)
    (payload : gmap string PyVal) :
  ACTION_REGISTRY env !! name = Some a ->
  _do_action a b locators (mkContext t r sh site1 d e) payload
  = _do_action a b locators (mkContext t r sh site2 d e) payload.
Proof.
  intros Hin. by destruct (registered_actions env name a Hin) as [-> | [-> | ->]].
Qed.

(** C10.  [get_locators] is a total function, and for every site code
    outside id, my, th, vn, ph, sg it silently answers with the Indonesian
    table [SHOPEE_ID], whose entry URLs are the Indonesian ones; a
    registered action run through the template with such a site code does
    exactly what it does for site "id", and no configuration error comes
    from the lookup. *)
Theorem get_locators_falls_back_to_id (code : string) :
  code ∉ known_sites ->
  get_locators code = SHOPEE_ID
  /\ cfg_get2 (get_locators code) "product_list" "entry_url" tt
     = (Ret (VStr "https://seller.shopee.co.id/portal/product/list/all"), tt)
  /\ forall (env : Env) (name : string) (a : BaseAction) (b : BrowserController)
       (has_store : bool) (t r sh : string) (d : bool) (e payload : gmap string PyVal),
       ACTION_REGISTRY env !! name = Some a ->
       execute env a b has_store (mkContext t r sh code d e) payload
       = execute env a b has_store (mkContext t r sh "id" d e) payload.
Proof.
  intros Hnot.
  assert (Hfall : get_locators code = SHOPEE_ID).
  { unfold get_locators. by rewrite (sites_lookup_unknown code Hnot). }
  split; [exact Hfall |]. split.
  - rewrite Hfall. vm_compute. reflexivity.
  - intros env name a b has_store t r sh d e payload Hin.
    unfold execute. cbn [site run_id]. rewrite Hfall.
    rewrite (registered_ignore_site env name a b _ t r sh code "id" d e payload Hin).
    reflexivity.
Qed.

Lemma get_locators_falls_back_to_id_witness :
  get_locators "br" = SHOPEE_ID
  /\ cfg_get2 (get_locators "br") "product_list" "entry_url" tt
     = (Ret (VStr "https://seller.shopee.co.id/portal/product/list/all"), tt)
  /\ forall (env : Env) (name : string) (a : BaseAction) (b : BrowserController)
       (has_store : bool) (t r sh : string) (d : bool) (e payload : gmap string PyVal),
       ACTION_REGISTRY env !! name = Some a ->
       execute env a b has_store (mkContext t r sh "br" d e) payload
       = execute env a b has_store (mkContext t r sh "id" d e) payload.
Proof.
  apply (get_locators_falls_back_to_id "br").
  unfold known_sites. intros Hin.
  repeat (apply elem_of_cons in Hin; destruct Hin as [Hin | Hin]; [discriminate Hin |]).
  by apply elem_of_nil in Hin.
Defined.

(** ** Payload validation in [update_title] *)

Lemma validate_names_a_missing_key (payload : gmap string PyVal) :
  payload !! "new_title" = None \/ payload !! "product_id" = None ->
  exists key,
    key ∈ required_keys /\ payload !! key = None
    /\ _validate_payload payload required_keys = Some ("缺少必需字段: " +:+ key).
Proof.
  intros Hmiss. unfold required_keys. simpl.
  destruct (payload !! "product_id") eqn:Hid.
  - destruct (payload !! "new_title") eqn:Hnew.
    + destruct Hmiss; discriminate.
    + exists "new_title". split; [by repeat constructor |]. by split.
  - exists "product_id". split; [by repeat constructor |]. by split.
Qed.

Lemma validate_present (payload : gmap string PyVal) (pid title : PyVal) :
  payload !! "product_id" = Some pid -> payload !! "new_title" = Some title ->
  _validate_payload payload required_keys = None.
Proof. intros Hid Hnew. unfold required_keys. simpl. by rewrite Hid, Hnew. Qed.

Lemma update_title_rejects (env : Env) (b : BrowserController)
    (locators : gmap string PyVal) (context : ActionContext)
    (payload : gmap string PyVal) (key : string) (p : Page) :
  _validate_payload payload required_keys = Some ("缺少必需字段: " +:+ key) ->
  UpdateTitleAction._do_action env b locators context payload p
  = (Ret (mkResult false "update_title" None (Some "VALIDATION_ERROR")
            (Some ("缺少必需字段: " +:+ key)) None None), p).
Proof.
  intros Hval. unfold UpdateTitleAction._do_action. fold required_keys. by rewrite Hval.
Qed.

(** Run through the template, in any environment, a rejected payload
    leaves the page sessions with evidence screenshots and nothing else. *)
Lemma rejected_payload_only_screenshots (env : Env) (b : BrowserController)
    (has_store : bool) (context : ActionContext) (payload : gmap string PyVal)
    (key : string) (w : World) :
  _validate_payload payload required_keys = Some ("缺少必需字段: " +:+ key) ->
  Forall (fun c => exists path, c.2 = SaveScreenshot path)
    (new_requests (page w)
       (page (snd (execute env (UpdateTitleAction.cls env) b has_store context payload w)))).
Proof.
  intros Hval. unfold execute, UpdateTitleAction.cls. cbn [_do_action action_name].
  unfold capture, screenshot_evidence, screenshot, request, save_artifact_record,
    transact, on_page, on_store, zoom, bind, try_except, time_time, ret.
  cbn [page store ziniao clock fs_tick next_oid fst snd].
  destruct has_store; cbn [andb];
    repeat (first [ rewrite (update_title_rejects env b _ _ payload key _ Hval)
                  | case_match ];
            simplify_eq;
            cbn [page store ziniao clock fs_tick next_oid fst snd p_trace p_tick ok andb]
              in *).
  all: unfold new_requests; cbn [p_trace page snd];
    rewrite ?drop_all, <- ?app_assoc, ?drop_app_length; repeat constructor; by eexists.
Qed.

(** C7.  When [new_title] or [product_id] is absent from the payload, the
    inner logic of [update_title] returns [ok=False] with error code
    [VALIDATION_ERROR] and a message that names a missing required key,
    and the page world is left as it was: the action has sent no request
    through the controller.  Seen through the template, in whatever
    environment, the only requests of the whole run are the template's own
    evidence screenshots: nothing is navigated, located, read, typed or
    clicked. *)
Theorem update_title_missing_key_is_validation_error
    (env : Env) (b : BrowserController) (locators : gmap string PyVal)
    (context : ActionContext) (payload : gmap string PyVal) (p : Page) :
  payload !! "new_title" = None \/ payload !! "product_id" = None ->
  exists key,
    key ∈ required_keys /\ payload !! key = None
    /\ UpdateTitleAction._do_action env b locators context payload p
       = (Ret (mkResult false "update_title" None (Some "VALIDATION_ERROR")
                 (Some ("缺少必需字段: " +:+ key)) None None), p)
    /\ forall has_store w,
         Forall (fun c => exists path, c.2 = SaveScreenshot path)
           (new_requests (page w)
              (page (snd (execute env (UpdateTitleAction.cls env) b has_store context
                            payload w)))).
Proof.
  intros Hmiss.
  destruct (validate_names_a_missing_key payload Hmiss) as (key & Hin & Hnone & Hval).
  exists key. split; [exact Hin |]. split; [exact Hnone |]. split.
  - by apply update_title_rejects.
  - intros has_store w. by eapply rejected_payload_only_screenshots.
Qed.

Lemma update_title_missing_key_is_validation_error_witness :
  exists key,
    key ∈ required_keys
    /\ ({[ "product_id" := VStr "42" ]} : gmap string PyVal) !! key = None
    /\ UpdateTitleAction._do_action calm chrome SHOPEE_ID live_context
         {[ "product_id" := VStr "42" ]} empty_page
       = (Ret (mkResult false "update_title" None (Some "VALIDATION_ERROR")
                 (Some ("缺少必需字段: " +:+ key)) None None), empty_page)
    /\ forall has_store w,
         Forall (fun c => exists path, c.2 = SaveScreenshot path)
           (new_requests (page w)
              (page (snd (execute calm (UpdateTitleAction.cls calm) chrome has_store
                            live_context {[ "product_id" := VStr "42" ]} w)))).
Proof.
  apply (update_title_missing_key_is_validation_error calm chrome SHOPEE_ID live_context
           {[ "product_id" := VStr "42" ]} empty_page).
  left. vm_compute. reflexivity.
Defined.

(** C9.  Validation comes before the dry-run branch: with [dry_run=True]
    and a payload that lacks [product_id] or [new_title], the outcome of
    [update_title] is still [ok=False] with [VALIDATION_ERROR] and carries
    no data, hence no [dry_run] marker. *)
Theorem update_title_validates_before_dry_run
    (env : Env) (b : BrowserController) (locators : gmap string PyVal)
    (context : ActionContext) (payload : gmap string PyVal) (p : Page) :
  dry_run context = true ->
  payload !! "product_id" = None \/ payload !! "new_title" = None ->
  exists res,
    UpdateTitleAction._do_action env b locators context payload p = (Ret res, p)
    /\ ok res = false
    /\ error_code res = Some "VALIDATION_ERROR"
    /\ data res = None.
Proof.
  intros _ Hmiss.
  assert (Hmiss' : payload !! "new_title" = None \/ payload !! "product_id" = None)
    by tauto.
  destruct (validate_names_a_missing_key payload Hmiss') as (key & _ & _ & Hval).
  eexists. split.
  - unfold UpdateTitleAction._do_action. fold required_keys. rewrite Hval. reflexivity.
  - done.
Qed.

Lemma update_title_validates_before_dry_run_witness :
  exists res,
    UpdateTitleAction._do_action calm chrome SHOPEE_ID
      (mkContext "t1" "r1" "shop_01" "id" true ∅)
      {[ "new_title" := VStr "Sepatu" ]} empty_page = (Ret res, empty_page)
    /\ ok res = false
    /\ error_code res = Some "VALIDATION_ERROR"
    /\ data res = None.
Proof.
  apply (update_title_validates_before_dry_run calm chrome SHOPEE_ID
           (mkContext "t1" "r1" "shop_01" "id" true ∅)
           {[ "new_title" := VStr "Sepatu" ]} empty_page).
  - reflexivity.
  - left. vm_compute. reflexivity.
Defined.

(** ** The dry-run flag *)

Lemma new_requests_same (p : Page) : new_requests p p = [].
Proof. unfold new_requests. by rewrite drop_all. Qed.

(** C4, as stated, fails: [fetch_product_snapshot] is registered, and run
    with [dry_run=True] on the payload [{"keyword": "test", "limit": 5}]
    it clears and fills the search box and ends in [NO_PRODUCTS]. *)
Lemma dry_run_not_honoured_by_fetch_product_snapshot :
  exists a,
    ACTION_REGISTRY calm !! "fetch_product_snapshot" = Some a
    /\ ~ dry_run_contract
         (_do_action a chrome (get_locators "id")
            (mkContext "t1" "r1" "shop_01" "id" true ∅)
            {[ "keyword" := VStr "test"; "limit" := VInt 5 ]} empty_page)
         empty_page.
Proof.
  eexists. split; [vm_compute; reflexivity |].
  intros (res & Hret & Hok & _).
  vm_compute in Hret. injection Hret as <-. discriminate Hok.
Qed.

(** C4, amended.  [update_title], given a payload that holds both required
    keys, honours the flag: with [dry_run=True] it returns a successful
    outcome whose data carries [dry_run = True] and sends no request at
    all.  The two fetch actions never read the flag: their inner logic is
    the same function of the payload for every context. *)
Theorem update_title_honours_dry_run
    (env : Env) (b : BrowserController) (locators : gmap string PyVal)
    (context : ActionContext) (payload : gmap string PyVal) (p : Page)
    (product : PyVal) (title : PyVal) :
  dry_run context = true ->
  payload !! "product_id" = Some product ->
  payload !! "new_title" = Some title ->
  UpdateTitleAction._do_action env b locators context payload p
    = (Ret (ok_result "update_title"
              {[ "product_id" := product; "new_title" := title;
                 "dry_run" := VBool true;
                 "message" := VStr "Dry run 模式，未实际执行" ]}), p)
  /\ dry_run_contract (UpdateTitleAction._do_action env b locators context payload p) p
  /\ (forall c1 c2 payload',
        FetchProductSnapshotAction._do_action env b locators c1 payload'
        = FetchProductSnapshotAction._do_action env b locators c2 payload')
  /\ (forall c1 c2 payload',
        FetchAdsSummaryAction._do_action env b locators c1 payload'
        = FetchAdsSummaryAction._do_action env b locators c2 payload').
Proof.
  intros Hdry Hid Hnew.
  assert (Hrun : UpdateTitleAction._do_action env b locators context payload p
            = (Ret (ok_result "update_title"
                      {[ "product_id" := product; "new_title" := title;
                         "dry_run" := VBool true;
                         "message" := VStr "Dry run 模式，未实际执行" ]}), p)).
  { unfold UpdateTitleAction._do_action. fold required_keys.
    rewrite (validate_present payload product title Hid Hnew). simpl.
    unfold bind, subscript. rewrite Hid, Hnew. simpl. by rewrite Hdry. }
  split; [exact Hrun |]. split; [| split; reflexivity].
  rewrite Hrun. eexists. split; [reflexivity |]. split; [reflexivity |]. split.
  - simpl. rewrite lookup_insert_ne by done. rewrite lookup_insert_ne by done.
    by rewrite lookup_insert_eq.
  - simpl. rewrite new_requests_same. constructor.
Qed.

Lemma update_title_honours_dry_run_witness :
  dry_run_contract
    (UpdateTitleAction._do_action calm chrome SHOPEE_ID
       (mkContext "t1" "r1" "shop_01" "id" true ∅)
       {[ "product_id" := VStr "42"; "new_title" := VStr "Sepatu" ]} empty_page)
    empty_page.
Proof.
  apply (update_title_honours_dry_run calm chrome SHOPEE_ID
           (mkContext "t1" "r1" "shop_01" "id" true ∅)
           {[ "product_id" := VStr "42"; "new_title" := VStr "Sepatu" ]} empty_page
           (VStr "42") (VStr "Sepatu")).
  - reflexivity.
  - vm_compute. reflexivity.
  - vm_compute. reflexivity.
Defined.

(** ** Task selection order *)

Lemma precedes_total (a b : Task) : precedes a b = false -> precedes b a = true.
Proof. unfold precedes. intros H. lia. Qed.

Lemma precedes_trans (a b c : Task) :
  precedes a b = true -> precedes b c = true -> precedes a c = true.
Proof. unfold precedes. intros H1 H2. lia. Qed.

Lemma elem_of_insert_row (a x : Task) (l : list Task) :
  x ∈ insert_row a l <-> x = a \/ x ∈ l.
Proof.
  induction l as [| b r IH]; simpl.
  - rewrite list_elem_of_singleton, elem_of_nil. tauto.
  - destruct (precedes a b); [apply elem_of_cons |].
    rewrite !elem_of_cons, IH. tauto.
Qed.

Lemma elem_of_order_rows (x : Task) (l : list Task) : x ∈ order_rows l <-> x ∈ l.
Proof.
  induction l as [| a r IH]; simpl; [done |].
  rewrite elem_of_insert_row, elem_of_cons, IH. tauto.
Qed.

Lemma precedes_refl (a : Task) : precedes a a = true.
Proof. unfold precedes. lia. Qed.

Lemma insert_row_leads (a : Task) (l : list Task) : leads l -> leads (insert_row a l).
Proof.
  destruct l as [| b r]; simpl.
  - intros _ t' Hin. apply list_elem_of_singleton in Hin as ->. apply precedes_refl.
  - intros Hb. destruct (precedes a b) eqn:Hab; simpl.
    + intros t' Hin. apply elem_of_cons in Hin as [-> | Hin]; [apply precedes_refl |].
      apply (precedes_trans a b t' Hab). by apply Hb.
    + intros t' Hin. apply elem_of_cons in Hin as [-> | Hin]; [apply precedes_refl |].
      apply elem_of_insert_row in Hin as [-> | Hin].
      * by apply precedes_total.
      * apply Hb. by right.
Qed.

Lemma order_rows_leads (l : list Task) : leads (order_rows l).
Proof.
  induction l as [| a r IH]; simpl; [done |]. by apply insert_row_leads.
Qed.

Lemma select_next_head (rows : list Task) :
  match head (select_next rows) with
  | None => forall t, t ∈ rows -> t_status t <> QUEUED
  | Some t =>
      t ∈ rows /\ t_status t = QUEUED
      /\ forall t', t' ∈ rows -> t_status t' = QUEUED -> precedes t t' = true
  end.
Proof.
  unfold select_next.
  pose proof (order_rows_leads (List.filter is_queued rows)) as Hlead.
  pose proof (elem_of_order_rows) as Hmem.
  destruct (order_rows (List.filter is_queued rows)) as [| t rest] eqn:Hsorted; simpl.
  - intros t Hin Hq.
    assert (Hf : t ∈ order_rows (List.filter is_queued rows)).
    { apply Hmem, list_elem_of_In, filter_In. split; [by apply list_elem_of_In |].
      unfold is_queued. by apply bool_decide_eq_true. }
    rewrite Hsorted in Hf. by apply elem_of_nil in Hf.
  - assert (Ht : t ∈ List.filter is_queued rows).
    { apply Hmem. rewrite Hsorted. by left. }
    apply list_elem_of_In, filter_In in Ht as [Hin Hq].
    split; [by apply list_elem_of_In |]. split.
    { unfold is_queued in Hq. by apply bool_decide_eq_true in Hq. }
    intros t' Hin' Hq'. apply Hlead. rewrite <- Hsorted. apply Hmem.
    apply list_elem_of_In, filter_In. split; [by apply list_elem_of_In |].
    unfold is_queued. by apply bool_decide_eq_true.
Qed.

(** C6.  Whenever the store answers the query, [get_next_task] leaves the
    table untouched and returns a queued task of the highest priority,
    the earliest created among those of that priority; it returns [None]
    exactly when no task is queued.  On the three tasks t1, t3 (priority
    5) and t2 (priority 1) created in the order t1, t2, t3, claiming
    repeatedly yields t1, t3, t2 and then nothing. *)
Theorem get_next_task_order (env : Env) (s : Store) :
  store_fault env (st_tick s) SelectNext = None ->
  (exists r s',
     get_next_task env s = (Ret r, s')
     /\ agent_tasks s' = agent_tasks s
     /\ match r with
        | None => forall t, t ∈ agent_tasks s -> t_status t <> QUEUED
        | Some t =>
            t ∈ agent_tasks s /\ t_status t = QUEUED
            /\ forall t', t' ∈ agent_tasks s -> t_status t' = QUEUED ->
                 t_priority t' < t_priority t
                 \/ (t_priority t' = t_priority t /\ t_created_at t <= t_created_at t')
        end)
  /\ fst ((a <- claim_next calm ;; b <- claim_next calm ;;
           c <- claim_next calm ;; d <- claim_next calm ;;
           ret [a; b; c; d]) three_tasks)
     = Ret [Some "t1"; Some "t3"; Some "t2"; None].
Proof.
  intros Hup. split; [| vm_compute; reflexivity].
  unfold get_next_task, transact. rewrite Hup. eexists _, _.
  split; [reflexivity |]. split; [reflexivity |].
  pose proof (select_next_head (agent_tasks s)) as Hhead.
  destruct (head (select_next (agent_tasks s))) as [t |]; [| exact Hhead].
  destruct Hhead as (Hin & Hq & Hbest). split; [exact Hin |]. split; [exact Hq |].
  intros t' Hin' Hq'. specialize (Hbest t' Hin' Hq'). unfold precedes in Hbest. lia.
Qed.

Lemma get_next_task_order_witness :
  (exists r s',
     get_next_task calm three_tasks = (Ret r, s')
     /\ agent_tasks s' = agent_tasks three_tasks
     /\ match r with
        | None => forall t, t ∈ agent_tasks three_tasks -> t_status t <> QUEUED
        | Some t =>
            t ∈ agent_tasks three_tasks /\ t_status t = QUEUED
            /\ forall t', t' ∈ agent_tasks three_tasks -> t_status t' = QUEUED ->
                 t_priority t' < t_priority t
                 \/ (t_priority t' = t_priority t /\ t_created_at t <= t_created_at t')
        end)
  /\ fst ((a <- claim_next calm ;; b <- claim_next calm ;;
           c <- claim_next calm ;; d <- claim_next calm ;;
           ret [a; b; c; d]) three_tasks)
     = Ret [Some "t1"; Some "t3"; Some "t2"; None].
Proof.
  apply (get_next_task_order calm three_tasks). reflexivity.
Defined.

(** ** Frame rules for the monad *)

Section Frames.
Context {S : Type} (R : S -> S -> Prop) `{!PreOrder R}.

Lemma frames_ret {A} (a : A) : frames R (ret a).
Proof. intros s r s' [= _ <-]. reflexivity. Qed.

Lemma frames_raise {A} (e : Exn) : frames R (@raise S A e).
Proof. intros s r s' [= _ <-]. reflexivity. Qed.

Lemma frames_bind {A B} (m : M S A) (k : A -> M S B) :
  frames R m -> (forall a, frames R (k a)) -> frames R (bind m k).
Proof.
  intros Hm Hk s r s'. unfold bind.
  destruct (m s) as [[a | e] s1] eqn:Hrun; intros Hout.
  - transitivity s1; [by eapply Hm | by eapply Hk].
  - injection Hout as _ <-. by eapply Hm.
Qed.

Lemma frames_try_except {A} (m : M S A) (h : Exn -> M S A) :
  frames R m -> (forall e, frames R (h e)) -> frames R (try_except m h).
Proof.
  intros Hm Hh s r s'. unfold try_except.
  destruct (m s) as [[a | e] s1] eqn:Hrun; intros Hout.
  - injection Hout as _ <-. by eapply Hm.
  - transitivity s1; [by eapply Hm | by eapply Hh].
Qed.

Lemma frames_if {A} (c : bool) (m1 m2 : M S A) :
  frames R m1 -> frames R m2 -> frames R (if c then m1 else m2).
Proof. by destruct c. Qed.

End Frames.

Lemma frames_zoom {S T A} (R : S -> S -> Prop) (get : S -> T) (set : T -> S -> S)
    (m : M T A) :
  (forall s t, R s (set t s)) -> frames R (zoom get set m).
Proof.
  intros Hset s r s'. unfold zoom. destruct (m (get s)) as [r1 t1].
  intros [= _ <-]. apply Hset.
Qed.

(** One structural step of a frame proof. *)
Ltac frame_step :=
  first
    [ apply frames_ret; apply _
    | apply frames_raise; apply _
    | apply frames_bind; [apply _ | | intros ?]
    | apply frames_try_except; [apply _ | | intros ?]
    | apply frames_if ].

(** ** The action template *)

#[local] Instance only_artifacts_preorder : PreOrder only_artifacts.
Proof.
  split.
  - intros s. split; [done |]. split; [done |]. exists []. by rewrite app_nil_r.
  - intros s1 s2 s3 (Ht1 & Hr1 & l1 & Hl1 & Ha1) (Ht2 & Hr2 & l2 & Hl2 & Ha2).
    split; [congruence |]. split; [congruence |].
    exists (l1 ++ l2). split; [by rewrite Hl2, Hl1, app_assoc |].
    by apply Forall_app.
Qed.

#[local] Instance template_frame_preorder : PreOrder template_frame.
Proof.
  split.
  - intros w. split; [reflexivity | done].
  - intros w1 w2 w3 (Hs1 & Hz1 & Hf1 & Ho1) (Hs2 & Hz2 & Hf2 & Ho2).
    split; [by transitivity (store w2) |]. repeat split; congruence.
Qed.

Lemma save_artifact_record_only_artifacts (env : Env) (run : string)
    (type : ArtifactType) (path : string) :
  frames only_artifacts (save_artifact_record env run type path).
Proof.
  intros s r s'. unfold save_artifact_record, transact.
  destruct (store_fault env (st_tick s) InsertArtifact); intros [= _ <-];
    (split; [done |]); (split; [done |]); simpl.
  - exists []. by rewrite app_nil_r.
  - eexists. split; [reflexivity |]. by repeat constructor.
Qed.

Lemma time_time_frame : frames template_frame time_time.
Proof. intros w r w' [= _ <-]. split; [reflexivity | done]. Qed.

Lemma on_page_frame {A} (m : M Page A) : frames template_frame (on_page m).
Proof. apply frames_zoom. intros w p. split; [reflexivity | done]. Qed.

Lemma on_store_artifact_frame (env : Env) (run : string) (type : ArtifactType)
    (path : string) :
  frames template_frame (on_store (save_artifact_record env run type path)).
Proof.
  intros w r w'. unfold on_store, zoom.
  destruct (save_artifact_record env run type path (store w)) as [r1 st1] eqn:Hrun.
  intros [= _ <-]. split; [| done].
  by eapply save_artifact_record_only_artifacts.
Qed.

Lemma capture_frame (env : Env) (b : BrowserController) (run stage : string)
    (type : ArtifactType) :
  frames template_frame (capture env b run stage type).
Proof.
  unfold capture.
  repeat first [ apply on_page_frame | apply on_store_artifact_frame | frame_step ].
Qed.

(** Whatever the environment does, a run of the template leaves the task
    and run tables alone and adds nothing but artifact rows. *)
Lemma execute_frame (env : Env) (a : BaseAction) (b : BrowserController)
    (has_store : bool) (context : ActionContext) (payload : gmap string PyVal) :
  frames template_frame (execute env a b has_store context payload).
Proof.
  unfold execute.
  repeat first [ apply on_page_frame | apply time_time_frame | apply capture_frame
               | frame_step ].
Qed.

Lemma capture_ok (env : Env) (b : BrowserController) (run stage : string)
    (type : ArtifactType) (w : World) :
  shots_ok env -> artifacts_ok env ->
  capture env b run stage type w
  = (Ret (shot_path env run stage (page w)),
     mkWorld (with_artifact env run type (shot_path env run stage (page w)) (store w))
       (snd (screenshot_evidence env b run stage (page w)))
       (ziniao w) (clock w) (fs_tick w) (next_oid w)).
Proof.
  intros Hshot Hart.
  cbv [capture bind on_page on_store zoom screenshot_evidence screenshot request
         save_artifact_record transact ret fst snd store page ziniao clock fs_tick
         next_oid].
  rewrite Hshot. cbv beta iota. rewrite Hart. reflexivity.
Qed.

(** C1, as stated, fails: with a store attached, a screenshot that cannot
    be taken, or an artifact row that cannot be written, makes [execute]
    raise instead of returning an outcome. *)
Lemma execute_propagates_capture_failure :
  fst (execute no_screenshots (UpdateTitleAction.cls no_screenshots) chrome true
         dry_context title_payload empty_world)
  = Raise capture_failure
  /\ fst (execute no_artifact_rows (UpdateTitleAction.cls no_artifact_rows) chrome true
            dry_context title_payload empty_world)
     = Raise (mkExn APIError "connection refused").
Proof. split; vm_compute; reflexivity. Qed.

Lemma evidence_claim_of_shape (run : string) (inner : Res ActionResult)
    (arts : list Artifact) :
  map tagged arts
  = (run, BEFORE) :: match inner with
                     | Ret res => if ok res then [(run, AFTER)] else []
                     | Raise _ => [(run, ERROR)]
                     end ->
  evidence_claim inner (map a_type arts).
Proof.
  intros Hshape.
  assert (Hkinds : map a_type arts
            = BEFORE :: match inner with
                        | Ret res => if ok res then [AFTER] else []
                        | Raise _ => [ERROR]
                        end).
  { replace (map a_type arts) with (map snd (map tagged arts))
      by (rewrite map_map; reflexivity).
    rewrite Hshape. by destruct inner as [res | e]; [destruct (ok res) |]. }
  rewrite Hkinds. unfold evidence_claim.
  destruct inner as [res | e]; [destruct (ok res) eqn:Hok |]; simpl.
  - split; [done |]. split; [| split].
    + split; [intros _; by exists res |]. intros _. by repeat constructor.
    + split; [| by intros (e & He)].
      intros Hin. apply elem_of_cons in Hin as [Hin | Hin]; [done |].
      apply list_elem_of_singleton in Hin. done.
    + intros res' [= <-] Hno. congruence.
  - split; [done |]. split; [| split].
    + split; [| intros (res' & [= <-] & Hyes); congruence].
      intros Hin. by apply list_elem_of_singleton in Hin.
    + split; [| by intros (e & He)].
      intros Hin. by apply list_elem_of_singleton in Hin.
    + done.
  - split; [done |]. split; [| split].
    + split; [| by intros (res' & Hres & _)].
      intros Hin. apply elem_of_cons in Hin as [Hin | Hin]; [done |].
      apply list_elem_of_singleton in Hin. done.
    + split; [intros _; by exists e |]. intros _. by repeat constructor.
    + intros res' Hres. done.
Qed.

(** C2, as stated, fails: when the "after" screenshot cannot be taken the
    template records an "error" row although the inner action returned
    [ok=True] without raising, and no "after" row. *)
Lemma evidence_claim_fails_when_after_shot_fails :
  let w := empty_world in
  let inner :=
    fst (UpdateTitleAction._do_action second_request_fails chrome (get_locators "id")
           dry_context title_payload
           (inner_start second_request_fails chrome dry_context true (page w))) in
  let out :=
    execute second_request_fails (UpdateTitleAction.cls second_request_fails) chrome true
      dry_context title_payload w in
  (exists res, inner = Ret res /\ ok res = true)
  /\ map a_type (new_artifacts (store w) (store (snd out))) = [BEFORE; ERROR]
  /\ ~ evidence_claim inner (map a_type (new_artifacts (store w) (store (snd out)))).
Proof.
  cbv zeta.
  assert (Hkinds :
    map a_type
      (new_artifacts (store empty_world)
         (store (snd (execute second_request_fails
                        (UpdateTitleAction.cls second_request_fails) chrome true
                        dry_context title_payload empty_world))))
    = [BEFORE; ERROR]) by (vm_compute; reflexivity).
  rewrite Hkinds. split; [eexists; split; vm_compute; reflexivity |].
  split; [reflexivity |].
  intros (_ & _ & Herr & _).
  destruct (proj1 Herr) as (e & He); [by repeat constructor |].
  vm_compute in He. discriminate He.
Qed.

(** C2, amended.  With a store attached and in an environment where no
    screenshot and no artifact insert fails, one run of the template
    records, for its run id and in this order, one "before" row, then an
    "after" row if the inner action returned [ok=True], an "error" row if
    it raised, and nothing more if it returned [ok=False]. *)
Theorem execute_evidence_when_capture_works
    (env : Env) (a : BaseAction) (b : BrowserController) (context : ActionContext)
    (payload : gmap string PyVal) (w : World) :
  shots_ok env -> artifacts_ok env ->
  exists r w',
    execute env a b true context payload w = (Ret r, w')
    /\ map tagged (new_artifacts (store w) (store w'))
       = (run_id context, BEFORE) ::
         match fst (_do_action a b (get_locators (site context)) context payload
                      (inner_start env b context true (page w))) with
         | Ret res => if ok res then [(run_id context, AFTER)] else []
         | Raise _ => [(run_id context, ERROR)]
         end
    /\ evidence_claim
         (fst (_do_action a b (get_locators (site context)) context payload
                 (inner_start env b context true (page w))))
         (map a_type (new_artifacts (store w) (store w'))).
Proof.
  intros Hshot Hart.
  enough (Hshape : exists r w',
    execute env a b true context payload w = (Ret r, w')
    /\ map tagged (new_artifacts (store w) (store w'))
       = (run_id context, BEFORE) ::
         match fst (_do_action a b (get_locators (site context)) context payload
                      (inner_start env b context true (page w))) with
         | Ret res => if ok res then [(run_id context, AFTER)] else []
         | Raise _ => [(run_id context, ERROR)]
         end).
  { destruct Hshape as (r & w' & Hrun & Hkinds). exists r, w'.
    split; [exact Hrun |]. split; [exact Hkinds |].
    eapply evidence_claim_of_shape. exact Hkinds. }
  unfold execute, inner_start. cbv [bind time_time try_except on_page zoom ret].
  rewrite (capture_ok env b _ _ _ _ Hshot Hart).
  cbn [andb fst snd store page ziniao clock fs_tick next_oid].
  destruct (_do_action a b (get_locators (site context)) context payload
              (snd (screenshot_evidence env b (run_id context) "before" (page w))))
    as [[res | e] p2] eqn:Hinner; cbn [fst].
  - destruct (ok res) eqn:Hok.
    + rewrite (capture_ok env b _ _ _ _ Hshot Hart).
      cbn [andb fst snd store page ziniao clock fs_tick next_oid].
      eexists _, _. split; [reflexivity |].
      unfold new_artifacts, with_artifact. cbn [agent_artifacts store].
      rewrite <- app_assoc, drop_app_length. reflexivity.
    + eexists _, _. split; [reflexivity |].
      unfold new_artifacts, with_artifact. cbn [agent_artifacts store].
      rewrite drop_app_length. reflexivity.
  - rewrite (capture_ok env b _ _ _ _ Hshot Hart).
    cbn [andb fst snd store page ziniao clock fs_tick next_oid].
    eexists _, _. split; [reflexivity |].
    unfold new_artifacts, with_artifact. cbn [agent_artifacts store].
    rewrite <- app_assoc, drop_app_length. reflexivity.
Qed.

Lemma shots_ok_calm : shots_ok calm.
Proof. intros n path. reflexivity. Qed.

Lemma artifacts_ok_calm : artifacts_ok calm.
Proof. intros n. reflexivity. Qed.

Lemma execute_evidence_when_capture_works_witness :
  exists r w',
    execute calm (UpdateTitleAction.cls calm) chrome true dry_context title_payload
      empty_world = (Ret r, w')
    /\ map tagged (new_artifacts (store empty_world) (store w'))
       = (run_id dry_context, BEFORE) ::
         match fst (_do_action (UpdateTitleAction.cls calm) chrome
                      (get_locators (site dry_context)) dry_context title_payload
                      (inner_start calm chrome dry_context true (page empty_world))) with
         | Ret res => if ok res then [(run_id dry_context, AFTER)] else []
         | Raise _ => [(run_id dry_context, ERROR)]
         end
    /\ evidence_claim
         (fst (_do_action (UpdateTitleAction.cls calm) chrome
                 (get_locators (site dry_context)) dry_context title_payload
                 (inner_start calm chrome dry_context true (page empty_world))))
         (map a_type (new_artifacts (store empty_world) (store w'))).
Proof.
  apply (execute_evidence_when_capture_works calm (UpdateTitleAction.cls calm) chrome
           dry_context title_payload empty_world).
  - intros n path. reflexivity.
  - intros n. reflexivity.
Defined.

(** One run of the template, stage by stage. *)
Lemma execute_stages (env : Env) (a : BaseAction) (b : BrowserController)
    (has_store : bool) (context : ActionContext) (payload : gmap string PyVal)
    (w : World) :
  execute env a b has_store context payload w
  = match before_stage env b has_store context (snd (time_time w)) with
    | (Ret before, w1) =>
        match guarded env a b has_store context payload (clock w) before w1 with
        | (Ret r, w2) => (Ret r, w2)
        | (Raise e, w2) =>
            match error_stage env b has_store context w2 with
            | (Ret error_screenshot, w3) =>
                (Ret (mkResult false (action_name a) None (Some "EXCEPTION")
                        (Some (exn_str e))
                        (if opt_truthy error_screenshot
                         then Some {[ "error_png" := VStr (default "" error_screenshot) ]}
                         else None)
                        (Some (elapsed_ms env (clock w) (clock w3)))),
                 snd (time_time w3))
            | (Raise e', w3) => (Raise e', w3)
            end
        end
    | (Raise e, w1) => (Raise e, w1)
    end.
Proof. reflexivity. Qed.

(** What the guarded block returns has its elapsed time set. *)
Lemma guarded_timing (env : Env) (a : BaseAction) (b : BrowserController)
    (has_store : bool) (context : ActionContext) (payload : gmap string PyVal)
    (start_time : nat) (before : option string) (w w' : World) (r : ActionResult) :
  guarded env a b has_store context payload start_time before w = (Ret r, w') ->
  is_Some (timing_ms r).
Proof.
  unfold guarded. cbv [bind].
  destruct (on_page _ w) as [[res | e] w1]; [| discriminate].
  destruct (has_store && ok res).
  - destruct (capture env b (run_id context) "after" AFTER w1) as [[shot | e] w2];
      [| discriminate].
    cbv [ret time_time]. intros [= <- _]. by eexists.
  - cbv [ret time_time]. intros [= <- _]. by eexists.
Qed.

(** An exception of the inner action is one of the guarded block. *)
Lemma guarded_inner_raise (env : Env) (a : BaseAction) (b : BrowserController)
    (has_store : bool) (context : ActionContext) (payload : gmap string PyVal)
    (start_time : nat) (before : option string) (w : World) (e : Exn) :
  fst (_do_action a b (get_locators (site context)) context payload (page w)) = Raise e ->
  exists w', guarded env a b has_store context payload start_time before w = (Raise e, w').
Proof.
  intros Hinner. unfold guarded. cbv [bind on_page zoom].
  destruct (_do_action a b (get_locators (site context)) context payload (page w))
    as [ri p2].
  simpl in Hinner. subst ri. by eexists.
Qed.

(** Where the "before" stage leaves the page. *)
Lemma before_stage_page (env : Env) (b : BrowserController) (has_store : bool)
    (context : ActionContext) (w w1 : World) (before : option string) :
  before_stage env b has_store context w = (Ret before, w1) ->
  page w1 = inner_start env b context has_store (page w).
Proof.
  unfold before_stage, inner_start, capture. destruct has_store.
  - cbv [bind on_page on_store zoom ret].
    destruct (screenshot_evidence env b (run_id context) "before" (page w))
      as [[shot | e] p1]; [| discriminate].
    cbn [store page ziniao clock fs_tick next_oid].
    destruct (save_artifact_record env (run_id context) BEFORE shot (store w))
      as [[[] | e] st1]; [| discriminate].
    by intros [= _ <-].
  - by intros [= _ <-].
Qed.

(** C1, amended.  [execute] returns an outcome exactly when the "before"
    capture succeeds and, should the guarded block raise, the "error"
    capture succeeds too; without a store there is nothing to capture, and
    it always returns.  Whatever it returns has its elapsed time set.  No
    exception of the guarded block reaches the caller, be it raised by the
    inner action or by the "after" capture: it comes back as [ok=False]
    with error code [EXCEPTION] and the text of the exception, and without
    a store the evidence reference is absent. *)
Theorem execute_returns_outcome
    (env : Env) (a : BaseAction) (b : BrowserController) (has_store : bool)
    (context : ActionContext) (payload : gmap string PyVal) (w : World) :
  (stages_return env a b has_store context payload w
   <-> exists r w', execute env a b has_store context payload w = (Ret r, w'))
  /\ (has_store = false -> stages_return env a b has_store context payload w)
  /\ forall r w',
       execute env a b has_store context payload w = (Ret r, w') ->
       is_Some (timing_ms r)
       /\ (forall e,
             fst (_do_action a b (get_locators (site context)) context payload
                    (inner_start env b context has_store (page w))) = Raise e ->
             ok r = false
             /\ error_code r = Some "EXCEPTION"
             /\ error_message r = Some (exn_str e)
             /\ (has_store = false -> evidence r = None))
       /\ (forall before w1 e w2,
             before_stage env b has_store context (snd (time_time w))
             = (Ret before, w1) ->
             guarded env a b has_store context payload (clock w) before w1
             = (Raise e, w2) ->
             ok r = false
             /\ error_code r = Some "EXCEPTION"
             /\ error_message r = Some (exn_str e)).
Proof.
  rewrite execute_stages. unfold stages_return.
  set (w0 := snd (time_time w)).
  assert (Hpage : page w0 = page w) by reflexivity.
  destruct (before_stage env b has_store context w0) as [[before | e0] w1] eqn:Hbefore.
  - pose proof (before_stage_page _ _ _ _ _ _ _ Hbefore) as Hstart.
    rewrite Hpage in Hstart.
    destruct (guarded env a b has_store context payload (clock w) before w1)
      as [[r0 | e] w2] eqn:Hguarded.
    + split; [| split].
      * split; [intros _; by eexists _, _ |].
        intros _. exists before, w1. split; [reflexivity |]. intros e w3.
        rewrite Hguarded. discriminate.
      * intros ->. exists before, w1. split; [reflexivity |].
        intros e w3. rewrite Hguarded. discriminate.
      * intros r w' [= <- <-]. split; [by eapply guarded_timing |]. split.
        -- intros e Hinner. rewrite <- Hstart in Hinner.
           destruct (guarded_inner_raise env a b has_store context payload (clock w)
                       before w1 e Hinner) as (w3 & Hraise).
           congruence.
        -- intros before' w1' e w3 [= <- <-]. congruence.
    + split; [| split].
      * split.
        -- intros (before' & w1' & [= <- <-] & Hneed).
           destruct (Hneed e w2 Hguarded) as (shot & w3 & ->). by eexists _, _.
        -- intros (r & w' & Hrun). exists before, w1. split; [reflexivity |].
           intros e' w2'. rewrite Hguarded. intros [= <- <-].
           destruct (error_stage env b has_store context w2) as [[shot | e1] w3];
             [by eexists _, _ | discriminate].
      * intros ->. exists before, w1. split; [reflexivity |].
        intros e' w2' _. by exists None, w2'.
      * intros r w' Hrun.
        destruct (error_stage env b has_store context w2) as [[shot | e1] w3] eqn:Herror;
          [| discriminate].
        injection Hrun as <- <-. split; [by eexists |]. split.
        -- intros e' Hinner. rewrite <- Hstart in Hinner.
           destruct (guarded_inner_raise env a b has_store context payload (clock w)
                       before w1 e' Hinner) as (w4 & Hraise).
           rewrite Hguarded in Hraise. injection Hraise as <- <-.
           repeat split. intros ->. by injection Herror as <- <-.
        -- intros before' w1' e' w2' [= <- <-]. rewrite Hguarded. by intros [= <- <-].
  - split; [| split].
    + split; [by intros (before & w2 & Hno & _) | by intros (r & w' & Hno)].
    + intros ->. discriminate Hbefore.
    + by intros r w' Hno.
Qed.

(** A capture returns once its own two requests are answered. *)
Lemma capture_returns (env : Env) (b : BrowserController) (run stage : string)
    (type : ArtifactType) (w : World) :
  driver_fault env (p_tick (page w)) (SaveScreenshot (shot_path env run stage (page w)))
  = None ->
  store_fault env (st_tick (store w)) InsertArtifact = None ->
  exists w', capture env b run stage type w = (Ret (shot_path env run stage (page w)), w').
Proof.
  destruct w as [st p z c f o]. cbn [page store]. unfold shot_path. intros Hshot Hart.
  cbv [capture bind on_page on_store zoom screenshot_evidence screenshot request
         save_artifact_record transact ret fst snd store page ziniao clock fs_tick
         next_oid].
  cbv beta zeta. rewrite Hshot. cbv beta iota. rewrite Hart. by eexists.
Qed.

(** In particular the two stages return, whatever becomes of the "after"
    shot, when no "before" shot, no "error" shot and no artifact insert
    fails. *)
Lemma stages_return_when_answered (env : Env) (a : BaseAction) (b : BrowserController)
    (has_store : bool) (context : ActionContext) (payload : gmap string PyVal)
    (w : World) :
  (forall n p stage,
     stage = "before" \/ stage = "error" ->
     driver_fault env n (SaveScreenshot (shot_path env (run_id context) stage p)) = None) ->
  artifacts_ok env ->
  stages_return env a b has_store context payload w.
Proof.
  intros Hshots Harts. unfold stages_return, before_stage, error_stage.
  destruct has_store.
  - destruct (capture_returns env b (run_id context) "before" BEFORE (snd (time_time w)))
      as (w1 & Hbefore); [apply Hshots; by left | apply Harts |].
    eexists _, w1. split; [unfold bind; rewrite Hbefore; reflexivity |].
    intros e w2 _.
    destruct (capture_returns env b (run_id context) "error" ERROR w2)
      as (w3 & Herror); [apply Hshots; by right | apply Harts |].
    eexists _, w3. unfold bind. rewrite Herror. reflexivity.
  - eexists _, _. split; [reflexivity |]. intros e w2 _. by eexists _, _.
Qed.

Lemma execute_returns_outcome_witness :
  exists r w',
    execute second_request_fails (UpdateTitleAction.cls second_request_fails) chrome true
      dry_context title_payload empty_world = (Ret r, w').
Proof.
  apply (proj1 (proj1 (execute_returns_outcome second_request_fails
                         (UpdateTitleAction.cls second_request_fails) chrome true
                         dry_context title_payload empty_world))).
  eexists _, _. split; [vm_compute; reflexivity |].
  intros e w2 Hraise. vm_compute in Hraise. injection Hraise as <- <-.
  eexists _, _. vm_compute. reflexivity.
Defined.

(** The run of the witness: the dry run returns [ok=True], the "after"
    screenshot cannot be taken, and the failure comes back as an outcome
    with the "error" shot as its evidence. *)
Example execute_converts_after_capture_failure :
  match fst (execute second_request_fails (UpdateTitleAction.cls second_request_fails)
               chrome true dry_context title_payload empty_world) with
  | Ret r =>
      (ok r, error_code r, error_message r, default ∅ (evidence r) !! "error_png")
      = (false, Some "EXCEPTION", Some "unable to capture screen",
         Some (VStr "./evidence/r1_error_20240101_000000.png"))
  | Raise _ => False
  end.
Proof. vm_compute. reflexivity. Qed.

(** A live run on the id site: the title step binds one argument too
    many, and the [TypeError] comes back as an outcome. *)
Example execute_converts_title_step_failure :
  match fst (execute calm (UpdateTitleAction.cls calm) chrome true
               live_context title_payload empty_world) with
  | Ret r =>
      (ok r, error_code r, error_message r)
      = (false, Some "EXCEPTION",
         Some "BrowserController.execute_script() takes 2 positional arguments but 3 were given")
  | Raise _ => False
  end.
Proof. vm_compute. reflexivity. Qed.

(** ** The session pool *)

(** Case analysis along the provisioning path of [get_browser_for_shop]. *)
Ltac acquire_cases :=
  unfold major_version, create_browser_controller, connect, ret, raise;
  repeat (case_match; simplify_eq;
          cbn [fst snd world self page store ziniao clock fs_tick next_oid negb
               active_browsers shop_browser_map worker_id z_log z_tick]);
  try discriminate.

Lemma get_browser_hit (env : Env) (shop : string) (s : Sys) (c : BrowserController) :
  active_browsers (self s) !! shop = Some c ->
  get_browser_for_shop env shop s = (Ret (Some c), s).
Proof. intros Hlive. unfold get_browser_for_shop. by rewrite Hlive. Qed.

(** [start_browser] never raises and sends exactly one request. *)
Lemma start_browser_logs (env : Env) (bid : string) (hl : bool) (z : Provider) :
  exists r,
    start_browser env bid hl None z
    = (Ret r, mkProvider (S (z_tick z)) (z_log z ++ [StartBrowser bid hl None])).
Proof.
  unfold start_browser, try_except, bind, _call_api. simpl.
  destruct (api_reply env (z_tick z)) as [e | j]; [by eexists |].
  destruct (eq_zero (jget j "statusCode")); [| by eexists].
  unfold py_int. destruct (jget j "debuggingPort"); try by eexists.
  destruct (int_of_str env s); by eexists.
Qed.

Lemma get_browser_registers (env : Env) (shop : string) (s s' : Sys)
    (c : BrowserController) :
  get_browser_for_shop env shop s = (Ret (Some c), s') ->
  active_browsers (self s') !! shop = Some c.
Proof.
  unfold get_browser_for_shop.
  destruct (active_browsers (self s) !! shop) as [c0 |] eqn:Hlive.
  { by intros [= -> <-]. }
  destruct (shop_browser_map (self s) !! shop) as [bid |]; [| done].
  destruct (negb (str_truthy bid)); [done |].
  unfold bind, on_world, on_ziniao, on_page, zoom.
  destruct (start_browser_logs env bid headless (ziniao (world s))) as [r ->].
  cbn [fst snd world ziniao].
  acquire_cases.
  all: intros [= <- <-]; cbn [self active_browsers]; apply lookup_insert_eq.
Qed.

Lemma get_browser_provisions_once (env : Env) (shop bid : string) (s : Sys) :
  active_browsers (self s) !! shop = None ->
  shop_browser_map (self s) !! shop = Some bid ->
  str_truthy bid = true ->
  z_log (ziniao (world (snd (get_browser_for_shop env shop s))))
  = z_log (ziniao (world s)) ++ [StartBrowser bid headless None].
Proof.
  intros Hlive Hmap Hbid. unfold get_browser_for_shop. rewrite Hlive, Hmap, Hbid.
  cbn [negb]. unfold bind, on_world, on_ziniao, on_page, zoom.
  destruct (start_browser_logs env bid headless (ziniao (world s))) as [r ->].
  cbn [fst snd world ziniao].
  acquire_cases; reflexivity.
Qed.

(** The pool invariant: provisioning only ever registers a tenant that has
    a non-empty id, so a tenant without an entry never has a live handle. *)
Lemma get_browser_keeps_pool_wf (env : Env) (shop : string) (s : Sys) :
  pool_wf (self s) -> pool_wf (self (snd (get_browser_for_shop env shop s))).
Proof.
  intros Hwf. unfold get_browser_for_shop.
  destruct (active_browsers (self s) !! shop) as [c0 |]; [exact Hwf |].
  destruct (shop_browser_map (self s) !! shop) as [bid |] eqn:Hmap; [| exact Hwf].
  destruct (str_truthy bid) eqn:Hbid; [| exact Hwf]. cbn [negb].
  unfold bind, on_world, on_ziniao, on_page, zoom.
  destruct (start_browser_logs env bid headless (ziniao (world s))) as [r0 ->].
  cbn [fst snd world ziniao self page store clock fs_tick next_oid].
  acquire_cases; try exact Hwf.
  all: intros other c Hlive; cbn [active_browsers shop_browser_map] in *;
    apply lookup_insert_Some in Hlive as [[<- _] | [_ Hlive]]; [by exists bid |];
    by apply Hwf in Hlive.
Qed.

Lemma unmapped_not_live (w : Worker) (shop : string) :
  pool_wf w -> shop_browser_map w !! shop = None -> active_browsers w !! shop = None.
Proof.
  intros Hwf Hnone. destruct (active_browsers w !! shop) as [c |] eqn:Hlive; [| done].
  destruct (Hwf shop c Hlive) as (bid & Hbid & _). congruence.
Qed.

(** C5.  After a successful acquire for a tenant, a second acquire for
    that tenant returns the very same controller object and changes
    nothing at all, so no start-session request is sent; an acquire for a
    tenant that has no live handle yet (any tenant other than those
    acquired before) and a non-empty provisioning id sends exactly one
    start-session request, for that id. *)
Theorem session_pool_affinity
    (env : Env) (shop : string) (s s1 : Sys) (c : BrowserController) :
  get_browser_for_shop env shop s = (Ret (Some c), s1) ->
  get_browser_for_shop env shop s1 = (Ret (Some c), s1)
  /\ forall other bid,
       active_browsers (self s1) !! other = None ->
       shop_browser_map (self s1) !! other = Some bid ->
       str_truthy bid = true ->
       other <> shop
       /\ z_log (ziniao (world (snd (get_browser_for_shop env other s1))))
          = z_log (ziniao (world s1)) ++ [StartBrowser bid headless None].
Proof.
  intros Hfirst. pose proof (get_browser_registers env shop s s1 c Hfirst) as Hlive.
  split; [by apply get_browser_hit |].
  intros other bid Hnone Hmap Hbid. split; [congruence |].
  by apply get_browser_provisions_once.
Qed.

Lemma session_pool_affinity_witness :
  get_browser_for_shop calm "shop_01" after_first_acquire
  = (Ret (Some (mkController 0 9222 "131")), after_first_acquire)
  /\ forall other bid,
       active_browsers (self after_first_acquire) !! other = None ->
       shop_browser_map (self after_first_acquire) !! other = Some bid ->
       str_truthy bid = true ->
       other <> "shop_01"
       /\ z_log (ziniao (world (snd (get_browser_for_shop calm other after_first_acquire))))
          = z_log (ziniao (world after_first_acquire)) ++ [StartBrowser bid headless None].
Proof.
  apply (session_pool_affinity calm "shop_01" fresh_sys after_first_acquire
           (mkController 0 9222 "131")).
  vm_compute. reflexivity.
Defined.

(** The two acquires of the witness and one for the second tenant, run:
    one start request for shop_01, none for its second acquire, one for
    shop_02. *)
Example two_tenants_two_provisionings :
  let s2 := snd (get_browser_for_shop calm "shop_01" after_first_acquire) in
  let s3 := snd (get_browser_for_shop calm "shop_02" s2) in
  z_log (ziniao (world after_first_acquire)) = [StartBrowser "12345" false None]
  /\ z_log (ziniao (world s2)) = [StartBrowser "12345" false None]
  /\ z_log (ziniao (world s3))
     = [StartBrowser "12345" false None; StartBrowser "67890" false None].
Proof. vm_compute. repeat split. Qed.

(** ** The worker cycle *)

Lemma bind_cases {S A B} (m : M S A) (k : A -> M S B) (s s' : S) (r : Res B) :
  bind m k s = (r, s') ->
  (exists a s1, m s = (Ret a, s1) /\ k a s1 = (r, s'))
  \/ (exists e, m s = (Raise e, s') /\ r = Raise e).
Proof.
  unfold bind. destruct (m s) as [[a | e] s1].
  - intros Hk. left. by exists a, s1.
  - intros [= <- <-]. right. by exists e.
Qed.

Lemma try_except_cases {S A} (m : M S A) (h : Exn -> M S A) (s s' : S) (r : Res A) :
  try_except m h s = (r, s') ->
  (exists a, m s = (Ret a, s') /\ r = Ret a)
  \/ (exists e s1, m s = (Raise e, s1) /\ h e s1 = (r, s')).
Proof.
  unfold try_except. destruct (m s) as [[a | e] s1].
  - intros [= <- <-]. left. by exists a.
  - intros Hh. right. by exists e, s1.
Qed.

Lemma status_writes_app (l1 l2 : list Write) :
  status_writes (l1 ++ l2) = status_writes l1 ++ status_writes l2.
Proof. apply omap_app. Qed.

Lemma status_writes_artifacts (l : list Write) :
  Forall is_artifact_write l -> status_writes l = [].
Proof.
  induction 1 as [| w l Hw _ IH]; [done |].
  by destruct w.
Qed.

Lemma replay_app (ws1 ws2 : list (string * TaskStatus)) (rows : list (string * TaskStatus)) :
  replay (ws1 ++ ws2) rows = replay ws2 (replay ws1 rows).
Proof. apply foldl_app. Qed.

Lemma logs_trans (l1 l2 : list Write) (s s1 s2 : Sys) :
  logs l1 s s1 -> logs l2 s1 s2 -> logs (l1 ++ l2) s s2.
Proof.
  unfold logs. intros [H1 B1] [H2 B2]. split.
  - by rewrite H2, H1, app_assoc.
  - by rewrite B2, B1, status_writes_app, replay_app.
Qed.

Lemma logs_new_writes (l : list Write) (s s' : Sys) :
  logs l s s' -> new_writes (store (world s)) (store (world s')) = l.
Proof. unfold logs, new_writes. intros [-> _]. apply drop_app_length. Qed.

Lemma logs_of_same_store (s s' : Sys) :
  store (world s') = store (world s) -> logs [] s s'.
Proof. unfold logs. intros ->. split; [by rewrite app_nil_r | done]. Qed.

(** A store request seen from the system state: either it fails and
    leaves every table as it was, or it is applied. *)
Lemma sys_transact {A} (env : Env) (op : StoreOp) (answer : nat -> Store -> A)
    (write : nat -> Store -> Store) (logged : nat -> list Write) (s s' : Sys)
    (r : Res A) :
  on_world (on_store (transact env op answer write logged)) s = (r, s') ->
  (exists e, store_fault env (st_tick (store (world s))) op = Some e /\ r = Raise e
             /\ s' = put_store
                       (mkStore (agent_tasks (store (world s))) (agent_runs (store (world s)))
                          (agent_artifacts (store (world s)))
                          (S (st_tick (store (world s)))) (st_log (store (world s)))) s)
  \/ (store_fault env (st_tick (store (world s))) op = None
      /\ r = Ret (answer (st_tick (store (world s))) (store (world s)))
      /\ s' = put_store (committed write logged (store (world s))) s).
Proof.
  unfold on_world, on_store, zoom, transact.
  destruct (store_fault env (st_tick (store (world s))) op) as [e |];
    intros [= <- <-]; simpl.
  - left. by exists e.
  - by right.
Qed.

Lemma logs_failed_request (s : Sys) :
  let st := store (world s) in
  logs [] s (put_store (mkStore (agent_tasks st) (agent_runs st) (agent_artifacts st)
                          (S (st_tick st)) (st_log st)) s).
Proof. split; simpl; [by rewrite app_nil_r | done]. Qed.

Lemma board_restatus (id : string) (status : TaskStatus) (now : Z)
    (error : option string) (rows : list Task) :
  map (fun t => (t_id t, t_status t))
    (map (fun t => if String.eqb (t_id t) id then with_status status now error t else t)
       rows)
  = map (restatus (id, status)) (map (fun t => (t_id t, t_status t)) rows).
Proof.
  rewrite !map_map. apply map_ext. intros t. unfold restatus. simpl.
  by destruct (String.eqb (t_id t) id).
Qed.

Lemma sys_update_task_status (env : Env) (id : string) (status : TaskStatus)
    (error : option string) (s s' : Sys) (r : Res unit) :
  on_world (on_store (update_task_status env id status error)) s = (r, s') ->
  (exists e, store_fault env (st_tick (store (world s))) UpdateTask = Some e
             /\ r = Raise e /\ logs [] s s')
  \/ (store_fault env (st_tick (store (world s))) UpdateTask = None
      /\ r = Ret tt /\ logs [SetStatus id status error] s s').
Proof.
  unfold update_task_status. intros Hrun.
  apply sys_transact in Hrun as [(e & Hf & -> & ->) | (Hf & -> & ->)].
  - left. exists e. split; [done |]. split; [done |]. apply logs_failed_request.
  - right. split; [done |]. split; [done |]. split; [reflexivity |].
    unfold board. simpl. apply board_restatus.
Qed.

Lemma sys_create_run (env : Env) (task worker : string) (s s' : Sys) (r : Res string) :
  on_world (on_store (create_run env task worker)) s = (r, s') ->
  (exists e, store_fault env (st_tick (store (world s))) InsertRun = Some e
             /\ r = Raise e /\ logs [] s s')
  \/ (store_fault env (st_tick (store (world s))) InsertRun = None
      /\ r = Ret (uuid4 env (st_tick (store (world s))))
      /\ logs [NewRun (uuid4 env (st_tick (store (world s)))) task worker] s s').
Proof.
  unfold create_run. intros Hrun.
  apply sys_transact in Hrun as [(e & Hf & -> & ->) | (Hf & -> & ->)].
  - left. exists e. split; [done |]. split; [done |]. apply logs_failed_request.
  - right. split; [done |]. split; [done |]. by split.
Qed.

Lemma sys_complete_run (env : Env) (run : string) (result : RunResult)
    (error : option string) (s s' : Sys) (r : Res unit) :
  on_world (on_store (complete_run env run result error)) s = (r, s') ->
  (exists e, store_fault env (st_tick (store (world s))) UpdateRun = Some e
             /\ r = Raise e /\ logs [] s s')
  \/ (store_fault env (st_tick (store (world s))) UpdateRun = None
      /\ r = Ret tt /\ logs [EndRun run result error] s s').
Proof.
  unfold complete_run. intros Hrun.
  apply sys_transact in Hrun as [(e & Hf & -> & ->) | (Hf & -> & ->)].
  - left. exists e. split; [done |]. split; [done |]. apply logs_failed_request.
  - right. split; [done |]. split; [done |]. by split.
Qed.

Lemma get_browser_silent (env : Env) (shop : string) (s s' : Sys)
    (r : Res (option BrowserController)) :
  get_browser_for_shop env shop s = (r, s') -> store (world s') = store (world s).
Proof.
  unfold get_browser_for_shop.
  destruct (active_browsers (self s) !! shop) as [c0 |]; [by intros [= _ <-] |].
  destruct (shop_browser_map (self s) !! shop) as [bid |]; [| by intros [= _ <-]].
  destruct (negb (str_truthy bid)); [by intros [= _ <-] |].
  unfold bind, on_world, on_ziniao, on_page, zoom.
  destruct (start_browser_logs env bid headless (ziniao (world s))) as [r0 ->].
  cbn [fst snd world ziniao].
  acquire_cases; by intros [= _ <-].
Qed.

Lemma execute_on_world_logs (env : Env) (a : BaseAction) (b : BrowserController)
    (context : ActionContext) (payload : gmap string PyVal) (s s' : Sys)
    (r : Res ActionResult) :
  on_world (execute env a b true context payload) s = (r, s') ->
  exists l, logs l s s' /\ Forall is_artifact_write l.
Proof.
  unfold on_world, zoom.
  destruct (execute env a b true context payload (world s)) as [r1 w1] eqn:Hrun.
  intros [= _ <-].
  destruct (execute_frame env a b true context payload _ _ _ Hrun)
    as ((Htasks & _ & l & Hl & Hart) & _).
  exists l. split; [| exact Hart]. split; [exact Hl |].
  rewrite (status_writes_artifacts l Hart). unfold board. simpl. by rewrite Htasks.
Qed.

Lemma get_action_class_pure {S} (env : Env) (name : string) (s s' : S)
    (r : Res BaseAction) :
  get_action_class env name s = (r, s') -> s' = s.
Proof.
  unfold get_action_class. destruct (ACTION_REGISTRY env !! name); by intros [= _ <-].
Qed.

Lemma locale_site_pure {S} (payload : gmap string PyVal) (s s' : S) (r : Res string) :
  locale_site payload s = (r, s') -> s' = s.
Proof.
  unfold locale_site. destruct (default (VStr "id") (payload !! "locale"));
    by intros [= _ <-].
Qed.

Lemma worker_id_after_store_request {A} (m : M Store A) (s s' : Sys) (r : Res A) :
  on_world (on_store m) s = (r, s') -> self s' = self s.
Proof.
  unfold on_world, on_store, zoom. destruct (m (store (world s))). by intros [= _ <-].
Qed.

(** Closing steps of a history proof: normalise the appended writes and
    read off the status changes. *)
Ltac history_done :=
  rewrite ?status_writes_app;
  repeat match goal with
         | H : Forall is_artifact_write ?l |- _ =>
             rewrite (status_writes_artifacts l H)
         end;
  simpl; unfold cycle_histories; rewrite !elem_of_cons; auto 10.

Ltac store_down Hok :=
  let H1 := fresh in let H2 := fresh in let H3 := fresh in
  intros Hok;
  match goal with
  | Hf : store_fault _ ?n _ = Some _ |- _ =>
      destruct (Hok n) as (H1 & H2 & H3); congruence
  end.

Lemma execute_task_cases (env : Env) (task : Task) (s s' : Sys) (r : Res bool) :
  execute_task env task s = (r, s') ->
  exists l,
    logs l s s'
    /\ status_writes l ∈ cycle_histories (t_id task)
    /\ (worker_store_ok env -> completed_cycle (t_id task) (worker_id (self s)) r l).
Proof.
  unfold execute_task. intros H.
  apply bind_cases in H as [(u & s1 & Hrunning & H) | (e & Hrunning & ->)];
    pose proof (worker_id_after_store_request _ _ _ _ Hrunning) as Hself1;
    apply sys_update_task_status in Hrunning as [(e1 & Hf1 & Hr1 & Hl1) | (_ & Hr1 & Hl1)];
    try discriminate.
  2:{ exists []. split; [exact Hl1 |]. split; [history_done | store_down Hok]. }
  apply bind_cases in H as [(run & s2 & Hrun & H) | (e & Hrun & ->)];
    cbv beta in Hrun;
    pose proof (worker_id_after_store_request _ _ _ _ Hrun) as Hself2;
    apply sys_create_run in Hrun as [(e2 & Hf2 & Hr2 & Hl2) | (_ & Hr2 & Hl2)];
    try discriminate.
  2:{ eexists. split; [exact (logs_trans _ _ _ _ _ Hl1 Hl2) |].
      split; [history_done | store_down Hok]. }
  rewrite Hself1 in Hl2.
  pose proof (logs_trans _ _ _ _ _ Hl1 Hl2) as Hl12. clear Hl1 Hl2.
  clear Hr1 Hself2. injection Hr2 as Hr2. rewrite <- Hr2 in Hl12. clear Hr2.
  match type of H with
  | try_except ?body ?handler _ = _ =>
      assert (HB : forall rb sb, body s2 = (rb, sb) ->
                exists arts, Forall is_artifact_write arts
                  /\ ((exists e, rb = Raise e /\ logs arts s2 sb)
                      \/ (exists e res,
                            rb = Raise e /\ ~ worker_store_ok env
                            /\ logs (arts ++ [EndRun run (ResultOf res)
                                                (if negb (ok res) then error_message res
                                                 else None)]) s2 sb)
                      \/ (exists res,
                            rb = Ret (ok res)
                            /\ logs (arts ++
                                       [EndRun run (ResultOf res)
                                          (if negb (ok res) then error_message res
                                           else None);
                                        SetStatus (t_id task)
                                          (if ok res then SUCCESS else FAILED)
                                          (if ok res then None
                                           else Some (fmt_opt (error_code res) +:+ ": " +:+
                                                      fmt_opt (error_message res)))])
                                 s2 sb)));
      [| assert (HH : forall e s3 rh sh, handler e s3 = (rh, sh) ->
                   (exists e' hl, rh = Raise e' /\ ~ worker_store_ok env
                                  /\ logs hl s3 sh /\ status_writes hl = [])
                   \/ (rh = Ret false
                       /\ logs [EndRun run EmptyResult (Some (exn_str e));
                                SetStatus (t_id task) FAILED (Some (exn_str e))] s3 sh)) ]
  end.
  { intros rb sb Hbody.
    apply bind_cases in Hbody as [(browser & s3 & Hacq & Hbody) | (e & Hacq & ->)];
      pose proof (logs_of_same_store _ _ (get_browser_silent _ _ _ _ _ Hacq)) as Hl3.
    2:{ exists []. split; [constructor |]. left. by exists e. }
    destruct browser as [b |].
    2:{ injection Hbody as <- <-. exists []. split; [constructor |]. left. by eexists. }
    apply bind_cases in Hbody as [(cls & s4 & Hcls & Hbody) | (e & Hcls & ->)];
      apply get_action_class_pure in Hcls as ->.
    2:{ exists []. split; [constructor |]. left. by exists e. }
    apply bind_cases in Hbody as [(site & s5 & Hsite & Hbody) | (e & Hsite & ->)];
      apply locale_site_pure in Hsite as ->.
    2:{ exists []. split; [constructor |]. left. by exists e. }
    apply bind_cases in Hbody as [(result & s6 & Hexec & Hbody) | (e & Hexec & ->)];
      apply execute_on_world_logs in Hexec as (arts & Hl6 & Harts);
      pose proof (logs_trans _ _ _ _ _ Hl3 Hl6) as Hl36; simpl in Hl36.
    2:{ exists arts. split; [exact Harts |]. left. by exists e. }
    exists arts. split; [exact Harts |].
    apply bind_cases in Hbody as [(u1 & s7 & Hend & Hbody) | (e & Hend & ->)];
      apply sys_complete_run in Hend as [(e7 & Hf7 & Hr7 & Hl7) | (_ & Hr7 & Hl7)];
      try discriminate;
      pose proof (logs_trans _ _ _ _ _ Hl36 Hl7) as Hl37.
    2:{ left. exists e. split; [done |]. by rewrite app_nil_r in Hl37. }
    apply bind_cases in Hbody as [(u2 & s8 & Hclose & Hbody) | (e & Hclose & ->)].
    - injection Hbody as <- <-. right. right. exists result. split; [done |].
      destruct (ok result);
        apply sys_update_task_status in Hclose
          as [(e8 & Hf8 & Hr8 & Hl8) | (_ & Hr8 & Hl8)];
        try discriminate;
        pose proof (logs_trans _ _ _ _ _ Hl37 Hl8) as Hl38;
        by rewrite <- app_assoc in Hl38.
    - right. left. exists e, result. split; [done |].
      destruct (ok result);
        apply sys_update_task_status in Hclose
          as [(e8 & Hf8 & Hr8 & Hl8) | (_ & Hr8 & Hl8)];
        try discriminate;
        (split; [intros Hok; destruct (Hok (st_tick (store (world s7)))) as (? & ? & ?);
                 congruence |]);
        pose proof (logs_trans _ _ _ _ _ Hl37 Hl8) as Hl38;
        by rewrite app_nil_r in Hl38. }
  { intros e s3 rh sh Hhandler.
    apply bind_cases in Hhandler as [(u1 & s4 & Hend & Hhandler) | (e' & Hend & ->)];
      apply sys_complete_run in Hend as [(e4 & Hf4 & Hr4 & Hl4) | (_ & Hr4 & Hl4)];
      try discriminate.
    2:{ left. exists e', []. split; [done |]. split; [| by split].
        intros Hok. destruct (Hok (st_tick (store (world s3)))) as (? & ? & ?).
        congruence. }
    apply bind_cases in Hhandler as [(u2 & s5 & Hclose & Hhandler) | (e' & Hclose & ->)];
      apply sys_update_task_status in Hclose as [(e5 & Hf5 & Hr5 & Hl5) | (_ & Hr5 & Hl5)];
      try discriminate;
      pose proof (logs_trans _ _ _ _ _ Hl4 Hl5) as Hl45.
    - injection Hhandler as <- <-. right. by split.
    - left. eexists e', _. split; [done |]. split; [| by split].
      intros Hok. destruct (Hok (st_tick (store (world s4)))) as (? & ? & ?).
      congruence. }
  apply try_except_cases in H as [(okb & Hbody & ->) | (e & s3 & Hbody & Hhandler)].
  - destruct (HB _ _ Hbody)
      as (arts & Harts & [(e & [=] & _) | [(e & res & [=] & _) | (res & [= ->] & Hl)]]).
    pose proof (logs_trans _ _ _ _ _ Hl12 Hl) as Hall.
    eexists. split; [exact Hall |]. split.
    + destruct (ok res); history_done.
    + intros _. exists run, arts. split; [exact Harts |].
      destruct (ok res) eqn:Hres; [left | right; left]; exists res;
        (split; [exact Hres |]); (split; [reflexivity |]);
        simpl; by rewrite <- ?app_assoc.
  - destruct (HH _ _ _ _ Hhandler)
      as [(e' & hl & -> & Hdown & Hlh & Hquiet) | (-> & Hlh)];
      destruct (HB _ _ Hbody)
        as (arts & Harts & [(eb & [= <-] & Hl) | [(eb & res & [= <-] & Hdown' & Hl)
                                                 | (res & [=] & _)]]);
      pose proof (logs_trans _ _ _ _ _ (logs_trans _ _ _ _ _ Hl12 Hl) Hlh) as Hall;
      (eexists; split; [exact Hall |]); (split; [| try (intros Hok; by destruct Hdown)]);
      try (rewrite ?status_writes_app, Hquiet; history_done);
      try history_done;
      try (intros Hok; by destruct Hdown').
    intros _. exists run, arts. split; [exact Harts |]. right. right. exists e.
    split; [reflexivity |]. simpl. by rewrite <- ?app_assoc.
Qed.

Lemma get_browser_put_store (env : Env) (shop : string) (st : Store) (s : Sys) :
  get_browser_for_shop env shop (put_store st s)
  = (fst (get_browser_for_shop env shop s),
     put_store st (snd (get_browser_for_shop env shop s))).
Proof.
  unfold get_browser_for_shop, put_store. cbn [self world].
  destruct (active_browsers (self s) !! shop) as [c0 |]; [reflexivity |].
  destruct (shop_browser_map (self s) !! shop) as [bid |]; [| reflexivity].
  destruct (negb (str_truthy bid)); [reflexivity |].
  unfold bind, on_world, on_ziniao, on_page, zoom. cbn [self world ziniao].
  destruct (start_browser_logs env bid headless (ziniao (world s))) as [r0 ->].
  cbn [fst snd world ziniao self page store clock fs_tick next_oid].
  acquire_cases; reflexivity.
Qed.

Lemma get_browser_requests (env : Env) (shop : string) (s : Sys) :
  Forall (fun c => exists port, c.2 = Attach port)
    (new_requests (page (world s))
       (page (world (snd (get_browser_for_shop env shop s))))).
Proof.
  unfold get_browser_for_shop, new_requests.
  destruct (active_browsers (self s) !! shop) as [c0 |];
    [simpl; rewrite drop_all; constructor |].
  destruct (shop_browser_map (self s) !! shop) as [bid |];
    [| simpl; rewrite drop_all; constructor].
  destruct (negb (str_truthy bid)); [simpl; rewrite drop_all; constructor |].
  unfold bind, on_world, on_ziniao, on_page, zoom.
  destruct (start_browser_logs env bid headless (ziniao (world s))) as [r0 ->].
  cbn [fst snd world ziniao self page store clock fs_tick next_oid].
  acquire_cases; cbn [p_trace]; rewrite ?drop_all, ?drop_app_length;
    repeat constructor; by eexists.
Qed.

Lemma on_store_ok {A} (env : Env) (op : StoreOp) (answer : nat -> Store -> A)
    (write : nat -> Store -> Store) (logged : nat -> list Write) (s : Sys) :
  store_fault env (st_tick (store (world s))) op = None ->
  on_world (on_store (transact env op answer write logged)) s
  = (Ret (answer (st_tick (store (world s))) (store (world s))),
     put_store (committed write logged (store (world s))) s).
Proof.
  intros Hup. unfold on_world, on_store, zoom, transact. by rewrite Hup.
Qed.

Lemma provisioning_fails_none (env : Env) (shop : string) (s : Sys) :
  active_browsers (self s) !! shop = None ->
  provisioning_fails env shop s ->
  fst (get_browser_for_shop env shop s) = Ret None.
Proof.
  unfold provisioning_fails, get_browser_for_shop. intros -> Hfail.
  destruct (shop_browser_map (self s) !! shop) as [bid |]; [| reflexivity].
  destruct (str_truthy bid) eqn:Hbid; [| reflexivity]. cbn [negb].
  destruct Hfail as [Hfalse | (r & z & Hstart & Hwhy)]; [discriminate |].
  unfold bind, on_world, on_ziniao, on_page, zoom. rewrite Hstart.
  cbn [fst snd world ziniao self page store clock fs_tick next_oid].
  destruct Hwhy as [-> | ((v & Hv) & Hdirs & Hattach)]; [reflexivity |].
  destruct (negb (success r)); [reflexivity |].
  unfold major_version in *.
  destruct (truthy (sb_core_version r)); [destruct (sb_core_version r) |];
    try (unfold raise in Hv; discriminate Hv);
    unfold create_browser_controller, connect, ret;
    cbn [fst snd world ziniao self page store clock fs_tick next_oid];
    rewrite Hdirs; cbn [fst snd world ziniao self page store clock fs_tick next_oid];
    rewrite Hattach; reflexivity.
Qed.

Lemma put_store_twice (a b : Store) (s : Sys) :
  put_store a (put_store b s) = put_store a s.
Proof. reflexivity. Qed.

Lemma execute_task_no_session (env : Env) (task : Task) (s s1 : Sys) :
  worker_store_ok env ->
  get_browser_for_shop env (t_shop_id task) s = (Ret None, s1) ->
  exists st' run,
    execute_task env task s = (Ret false, put_store st' s1)
    /\ st_log st'
       = st_log (store (world s)) ++
         [SetStatus (t_id task) RUNNING None;
          NewRun run (t_id task) (worker_id (self s));
          EndRun run EmptyResult (Some (no_browser_message (t_shop_id task)));
          SetStatus (t_id task) FAILED (Some (no_browser_message (t_shop_id task)))]
    /\ board st'
       = replay [(t_id task, RUNNING); (t_id task, FAILED)] (board (store (world s)))
    /\ agent_artifacts st' = agent_artifacts (store (world s)).
Proof.
  intros Hok Hacq.
  assert (Hup : forall n, store_fault env n UpdateTask = None) by (intros n; apply Hok).
  assert (Hins : forall n, store_fault env n InsertRun = None) by (intros n; apply Hok).
  assert (Hend : forall n, store_fault env n UpdateRun = None) by (intros n; apply Hok).
  eexists _, _. split.
  - unfold execute_task, update_task_status, create_run, complete_run.
    unfold bind at 1. rewrite (on_store_ok env _ _ _ _ s (Hup _)).
    unfold bind at 1. rewrite (on_store_ok env _ _ _ _ _ (Hins _)).
    unfold try_except, bind at 1.
    rewrite !get_browser_put_store, Hacq. cbn [fst snd]. unfold raise.
    unfold bind at 1. rewrite (on_store_ok env _ _ _ _ _ (Hend _)).
    unfold bind at 1. rewrite (on_store_ok env _ _ _ _ _ (Hup _)).
    unfold ret. rewrite !put_store_twice. reflexivity.
  - cbn [committed st_log st_tick agent_tasks agent_runs agent_artifacts put_store
         store world self exn_str].
    split; [by rewrite <- !app_assoc |]. split; [| reflexivity].
    unfold board.
    cbn [committed st_log st_tick agent_tasks agent_runs agent_artifacts put_store
         store world self].
    by rewrite !board_restatus.
Qed.

(** C8.  When a task's tenant has no live handle and provisioning comes
    to nothing (no entry in the tenant table, a start call that reports
    failure, or a connectivity check that fails), the acquire returns no
    session ([None], the code's form of a provisioning failure); the
    worker, whose store answers, then marks the task running, creates the
    run, records the failure as the run's error with an empty result, and
    marks the task failed.  No artifact row is created, and the page
    sessions see no request beyond the attach attempt, so no action ran. *)
Theorem failed_provisioning_fails_task (env : Env) (task : Task) (s : Sys) :
  worker_store_ok env ->
  active_browsers (self s) !! t_shop_id task = None ->
  provisioning_fails env (t_shop_id task) s ->
  let out := execute_task env task s in
  let msg := no_browser_message (t_shop_id task) in
  fst (get_browser_for_shop env (t_shop_id task) s) = Ret None
  /\ fst out = Ret false
  /\ (exists run,
        new_writes (store (world s)) (store (world (snd out)))
        = [SetStatus (t_id task) RUNNING None;
           NewRun run (t_id task) (worker_id (self s));
           EndRun run EmptyResult (Some msg);
           SetStatus (t_id task) FAILED (Some msg)])
  /\ board (store (world (snd out)))
     = replay [(t_id task, RUNNING); (t_id task, FAILED)] (board (store (world s)))
  /\ agent_artifacts (store (world (snd out))) = agent_artifacts (store (world s))
  /\ Forall (fun c => exists port, c.2 = Attach port)
       (new_requests (page (world s)) (page (world (snd out)))).
Proof.
  intros Hok Hlive Hfail. cbv zeta.
  pose proof (provisioning_fails_none env _ s Hlive Hfail) as Hnone.
  split; [exact Hnone |].
  pose proof (get_browser_requests env (t_shop_id task) s) as Hreq.
  destruct (get_browser_for_shop env (t_shop_id task) s) as [racq s1] eqn:Hacq.
  simpl in Hnone. subst racq. cbn [snd] in Hreq.
  destruct (execute_task_no_session env task s s1 Hok Hacq)
    as (st' & run & -> & Hlog & Hboard & Harts).
  cbn [fst snd put_store world store page].
  split; [reflexivity |]. split; [| split; [exact Hboard | split; [exact Harts | exact Hreq]]].
  exists run. unfold new_writes. rewrite Hlog. apply drop_app_length.
Qed.

Lemma failed_provisioning_fails_task_witness :
  let out := execute_task calm stray_task fresh_sys in
  let msg := no_browser_message "shop_99" in
  fst (get_browser_for_shop calm "shop_99" fresh_sys) = Ret None
  /\ fst out = Ret false
  /\ (exists run,
        new_writes (store (world fresh_sys)) (store (world (snd out)))
        = [SetStatus "t9" RUNNING None;
           NewRun run "t9" "worker-01";
           EndRun run EmptyResult (Some msg);
           SetStatus "t9" FAILED (Some msg)])
  /\ board (store (world (snd out)))
     = replay [("t9", RUNNING); ("t9", FAILED)] (board (store (world fresh_sys)))
  /\ agent_artifacts (store (world (snd out))) = agent_artifacts (store (world fresh_sys))
  /\ Forall (fun c => exists port, c.2 = Attach port)
       (new_requests (page (world fresh_sys)) (page (world (snd out)))).
Proof.
  apply (failed_provisioning_fails_task calm stray_task fresh_sys).
  - intros n. repeat split; reflexivity.
  - vm_compute. reflexivity.
  - vm_compute. exact I.
Defined.

(** ** Status moves forward *)

Lemma completed_cycle_statuses (id wid : string) (r : Res bool) (l : list Write) :
  completed_cycle id wid r l ->
  exists closed,
    r = Ret closed
    /\ status_writes l = [(id, RUNNING); (id, if closed then SUCCESS else FAILED)].
Proof.
  intros (run & arts & Harts & [(res & _ & -> & ->) | [(res & _ & -> & ->) | (e & -> & ->)]]);
    eexists; (split; [reflexivity |]);
    rewrite !status_writes_app, (status_writes_artifacts arts Harts); reflexivity.
Qed.



(** ** The pool invariant across cycles *)

#[local] Instance keeps_pool_preorder : PreOrder keeps_pool.
Proof.
  split; [intros s Hwf; exact Hwf | intros s1 s2 s3 H1 H2 Hwf; by apply H2, H1].
Qed.

Lemma on_world_keeps_pool {A} (m : M World A) : frames keeps_pool (on_world m).
Proof. apply frames_zoom. by intros s w Hwf. Qed.

Lemma get_browser_frames_pool (env : Env) (shop : string) :
  frames keeps_pool (get_browser_for_shop env shop).
Proof.
  intros s r s' Hrun Hwf.
  pose proof (get_browser_keeps_pool_wf env shop s Hwf) as Hkeep.
  by rewrite Hrun in Hkeep.
Qed.

Lemma execute_task_keeps_pool (env : Env) (task : Task) :
  frames keeps_pool (execute_task env task).
Proof.
  unfold execute_task, get_action_class, locale_site.
  repeat first [ apply on_world_keeps_pool | apply get_browser_frames_pool
               | frame_step | case_match
               | intros ? ? ? ?; by eapply on_world_keeps_pool ].
Qed.

(** The invariant holds of a worker that has not acquired anything and is
    kept by every cycle. *)
Lemma pool_wf_initially (id : string) (known : gmap string string) :
  pool_wf (mkWorker id known ∅).
Proof. intros shop c Hlive. simpl in Hlive. by rewrite lookup_empty in Hlive. Qed.


(** ** Worker cycles, run *)

(** A dry run succeeds with both evidence rows. *)
Example cycle_of_a_dry_run :
  cycle_summary calm dry_task busy_sys
  = (Some true, [("t1", RUNNING); ("t1", SUCCESS)], [BEFORE; AFTER],
     [("t1", SUCCESS); ("t2", QUEUED); ("t3", QUEUED); ("t9", QUEUED)]).
Proof. vm_compute. reflexivity. Qed.

(** A payload without [new_title] is a handled failure: only "before". *)
Example cycle_of_a_rejected_payload :
  cycle_summary calm short_task busy_sys
  = (Some false, [("t2", RUNNING); ("t2", FAILED)], [BEFORE],
     [("t1", QUEUED); ("t2", FAILED); ("t3", QUEUED); ("t9", QUEUED)]).
Proof. vm_compute. reflexivity. Qed.

(** An unknown action name raises inside the worker's [try]. *)
Example cycle_of_an_unknown_action :
  cycle_summary calm unknown_task busy_sys
  = (Some false, [("t3", RUNNING); ("t3", FAILED)], [],
     [("t1", QUEUED); ("t2", QUEUED); ("t3", FAILED); ("t9", QUEUED)]).
Proof. vm_compute. reflexivity. Qed.

(** With a store that refuses to complete runs the cycle raises, and the
    task stays at running: the history is a proper prefix. *)
Example cycle_with_locked_runs :
  cycle_summary runs_locked dry_task busy_sys
  = (None, [("t1", RUNNING)], [BEFORE; AFTER],
     [("t1", RUNNING); ("t2", QUEUED); ("t3", QUEUED); ("t9", QUEUED)]).
Proof. vm_compute. reflexivity. Qed.

(** Four calls of [run_once] take the tasks in the order of the queue. *)
Example four_cycles_in_queue_order :
  let out := (a <- run_once calm ;; b <- run_once calm ;; c <- run_once calm ;;
              d <- run_once calm ;; e <- run_once calm ;; ret [a; b; c; d; e]) busy_sys in
  fst out = Ret [true; true; true; true; false]
  /\ status_writes (st_log (store (world (snd out))))
     = [("t1", RUNNING); ("t1", SUCCESS); ("t9", RUNNING); ("t9", FAILED);
        ("t2", RUNNING); ("t2", FAILED); ("t3", RUNNING); ("t3", FAILED)].
Proof. vm_compute. split; reflexivity. Qed.

(** * Further properties of the code *)

(** ** Locator texts *)

Lemma prefix_splits (p s : string) :
  String.prefix p s = true -> s = p +:+ drop_chars (String.length p) s.
Proof.
  revert s. induction p as [| a p IH]; intros s; [by destruct s |].
  destruct s as [| c s]; simpl; [done |].
  destruct (ascii_dec a c) as [-> | Hne]; [| done].
  intros Hp.
  change (String c s = String c (p +:+ drop_chars (String.length p) s)).
  f_equal. by apply IH.
Qed.

Lemma prefix_of_append (p s : string) : String.prefix p (p +:+ s) = true.
Proof.
  induction p as [| a p IH]; [by destruct s |].
  change (String.prefix (String a p) (String a (p +:+ s)) = true). simpl.
  by destruct (ascii_dec a a).
Qed.

(** X1.  [parse_locator] undoes the locator format: a selector written
    behind one of the prefixes css:, xpath:, id:, name: comes back with
    the matching strategy and the selector text unchanged, whatever the
    selector is.  And whatever text it is given, it only ever strips one
    of these four prefixes or nothing: the input is the stripped prefix
    followed by the selector it returns. *)
Theorem parse_locator_round_trip (sel locator_str : string) :
  parse_locator ("css:" +:+ sel) = (CSS_SELECTOR, sel)
  /\ parse_locator ("xpath:" +:+ sel) = (XPATH, sel)
  /\ parse_locator ("id:" +:+ sel) = (ID, sel)
  /\ parse_locator ("name:" +:+ sel) = (NAME, sel)
  /\ exists p, p ∈ "" :: locator_prefixes
               /\ locator_str = p +:+ snd (parse_locator locator_str).
Proof.
  split; [| split; [| split; [| split]]].
  - unfold parse_locator. by rewrite (prefix_of_append "css:" sel).
  - unfold parse_locator. by rewrite (prefix_of_append "xpath:" sel).
  - unfold parse_locator. by rewrite (prefix_of_append "id:" sel).
  - unfold parse_locator. by rewrite (prefix_of_append "name:" sel).
  - unfold parse_locator, locator_prefixes.
    destruct (String.prefix "css:" locator_str) eqn:Hcss.
    { exists "css:". split; [by repeat constructor |]. by apply (prefix_splits "css:"). }
    destruct (String.prefix "xpath:" locator_str) eqn:Hxpath.
    { exists "xpath:". split; [by repeat constructor |]. by apply (prefix_splits "xpath:"). }
    destruct (String.prefix "id:" locator_str) eqn:Hid.
    { exists "id:". split; [by repeat constructor |]. by apply (prefix_splits "id:"). }
    destruct (String.prefix "name:" locator_str) eqn:Hname.
    { exists "name:". split; [by repeat constructor |]. by apply (prefix_splits "name:"). }
    exists "". split; [by repeat constructor | reflexivity].
Qed.

(** ** More rules for the monad *)

Lemma frames_try_except_class {S A} (R : S -> S -> Prop) `{!PreOrder R}
    (c : ExnClass) (m h : M S A) :
  frames R m -> frames R h -> frames R (try_except_class c m h).
Proof.
  intros Hm Hh s r s'. unfold try_except_class.
  destruct (m s) as [[a | e] s1] eqn:Hrun.
  - intros [= _ <-]. by eapply Hm.
  - destruct (bool_decide (exn_class e = c)).
    + intros Hout. transitivity s1; [by eapply Hm | by eapply Hh].
    + intros [= _ <-]. by eapply Hm.
Qed.

(** A computation that hands back the state it was given. *)
Lemma frames_still {S A} (R : S -> S -> Prop) `{!Reflexive R} (m : M S A) :
  (forall s, snd (m s) = s) -> frames R m.
Proof. intros Hstill s r s' Hrun. specialize (Hstill s). rewrite Hrun in Hstill. by subst. Qed.

Lemma loc_still {S} (locators : gmap string PyVal) (keys : list string) (s : S) :
  snd (loc locators keys s) = s.
Proof. unfold loc. by repeat case_match. Qed.

Lemma cfg_get2_still {S} (locators : gmap string PyVal) (k1 k2 : string) (s : S) :
  snd (cfg_get2 locators k1 k2 s) = s.
Proof. unfold cfg_get2. by repeat case_match. Qed.

Lemma subscript_still {S} (payload : gmap string PyVal) (key : string) (s : S) :
  snd (subscript payload key s) = s.
Proof. unfold subscript. by case_match. Qed.

Section Yields.
Context {S A : Type} (P : A -> Prop).

Lemma yields_ret (a : A) : P a -> yields P (@ret S A a).
Proof. by intros Ha s a' s' [= <- _]. Qed.

Lemma yields_raise (e : Exn) : yields P (@raise S A e).
Proof. by intros s a s'. Qed.

Lemma yields_bind {B} (m : M S B) (k : B -> M S A) :
  (forall b, yields P (k b)) -> yields P (bind m k).
Proof.
  intros Hk s a s'. unfold bind. destruct (m s) as [[b | e] s1]; [| done].
  by apply Hk.
Qed.

Lemma yields_try_except (m : M S A) (h : Exn -> M S A) :
  yields P m -> (forall e, yields P (h e)) -> yields P (try_except m h).
Proof.
  intros Hm Hh s a s'. unfold try_except. destruct (m s) as [[b | e] s1] eqn:Hrun.
  - intros [= <- <-]. by eapply Hm.
  - by apply Hh.
Qed.

End Yields.

(** One structural step of a proof about what a computation returns. *)
Ltac yields_step :=
  first
    [ apply yields_raise
    | apply yields_bind; intros ?
    | apply yields_try_except; [| intros ?]
    | match goal with |- yields _ (if ?c then _ else _) => destruct c end
    | match goal with |- yields _ (match ?x with _ => _ end) => destruct x end ].

Lemma frames_zoom_rel {S T A} (R : S -> S -> Prop) (RT : T -> T -> Prop)
    (get : S -> T) (set : T -> S -> S) (m : M T A) :
  frames RT m -> (forall s t, RT (get s) t -> R s (set t s)) -> frames R (zoom get set m).
Proof.
  intros Hm Hset s r s'. unfold zoom. destruct (m (get s)) as [r1 t1] eqn:Hrun.
  intros [= _ <-]. apply Hset. by eapply Hm.
Qed.

(** ** The requests an action sends *)

#[local] Instance sends_preorder (Q : nat * Request -> Prop) : PreOrder (sends Q).
Proof.
  split.
  - intros p. exists []. by rewrite app_nil_r.
  - intros p1 p2 p3 (l1 & H1 & F1) (l2 & H2 & F2). exists (l1 ++ l2).
    split; [by rewrite H2, H1, app_assoc | by apply Forall_app].
Qed.

#[local] Instance on_fst_preorder {T U} (R : T -> T -> Prop) `{!PreOrder R} :
  PreOrder (@on_fst T U R).
Proof.
  split; [intros s; unfold on_fst; reflexivity |].
  intros s1 s2 s3 H1 H2. unfold on_fst in *. by transitivity (fst s2).
Qed.

Lemma sends_new_requests (Q : nat * Request -> Prop) (p p' : Page) :
  sends Q p p' -> Forall Q (new_requests p p').
Proof. intros (l & Hl & HQ). unfold new_requests. by rewrite Hl, drop_app_length. Qed.

Lemma sends_weaken (Q Q' : nat * Request -> Prop) (p p' : Page) :
  (forall c, Q c -> Q' c) -> sends Q p p' -> sends Q' p p'.
Proof.
  intros Himp (l & Hl & HQ). exists l. split; [done |]. by eapply Forall_impl.
Qed.

Lemma request_sends (Q : nat * Request -> Prop) (env : Env) (b : BrowserController)
    (r : Request) :
  Q (oid b, r) -> frames (sends Q) (request env b r).
Proof.
  intros HQ p res p'. unfold request.
  destruct (driver_fault env (p_tick p) r); intros [= _ <-];
    exists [(oid b, r)]; by repeat constructor.
Qed.

Lemma loc_frames {S} (R : S -> S -> Prop) `{!Reflexive R}
    (locators : gmap string PyVal) (keys : list string) :
  frames R (loc locators keys).
Proof. apply frames_still; [done |]. intros s. apply loc_still. Qed.

Lemma cfg_get2_frames {S} (R : S -> S -> Prop) `{!Reflexive R}
    (locators : gmap string PyVal) (k1 k2 : string) :
  frames R (cfg_get2 locators k1 k2).
Proof. apply frames_still; [done |]. intros s. apply cfg_get2_still. Qed.

Lemma subscript_frames {S} (R : S -> S -> Prop) `{!Reflexive R}
    (payload : gmap string PyVal) (key : string) :
  frames R (subscript payload key).
Proof. apply frames_still; [done |]. intros s. apply subscript_still. Qed.

(** One step of a proof about the requests a computation sends; a request
    leaves the side condition that it is an allowed one. *)
Ltac trace_step :=
  first
    [ apply frames_ret; apply _
    | apply frames_raise; apply _
    | apply loc_frames; apply _
    | apply cfg_get2_frames; apply _
    | apply subscript_frames; apply _
    | apply request_sends
    | match goal with
      | |- frames _ (bind _ _) => apply frames_bind; [apply _ | | intros ?]
      | |- frames _ (try_except_class _ _ _) =>
          apply frames_try_except_class; [apply _ | | ]
      | |- frames _ (try_except _ _) => apply frames_try_except; [apply _ | | intros ?]
      end
    | match goal with |- frames _ (if ?c then _ else _) => destruct c end
    | match goal with |- frames _ (match ?x with _ => _ end) => destruct x end ].

Ltac unfold_controller :=
  unfold navigate, wait_for_element, wait_and_click, safe_send_keys, get_text,
    get_attribute, execute_script, check_element_exists, scroll_to_element.

Lemma update_title_sends (env : Env) (b : BrowserController)
    (locators : gmap string PyVal) (context : ActionContext)
    (payload : gmap string PyVal) :
  frames (sends (own b)) (UpdateTitleAction._do_action env b locators context payload).
Proof.
  unfold UpdateTitleAction._do_action, UpdateTitleAction._search_product,
    UpdateTitleAction._click_edit_button, UpdateTitleAction._update_title_field,
    UpdateTitleAction._click_save.
  unfold_controller.
  repeat trace_step; reflexivity.
Qed.

Lemma fetch_ads_summary_sends (env : Env) (b : BrowserController)
    (locators : gmap string PyVal) (context : ActionContext)
    (payload : gmap string PyVal) :
  frames (sends (ads_request b))
    (FetchAdsSummaryAction._do_action env b locators context payload).
Proof.
  assert (forall fs metrics,
            frames (sends (ads_request b))
              (FetchAdsSummaryAction.read_metrics env b locators fs metrics)) as Hread.
  { induction fs as [| [metric_name locator_key] rest IH]; intros metrics; simpl.
    - apply frames_ret; apply _.
    - unfold_controller. repeat first [ apply IH | trace_step ]; by split. }
  unfold FetchAdsSummaryAction._do_action, FetchAdsSummaryAction._select_date_range,
    FetchAdsSummaryAction._extract_summary_data,
    FetchAdsSummaryAction._extract_by_fallback, FetchAdsSummaryAction.range_key.
  unfold_controller.
  repeat first [ apply Hread | trace_step ]; by split.
Qed.

Lemma extract_rows_sends (Q : nat * Request -> Prop) (env : Env) (b : BrowserController)
    (rows : list Element) (i : nat) :
  (forall row i, frames (sends Q)
                   (FetchProductSnapshotAction._extract_product_from_row env b row i)) ->
  frames (on_fst (sends Q)) (FetchProductSnapshotAction.extract_rows env b rows i).
Proof.
  intros Hrow. revert i. induction rows as [| row rest IH]; intros i; simpl.
  - apply frames_ret; apply _.
  - apply frames_bind; [apply _ | | intros product].
    + eapply frames_zoom_rel; [apply Hrow | by intros s t].
    + apply frames_bind; [apply _ | | intros _; apply IH].
      destruct product; [| apply frames_ret; apply _].
      intros s r s' [= _ <-]. unfold on_fst. reflexivity.
Qed.

Lemma fetch_product_snapshot_sends (env : Env) (b : BrowserController)
    (locators : gmap string PyVal) (context : ActionContext)
    (payload : gmap string PyVal) :
  frames (sends (snapshot_request b
                   (truthy (default (VStr "") (payload !! "keyword")))))
    (FetchProductSnapshotAction._do_action env b locators context payload).
Proof.
  set (typing := truthy (default (VStr "") (payload !! "keyword"))).
  assert (forall limit,
            frames (sends (snapshot_request b typing))
              (FetchProductSnapshotAction._extract_products env b locators limit))
    as Hextract.
  { intros limit. unfold FetchProductSnapshotAction._extract_products.
    apply frames_bind; [apply _ | apply loc_frames; apply _ | intros row_loc].
    intros p r p'.
    destruct (try_except _ _ (p, @nil PyVal)) as [r1 [p1 products]] eqn:Hrun.
    intros [= _ <-].
    change (on_fst (sends (snapshot_request b typing)) (p, @nil PyVal) (p1, products)).
    revert Hrun. apply frames_try_except; [apply _ | | intros e; apply frames_ret; apply _].
    apply frames_bind; [apply _ | | intros t].
    { eapply frames_zoom_rel; [apply request_sends | by intros s u]. by split. }
    apply frames_bind; [apply _ | | intros rows].
    { intros s r2 s'. by destruct (slice_to limit _); intros [= _ <-]. }
    apply extract_rows_sends. intros row i.
    unfold FetchProductSnapshotAction._extract_product_from_row,
      FetchProductSnapshotAction.cell_text.
    repeat trace_step; by split. }
  unfold FetchProductSnapshotAction._do_action,
    FetchProductSnapshotAction._search_product.
  cbv zeta. fold typing. unfold_controller.
  destruct typing;
    repeat first [ apply Hextract | trace_step ]; by split.
Qed.

Lemma frames_weaken {S A} (R R' : S -> S -> Prop) (m : M S A) :
  (forall s s', R s s' -> R' s s') -> frames R m -> frames R' m.
Proof. intros Himp Hm s r s' Hrun. by eapply Himp, Hm. Qed.

Lemma registered_sends_own (env : Env) (name : string) (a : BaseAction)
    (b : BrowserController) (locators : gmap string PyVal) (context : ActionContext)
    (payload : gmap string PyVal) :
  ACTION_REGISTRY env !! name = Some a ->
  frames (sends (own b)) (_do_action a b locators context payload).
Proof.
  intros Hreg. destruct (registered_actions env name a Hreg) as [-> | [-> | ->]]; simpl.
  - eapply frames_weaken; [| apply fetch_ads_summary_sends].
    intros p p'. apply sends_weaken. by intros c [Hown _].
  - apply update_title_sends.
  - eapply frames_weaken; [| apply fetch_product_snapshot_sends].
    intros p p'. apply sends_weaken. by intros c [Hown _].
Qed.

#[local] Instance on_page_of_preorder (R : Page -> Page -> Prop) `{!PreOrder R} :
  PreOrder (on_page_of R).
Proof.
  split; [intros w; unfold on_page_of; reflexivity |].
  intros w1 w2 w3 H1 H2. unfold on_page_of in *. by transitivity (page w2).
Qed.

Lemma on_page_sends {A} (Q : nat * Request -> Prop) (m : M Page A) :
  frames (sends Q) m -> frames (on_page_of (sends Q)) (on_page m).
Proof. intros Hm. eapply frames_zoom_rel; [exact Hm | by intros w p]. Qed.

Lemma on_store_sends {A} (Q : nat * Request -> Prop) (m : M Store A) :
  frames (on_page_of (sends Q)) (on_store m).
Proof. apply frames_zoom. intros w st. unfold on_page_of. simpl. reflexivity. Qed.

Lemma time_time_sends (Q : nat * Request -> Prop) :
  frames (on_page_of (sends Q)) time_time.
Proof. intros w r w' [= _ <-]. unfold on_page_of. simpl. reflexivity. Qed.

Lemma capture_sends (env : Env) (b : BrowserController) (run stage : string)
    (type : ArtifactType) :
  frames (on_page_of (sends (own b))) (capture env b run stage type).
Proof.
  unfold capture.
  repeat first [ apply on_store_sends | trace_step ].
  apply on_page_sends. unfold screenshot_evidence, screenshot.
  intros p. apply frames_bind; [apply _ | by apply request_sends |].
  intros _. apply frames_ret; apply _.
Qed.

Lemma execute_sends_own (env : Env) (name : string) (a : BaseAction)
    (b : BrowserController) (has_store : bool) (context : ActionContext)
    (payload : gmap string PyVal) :
  ACTION_REGISTRY env !! name = Some a ->
  frames (on_page_of (sends (own b))) (execute env a b has_store context payload).
Proof.
  intros Hreg. unfold execute.
  repeat first [ apply time_time_sends | apply capture_sends
               | apply on_page_sends; by eapply registered_sends_own
               | trace_step ].
Qed.

(** X2.  Whatever the environment answers, [fetch_ads_summary] only sends,
    through the controller it was given, the page load, waits, text reads,
    the page source and clicks on located elements: it never types and
    never runs a script.  [fetch_product_snapshot] only sends the page
    load and reads of rows, cells and attributes, plus, when the payload
    holds a non-empty keyword, the wait, clear and typing of the search:
    it never clicks and never runs a script. *)
Theorem fetch_actions_allowed_requests (env : Env) (b : BrowserController)
    (locators : gmap string PyVal) (context : ActionContext)
    (payload : gmap string PyVal) (p : Page) :
  Forall (ads_request b)
    (new_requests p
       (snd (FetchAdsSummaryAction._do_action env b locators context payload p)))
  /\ Forall (snapshot_request b (truthy (default (VStr "") (payload !! "keyword"))))
       (new_requests p
          (snd (FetchProductSnapshotAction._do_action env b locators context payload p))).
Proof.
  split; apply sends_new_requests.
  - destruct (FetchAdsSummaryAction._do_action env b locators context payload p)
      as [r p'] eqn:Hrun.
    by eapply fetch_ads_summary_sends.
  - destruct (FetchProductSnapshotAction._do_action env b locators context payload p)
      as [r p'] eqn:Hrun.
    by eapply fetch_product_snapshot_sends.
Qed.

(** X3.  Without a keyword in the payload (absent, empty, or any falsy
    value) [fetch_product_snapshot] changes nothing on the page: none of
    its requests is a click, a clear, a typing or a script. *)
Theorem fetch_product_snapshot_without_keyword_reads_only (env : Env)
    (b : BrowserController) (locators : gmap string PyVal) (context : ActionContext)
    (payload : gmap string PyVal) (p : Page) :
  truthy (default (VStr "") (payload !! "keyword")) = false ->
  Forall (fun c => mutating c.2 = false)
    (new_requests p
       (snd (FetchProductSnapshotAction._do_action env b locators context payload p))).
Proof.
  intros Hkey.
  destruct (FetchProductSnapshotAction._do_action env b locators context payload p)
    as [r p'] eqn:Hrun.
  pose proof (fetch_product_snapshot_sends env b locators context payload p r p' Hrun)
    as Hsends.
  rewrite Hkey in Hsends. apply sends_new_requests in Hsends.
  eapply Forall_impl; [exact Hsends |].
  intros [o req] [_ Hreq]. simpl in *. by destruct req.
Qed.

Lemma fetch_product_snapshot_without_keyword_reads_only_witness :
  Forall (fun c => mutating c.2 = false)
    (new_requests empty_page
       (snd (FetchProductSnapshotAction._do_action calm chrome SHOPEE_ID dry_context
               {[ "limit" := VInt 3 ]} empty_page))).
Proof.
  apply (fetch_product_snapshot_without_keyword_reads_only calm chrome SHOPEE_ID
           dry_context {[ "limit" := VInt 3 ]} empty_page).
  reflexivity.
Defined.

(** ** Outcomes *)

(** [UpdateTitleAsCalled] is [UpdateTitleAction], spelt out. *)
Lemma update_title_as_called (env : Env) :
  UpdateTitleAsCalled.cls env = UpdateTitleAction.cls env.
Proof. reflexivity. Qed.

Lemma yields_bind_post {S A B} (P : A -> Prop) (Q : B -> Prop) (m : M S B)
    (k : B -> M S A) :
  yields Q m -> (forall b, Q b -> yields P (k b)) -> yields P (bind m k).
Proof.
  intros Hm Hk s a s'. unfold bind. destruct (m s) as [[b | e] s1] eqn:Hrun; [| done].
  apply Hk. by eapply Hm.
Qed.

Lemma yields_zoom {S T A} (P : A -> Prop) (get : S -> T) (set : T -> S -> S)
    (m : M T A) :
  yields P m -> yields P (zoom get set m).
Proof.
  intros Hm s a s'. unfold zoom. destruct (m (get s)) as [r t1] eqn:Hrun.
  intros [= -> _]. by eapply Hm.
Qed.

Lemma failed_result_well_formed (codes : list string) (name code message : string) :
  code ∈ codes -> inner_outcome codes name (failed_result name code message).
Proof.
  intros Hcode. split; [| done]. split; [done |]. simpl.
  split; [by exists code |]. by split.
Qed.

Lemma ok_result_well_formed (codes : list string) (name : string)
    (d : gmap string PyVal) :
  inner_outcome codes name (ok_result name d).
Proof. split; [| done]. split; [done |]. simpl. by repeat split. Qed.

Lemma action_codes_elem (code : string) :
  bool_decide (code ∈ action_codes) = true -> code ∈ action_codes.
Proof. apply bool_decide_eq_true_1. Qed.

Ltac outcome_leaf :=
  apply yields_ret;
  first [ apply ok_result_well_formed
        | apply failed_result_well_formed; by apply action_codes_elem ].

Lemma fetch_ads_summary_outcomes (env : Env) (b : BrowserController)
    (locators : gmap string PyVal) (context : ActionContext)
    (payload : gmap string PyVal) :
  yields (inner_outcome action_codes "fetch_ads_summary")
    (FetchAdsSummaryAction._do_action env b locators context payload).
Proof.
  unfold FetchAdsSummaryAction._do_action. cbv zeta.
  repeat first [ outcome_leaf | yields_step ].
Qed.

Lemma fetch_product_snapshot_outcomes (env : Env) (b : BrowserController)
    (locators : gmap string PyVal) (context : ActionContext)
    (payload : gmap string PyVal) :
  yields (inner_outcome action_codes "fetch_product_snapshot")
    (FetchProductSnapshotAction._do_action env b locators context payload).
Proof.
  unfold FetchProductSnapshotAction._do_action. cbv zeta.
  repeat first [ outcome_leaf | yields_step ].
Qed.

Lemma update_title_outcomes (env : Env) (b : BrowserController)
    (locators : gmap string PyVal) (context : ActionContext)
    (payload : gmap string PyVal) :
  yields (inner_outcome action_codes "update_title")
    (UpdateTitleAsCalled._do_action env b locators context payload).
Proof.
  unfold UpdateTitleAsCalled._do_action. cbv zeta.
  destruct (_validate_payload payload ["product_id"; "new_title"]) as [message |] eqn:Hv.
  - destruct (opt_truthy (Some message)).
    + apply yields_ret. split; [| done]. split; [done |]. simpl.
      split; [exists "VALIDATION_ERROR"; split; [done |]; by apply action_codes_elem |].
      by split.
    + repeat first [ outcome_leaf | yields_step ].
  - simpl. repeat first [ outcome_leaf | yields_step ].
Qed.

Lemma capture_path_truthy (env : Env) (b : BrowserController) (run stage : string)
    (type : ArtifactType) :
  yields (fun shot => str_truthy shot = true) (capture env b run stage type).
Proof.
  unfold capture. apply yields_bind_post with (Q := fun shot => str_truthy shot = true).
  - apply yields_zoom. unfold screenshot_evidence, screenshot.
    intros p shot p'. unfold bind. destruct (request env b _ p) as [[n | e] p1]; [| done].
    by intros [= <- _].
  - intros shot Hshot. apply yields_bind. intros _. by apply yields_ret.
Qed.

Lemma inner_code_not_exception (name : string) (r : ActionResult) :
  inner_outcome action_codes name r -> ok r = false ->
  bool_decide (error_code r = Some "EXCEPTION") = false.
Proof.
  intros [[_ Hwf] _] Hok. rewrite Hok in Hwf. destruct Hwf as ((code & -> & Hcode) & _).
  apply bool_decide_eq_false_2. intros [= ->].
  by apply (bool_decide_eq_false_1 ("EXCEPTION" ∈ action_codes)) in Hcode.
Qed.

(** X4.  The inner logic of each of the three shipped actions, with its
    calls as Python evaluates them, returns only well-formed outcomes under
    the name it is registered with: a success carries data and no error; a
    failure carries a message, no data and one of the nine error codes;
    neither carries an evidence reference or a timing yet. *)
Theorem shipped_actions_outcomes (env : Env) :
  Forall (fun entry =>
            action_name entry.2 = entry.1
            /\ forall b locators context payload,
                 yields (inner_outcome action_codes entry.1)
                   (_do_action entry.2 b locators context payload))
    (shipped_actions env).
Proof.
  unfold shipped_actions.
  apply Forall_cons. split.
  { split; [done |]. intros b locators context payload.
    apply fetch_ads_summary_outcomes. }
  apply Forall_cons. split.
  { split; [done |]. intros b locators context payload. apply update_title_outcomes. }
  apply Forall_cons. split; [| constructor].
  split; [done |]. intros b locators context payload.
  apply fetch_product_snapshot_outcomes.
Qed.

(** X5.  The template hands on well-formed outcomes: for an action whose
    inner logic returns well-formed outcomes under its name, every outcome
    [execute] returns carries that name and the elapsed time, and is a
    success with data and no error or a failure with a message, no data
    and one of the action's codes or EXCEPTION.  Its evidence reference
    names the before and after shots on a success and the error shot on a
    converted exception, each only with a store attached, and is absent on
    a handled failure. *)
Theorem execute_outcome_well_formed (env : Env) (name : string) (a : BaseAction)
    (b : BrowserController) (has_store : bool) (context : ActionContext)
    (payload : gmap string PyVal) :
  action_name a = name ->
  (forall locators,
      yields (inner_outcome action_codes name) (_do_action a b locators context payload)) ->
  yields (fun r => well_formed ("EXCEPTION" :: action_codes) name r
                   /\ is_Some (timing_ms r)
                   /\ evidence_shape has_store r)
    (execute env a b has_store context payload).
Proof.
  intros Hname Hinner_ok. unfold execute.
  apply yields_bind. intros start_time.
  apply yields_bind_post
    with (Q := fun before => if has_store then is_Some before else before = None).
  { destruct has_store; [| by apply yields_ret].
    apply yields_bind. intros shot. by apply yields_ret. }
  intros before Hbefore. apply yields_try_except.
  - apply yields_bind_post with (Q := inner_outcome action_codes name).
    { apply yields_zoom. apply Hinner_ok. }
    intros result Hinner.
    apply yields_bind_post
      with (Q := fun r => well_formed ("EXCEPTION" :: action_codes) name r
                          /\ evidence_shape has_store r).
    + pose proof Hinner as [[Hact Hwf] [Hev _]].
      destruct (ok result) eqn:Hok.
      * destruct has_store; simpl.
        -- apply yields_bind. intros after. apply yields_ret.
           destruct Hbefore as [shot ->].
           split; [split; [done |]; simpl; by rewrite Hok |].
           unfold evidence_shape. simpl. rewrite Hok. by eexists _, _.
        -- apply yields_ret. split; [split; [done |]; by rewrite Hok |].
           unfold evidence_shape. by rewrite Hok.
      * rewrite andb_false_r. apply yields_ret.
        split.
        -- split; [done |]. rewrite Hok.
           destruct Hwf as ((code & Hc & Hcode) & Hrest). split; [| done].
           exists code. split; [done |]. by apply list_elem_of_further.
        -- unfold evidence_shape. rewrite Hok.
           rewrite (inner_code_not_exception name result Hinner Hok). done.
    + intros r [Hwf Hshape]. apply yields_bind. intros now. apply yields_ret.
      split; [exact Hwf |]. split; [by eexists | exact Hshape].
  - intros e.
    apply yields_bind_post
      with (Q := fun shot => if has_store
                             then exists path, shot = Some path /\ str_truthy path = true
                             else shot = None).
    { destruct has_store; [| by apply yields_ret].
      apply yields_bind_post with (Q := fun shot => str_truthy shot = true);
        [apply capture_path_truthy |].
      intros shot Hshot. apply yields_ret. by exists shot. }
    intros shot Hshot. apply yields_bind. intros now. apply yields_ret.
    split; [| split; [by eexists |]].
    + split; [exact Hname |]. simpl. split; [| done].
      exists "EXCEPTION". split; [done |]. apply list_elem_of_here.
    + unfold evidence_shape. simpl.
      destruct has_store; [| by rewrite Hshot].
      destruct Hshot as (path & -> & Hpath). simpl. rewrite Hpath. by exists path.
Qed.

Lemma execute_outcome_well_formed_witness :
  yields (fun r => well_formed ("EXCEPTION" :: action_codes) "update_title" r
                   /\ is_Some (timing_ms r)
                   /\ evidence_shape true r)
    (execute calm (UpdateTitleAsCalled.cls calm) chrome true live_context title_payload).
Proof.
  apply (execute_outcome_well_formed calm "update_title" (UpdateTitleAsCalled.cls calm)
           chrome true live_context title_payload).
  - reflexivity.
  - intros locators. apply update_title_outcomes.
Defined.

(** ** Tenants and their controllers *)

Lemma get_browser_acquired (env : Env) (shop : string) (s s1 : Sys)
    (r : Res (option BrowserController)) :
  get_browser_for_shop env shop s = (r, s1) -> acquired shop r s s1.
Proof.
  unfold get_browser_for_shop.
  destruct (active_browsers (self s) !! shop) as [c0 |] eqn:Hlive.
  { intros [= <- <-]. left. repeat split; [lia | by intros c [= <-] | reflexivity]. }
  destruct (shop_browser_map (self s) !! shop) as [bid |].
  2: { intros [= <- <-]. left. repeat split; [lia | done | reflexivity]. }
  destruct (negb (str_truthy bid)).
  { intros [= <- <-]. left. repeat split; [lia | done | reflexivity]. }
  unfold bind, on_world, on_ziniao, on_page, zoom.
  destruct (start_browser_logs env bid headless (ziniao (world s))) as [r0 ->].
  cbn [fst snd world ziniao].
  acquire_cases; intros [= <- <-];
    cbn [self world page next_oid active_browsers shop_browser_map worker_id p_trace].
  all: first
    [ left; simpl; split; [reflexivity |]; split; [lia |]; split; [done |];
      first [ reflexivity
            | eexists [_]; split; [reflexivity | by repeat constructor] ]
    | right; simpl; eexists; split; [reflexivity |]; split; [done |];
      split; [reflexivity |]; split; [reflexivity |]; split; [reflexivity |];
      eexists [_]; split; [reflexivity | by repeat constructor] ].
Qed.

#[local] Instance acts_preorder (Q : nat * Request -> Prop) : PreOrder (acts Q).
Proof.
  split.
  - intros s. by repeat split.
  - intros s1 s2 s3 (Hs1 & Ho1 & Hp1) (Hs2 & Ho2 & Hp2).
    split; [congruence |]. split; [congruence |]. by transitivity (page (world s2)).
Qed.

Lemma acts_store {A} (Q : nat * Request -> Prop) (m : M Store A) :
  frames (acts Q) (on_world (on_store m)).
Proof.
  intros s r s'. unfold on_world, on_store, zoom.
  destruct (m (store (world s))) as [r1 st1]. intros [= _ <-]. by repeat split.
Qed.

Lemma acts_execute (env : Env) (name : string) (a : BaseAction) (b : BrowserController)
    (has_store : bool) (context : ActionContext) (payload : gmap string PyVal) :
  ACTION_REGISTRY env !! name = Some a ->
  frames (acts (own b)) (on_world (execute env a b has_store context payload)).
Proof.
  intros Hreg s r s'. unfold on_world, zoom.
  destruct (execute env a b has_store context payload (world s)) as [r1 w1] eqn:Hrun.
  intros [= _ <-]. split; [done |]. simpl.
  split; [by apply (execute_frame env a b has_store context payload _ _ _ Hrun) |].
  by apply (execute_sends_own env name a b has_store context payload Hreg _ _ _ Hrun).
Qed.

Lemma frames_bind_post {S A B} (R : S -> S -> Prop) `{!PreOrder R} (Q : A -> Prop)
    (m : M S A) (k : A -> M S B) :
  yields Q m -> frames R m -> (forall a, Q a -> frames R (k a)) -> frames R (bind m k).
Proof.
  intros HQ Hm Hk s r s'. unfold bind.
  destruct (m s) as [[a | e] s1] eqn:Hrun; intros Hout.
  - transitivity s1; [by eapply Hm |]. eapply Hk; [by eapply HQ | done].
  - injection Hout as _ <-. by eapply Hm.
Qed.

Lemma isolated_acquired (shop : string) (r : Res (option BrowserController))
    (s s1 : Sys) :
  acquired shop r s s1 -> isolated shop s s1.
Proof.
  intros [(Hself & Hoid & _ & Hsend) | (c & -> & Hnone & Hc & Hnext & Hself & Hsend)]
    [Hbound Hinj].
  - split; [split |]; rewrite ?Hself.
    + intros shop0 c Hlive. apply Hbound in Hlive. lia.
    + exact Hinj.
    + split; [done |]. eapply sends_weaken; [| exact Hsend].
      intros req Hreq (other & ctrl & _ & Hlive & Heq). rewrite Hself in Hlive.
      apply Hbound in Hlive. simpl in *. lia.
  - split; [split |]; rewrite ?Hself; cbn [active_browsers].
    + intros shop0 c0 Hlive. rewrite Hnext.
      apply lookup_insert_Some in Hlive as [[_ <-] | [_ Hlive]]; [lia |].
      apply Hbound in Hlive. lia.
    + intros shop1 shop2 c1 c2 H1 H2 Heq.
      apply lookup_insert_Some in H1 as [[<- <-] | [_ H1]];
        apply lookup_insert_Some in H2 as [[<- <-] | [_ H2]]; try done.
      * apply Hbound in H2. lia.
      * apply Hbound in H1. lia.
      * by eapply Hinj.
    + split; [by apply insert_subseteq |]. eapply sends_weaken; [| exact Hsend].
      intros req Hreq (other & ctrl & Hother & Hlive & Heq). rewrite Hself in Hlive.
      cbn [active_browsers] in Hlive. rewrite lookup_insert_ne in Hlive by done.
      apply Hbound in Hlive. unfold own in Hreq. simpl in *. lia.
Qed.

Lemma acquired_live (shop : string) (b : BrowserController) (s s1 : Sys) :
  acquired shop (Ret (Some b)) s s1 -> active_browsers (self s1) !! shop = Some b.
Proof.
  intros [(Hself & _ & Hlive & _) | (c & [= <-] & _ & _ & _ & Hself & _)];
    rewrite Hself.
  - by apply Hlive.
  - apply lookup_insert_eq.
Qed.

Lemma isolated_acts (shop : string) (b : BrowserController) (s s1 s2 : Sys) :
  acquired shop (Ret (Some b)) s s1 -> acts (own b) s1 s2 -> isolated shop s s2.
Proof.
  intros Hacq (Hself & Hoid & Hsend) Hfresh.
  pose proof (acquired_live shop b s s1 Hacq) as Hlive.
  destruct (isolated_acquired shop _ s s1 Hacq Hfresh) as ([Hbound Hinj] & Hsub & Hs1).
  split; [split |]; rewrite ?Hself, ?Hoid; [done | done |].
  split; [done |]. transitivity (page (world s1)).
  - eapply sends_weaken; [| exact Hs1].
    intros req Hreq (other & ctrl & Hother & Hl & Heq). apply Hreq.
    exists other, ctrl. by rewrite <- Hself.
  - eapply sends_weaken; [| exact Hsend].
    intros req Hreq (other & ctrl & Hother & Hl & Heq). rewrite Hself in Hl.
    apply Hother. eapply Hinj; [exact Hl | exact Hlive |]. unfold own in Hreq. congruence.
Qed.

Lemma isolated_quiet_l (shop : string) (s s0 s' : Sys) :
  acts (fun _ => False) s s0 -> isolated shop s0 s' -> isolated shop s s'.
Proof.
  intros (Hself & Hoid & Hsend) Hiso [Hbound Hinj].
  destruct Hiso as (Hfresh & Hsub & Hs).
  { split; rewrite ?Hself, ?Hoid; done. }
  split; [done |]. split; [by rewrite <- Hself |].
  transitivity (page (world s0)); [| done].
  eapply sends_weaken; [| exact Hsend]. done.
Qed.

Lemma isolated_quiet_r (shop : string) (s s1 s' : Sys) :
  isolated shop s s1 -> acts (fun _ => False) s1 s' -> isolated shop s s'.
Proof.
  intros Hiso (Hself & Hoid & Hsend) Hfresh.
  destruct (Hiso Hfresh) as ([Hbound Hinj] & Hsub & Hs).
  split; [split; rewrite ?Hself, ?Hoid; done |].
  split; [by rewrite Hself |].
  transitivity (page (world s1)).
  - eapply sends_weaken; [| exact Hs].
    intros req Hreq (other & ctrl & Hother & Hl & Heq). apply Hreq.
    exists other, ctrl. by rewrite <- Hself.
  - eapply sends_weaken; [| exact Hsend]. done.
Qed.

Lemma isolated_quiet (shop : string) (s s' : Sys) :
  acts (fun _ => False) s s' -> isolated shop s s'.
Proof.
  intros Hquiet. eapply isolated_quiet_l; [exact Hquiet |].
  intros Hfresh. split; [done |]. split; [done |]. reflexivity.
Qed.

Lemma get_action_class_registered {S} (env : Env) (name : string) :
  yields (fun a => ACTION_REGISTRY env !! name = Some a) (@get_action_class S env name).
Proof.
  intros s a s'. unfold get_action_class.
  destruct (ACTION_REGISTRY env !! name); [by intros [= <- _] | done].
Qed.

Lemma get_action_class_frames {S} (R : S -> S -> Prop) `{!Reflexive R} (env : Env)
    (name : string) :
  frames R (get_action_class env name).
Proof.
  apply frames_still; [done |]. intros s. unfold get_action_class. by case_match.
Qed.

Lemma locale_site_frames {S} (R : S -> S -> Prop) `{!Reflexive R}
    (payload : gmap string PyVal) :
  frames R (locale_site payload).
Proof.
  apply frames_still; [done |]. intros s. unfold locale_site. by case_match.
Qed.

Lemma execute_task_isolated (env : Env) (task : Task) (s s' : Sys) (r : Res bool) :
  execute_task env task s = (r, s') -> isolated (t_shop_id task) s s'.
Proof.
  unfold execute_task. intros Hrun.
  apply bind_cases in Hrun as [(u & s0 & H0 & Hrun) | (e & H0 & _)].
  2: { apply isolated_quiet. by eapply acts_store. }
  eapply isolated_quiet_l; [by eapply acts_store |].
  apply bind_cases in Hrun as [(run & s1 & H1 & Hrun) | (e & H1 & _)].
  2: { apply isolated_quiet. by eapply acts_store. }
  eapply isolated_quiet_l; [by eapply acts_store |].
  assert (forall e, frames (acts (fun _ => False))
            (_ <- on_world (on_store (complete_run env run EmptyResult (Some (exn_str e)))) ;;
             _ <- on_world (on_store
                    (update_task_status env (t_id task) FAILED (Some (exn_str e)))) ;;
             ret false)) as Hhandler.
  { intros e. repeat first [ apply acts_store | trace_step ]. }
  assert (forall rb s2,
            (browser <- get_browser_for_shop env (t_shop_id task) ;;
             match browser with
             | None => raise (mkExn PlainException
                                ("无法获取店铺 " +:+ t_shop_id task +:+ " 的浏览器"))
             | Some b =>
                 action_class <- get_action_class env (t_action task) ;;
                 site <- locale_site (t_payload task) ;;
                 let context := mkContext (t_id task) run (t_shop_id task) site
                                  (t_dry_run task) ∅ in
                 result <- on_world (execute env action_class b true context
                                       (t_payload task)) ;;
                 _ <- on_world (on_store
                        (complete_run env run (ResultOf result)
                           (if negb (ok result) then error_message result else None))) ;;
                 _ <- (if ok result then
                         on_world (on_store
                           (update_task_status env (t_id task) SUCCESS None))
                       else
                         on_world (on_store
                           (update_task_status env (t_id task) FAILED
                              (Some (fmt_opt (error_code result) +:+ ": " +:+
                                     fmt_opt (error_message result)))))) ;;
                 ret (ok result)
             end) s1 = (rb, s2) -> isolated (t_shop_id task) s1 s2) as Hbody.
  { intros rb s2 Hbody.
    apply bind_cases in Hbody as [(browser & s1' & Hacq & Hrest) | (e & Hacq & _)].
    2: { eapply isolated_acquired. by eapply get_browser_acquired. }
    apply get_browser_acquired in Hacq.
    destruct browser as [b |].
    2: { injection Hrest as _ <-. by eapply isolated_acquired. }
    eapply isolated_acts; [exact Hacq |].
    revert Hrest. generalize s1' rb s2.
    change (frames (acts (own b))
              (action_class <- get_action_class env (t_action task) ;;
               site <- locale_site (t_payload task) ;;
               let context := mkContext (t_id task) run (t_shop_id task) site
                                (t_dry_run task) ∅ in
               result <- on_world (execute env action_class b true context
                                     (t_payload task)) ;;
               _ <- on_world (on_store
                      (complete_run env run (ResultOf result)
                         (if negb (ok result) then error_message result else None))) ;;
               _ <- (if ok result then
                       on_world (on_store
                         (update_task_status env (t_id task) SUCCESS None))
                     else
                       on_world (on_store
                         (update_task_status env (t_id task) FAILED
                            (Some (fmt_opt (error_code result) +:+ ": " +:+
                                   fmt_opt (error_message result)))))) ;;
               ret (ok result))).
    eapply frames_bind_post;
      [apply _ | apply get_action_class_registered
      | apply get_action_class_frames; apply _ |].
    intros a Hreg. simpl in Hreg.
    repeat first [ apply locale_site_frames; apply _
                 | apply acts_store
                 | by eapply acts_execute
                 | progress cbv zeta
                 | trace_step ]. }
  apply try_except_cases in Hrun as [(a & Hb & _) | (e & s2 & Hb & Hh)].
  - by eapply Hbody.
  - eapply isolated_quiet_r; [by eapply Hbody | by eapply Hhandler].
Qed.

(** ** The store only grows *)

#[local] Instance store_grows_preorder : PreOrder store_grows.
Proof.
  split.
  - intros s. by repeat split.
  - intros s1 s2 s3 (Ht1 & Hr1 & Ha1 & Hl1) (Ht2 & Hr2 & Ha2 & Hl2).
    split; [congruence |].
    split; [by transitivity (map run_def (agent_runs s2)) |].
    split; [by transitivity (agent_artifacts s2) | by transitivity (st_log s2)].
Qed.

#[local] Instance on_store_of_preorder (R : Store -> Store -> Prop) `{!PreOrder R} :
  PreOrder (on_store_of R).
Proof.
  split; [intros w; unfold on_store_of; reflexivity |].
  intros w1 w2 w3 H1 H2. unfold on_store_of in *. by transitivity (store w2).
Qed.

#[local] Instance on_world_of_preorder (R : World -> World -> Prop) `{!PreOrder R} :
  PreOrder (on_world_of R).
Proof.
  split; [intros s; unfold on_world_of; reflexivity |].
  intros s1 s2 s3 H1 H2. unfold on_world_of in *. by transitivity (world s2).
Qed.

Lemma update_task_status_grows (env : Env) (id : string) (status : TaskStatus)
    (error : option string) :
  frames store_grows (update_task_status env id status error).
Proof.
  intros s r s'. unfold update_task_status, transact.
  destruct (store_fault env (st_tick s) UpdateTask); intros [= _ <-]; unfold store_grows; simpl.
  - by repeat split.
  - split; [| split; [done | split; [done | by apply prefix_app_r]]].
    rewrite map_map. apply map_ext. intros t. by destruct (String.eqb (t_id t) id).
Qed.

Lemma create_run_grows (env : Env) (task worker : string) :
  frames store_grows (create_run env task worker).
Proof.
  intros s r s'. unfold create_run, transact.
  destruct (store_fault env (st_tick s) InsertRun); intros [= _ <-]; unfold store_grows; simpl.
  - by repeat split.
  - split; [done |]. rewrite map_app.
    split; [by apply prefix_app_r |]. split; [done | by apply prefix_app_r].
Qed.

Lemma complete_run_grows (env : Env) (run : string) (result : RunResult)
    (error : option string) :
  frames store_grows (complete_run env run result error).
Proof.
  intros s r s'. unfold complete_run, transact.
  destruct (store_fault env (st_tick s) UpdateRun); intros [= _ <-]; unfold store_grows; simpl.
  - by repeat split.
  - split; [done |]. split; [| split; [done | by apply prefix_app_r]].
    rewrite map_map.
    replace (map (fun x => run_def (if String.eqb (r_id x) run
                                    then with_completion (utcnow env (st_tick s))
                                           result error x
                                    else x)) (agent_runs s))
      with (map run_def (agent_runs s)); [done |].
    apply map_ext. intros x. by destruct (String.eqb (r_id x) run).
Qed.

Lemma save_artifact_record_grows (env : Env) (run : string) (type : ArtifactType)
    (path : string) :
  frames store_grows (save_artifact_record env run type path).
Proof.
  intros s r s'. unfold save_artifact_record, transact.
  destruct (store_fault env (st_tick s) InsertArtifact); intros [= _ <-]; unfold store_grows; simpl.
  - by repeat split.
  - split; [done |]. split; [done |]. split; by apply prefix_app_r.
Qed.

Lemma get_next_task_grows (env : Env) : frames store_grows (get_next_task env).
Proof.
  intros s r s'. unfold get_next_task, transact.
  destruct (store_fault env (st_tick s) SelectNext); intros [= _ <-]; unfold store_grows; simpl.
  - by repeat split.
  - split; [done |]. split; [done |]. split; [done |]. by rewrite app_nil_r.
Qed.

Lemma lift_store {A} (R : Store -> Store -> Prop) (m : M Store A) :
  frames R m -> frames (on_world_of (on_store_of R)) (on_world (on_store m)).
Proof.
  intros Hm. eapply frames_zoom_rel; [| by intros s w].
  eapply frames_zoom_rel; [exact Hm | by intros w st].
Qed.

Lemma execute_grows (env : Env) (a : BaseAction) (b : BrowserController)
    (has_store : bool) (context : ActionContext) (payload : gmap string PyVal) :
  frames (on_store_of store_grows) (execute env a b has_store context payload).
Proof.
  assert (forall stage type,
            frames (on_store_of store_grows) (capture env b (run_id context) stage type))
    as Hcapture.
  { intros stage type. unfold capture.
    repeat first
      [ apply frames_zoom; intros w p; unfold on_store_of; simpl; reflexivity
      | eapply frames_zoom_rel;
          [apply save_artifact_record_grows | by intros w st]
      | trace_step ]. }
  unfold execute.
  repeat first
    [ apply Hcapture
    | apply frames_zoom; intros w p; unfold on_store_of; simpl; reflexivity
    | intros w r w' [= _ <-]; unfold on_store_of; simpl; reflexivity
    | trace_step ].
Qed.

Lemma execute_task_grows (env : Env) (task : Task) :
  frames (on_world_of (on_store_of store_grows)) (execute_task env task).
Proof.
  unfold execute_task. cbv zeta.
  repeat first
    [ apply lift_store;
        first [ apply update_task_status_grows | apply create_run_grows
              | apply complete_run_grows ]
    | apply get_action_class_frames; apply _
    | apply locale_site_frames; apply _
    | eapply frames_zoom_rel; [apply execute_grows | by intros s w]
    | match goal with
      | |- frames _ (get_browser_for_shop _ _) =>
          intros s r s' Hacq; apply get_browser_silent in Hacq;
          unfold on_world_of, on_store_of; rewrite Hacq; reflexivity
      | |- frames _ (fun s => on_world _ s) =>
          intros s; apply lift_store; apply create_run_grows
      end
    | trace_step ].
Qed.

(** ** Statuses across cycles *)

Lemma status_le_refl (a : TaskStatus) : status_le a a = true.
Proof. by destruct a. Qed.

Lemma status_le_trans (a b c : TaskStatus) :
  status_le a b = true -> status_le b c = true -> status_le a c = true.
Proof. by destruct a, b, c. Qed.

Lemma advances_refl (rows : list (string * TaskStatus)) : advances rows rows.
Proof. induction rows; constructor; [by rewrite status_le_refl | done]. Qed.

Lemma advances_trans (r1 r2 r3 : list (string * TaskStatus)) :
  advances r1 r2 -> advances r2 r3 -> advances r1 r3.
Proof.
  intros H12. revert r3. induction H12 as [| a b l k [Hid Hle] _ IH]; intros r3 H23.
  - inversion H23. constructor.
  - inversion H23 as [| b' c k' m [Hid' Hle'] Hrest]; subst. constructor.
    + split; [congruence | by eapply status_le_trans].
    + by apply IH.
Qed.

Lemma advances_ids (rows rows' : list (string * TaskStatus)) :
  advances rows rows' -> map fst rows' = map fst rows.
Proof. induction 1 as [| a b l k [Hid _] _ IH]; simpl; congruence. Qed.

Lemma advances_map (f : string * TaskStatus -> string * TaskStatus)
    (rows : list (string * TaskStatus)) :
  (forall row, row ∈ rows -> row.1 = (f row).1 /\ status_le row.2 (f row).2 = true) ->
  advances rows (map f rows).
Proof.
  induction rows as [| row rest IH]; intros Hf; simpl; constructor.
  - apply Hf. by left.
  - apply IH. intros row' Hin. apply Hf. by right.
Qed.

Lemma unique_status (rows : list (string * TaskStatus)) (id : string)
    (a b : TaskStatus) :
  NoDup (map fst rows) -> (id, a) ∈ rows -> (id, b) ∈ rows -> a = b.
Proof.
  induction rows as [| [id0 st0] rest IH]; simpl; intros Hnodup Ha Hb.
  { by apply elem_of_nil in Ha. }
  apply NoDup_cons in Hnodup as [Hfresh Hnodup].
  apply elem_of_cons in Ha as [Ha | Ha]; apply elem_of_cons in Hb as [Hb | Hb].
  - congruence.
  - injection Ha as <- <-. destruct Hfresh. apply list_elem_of_fmap. by exists (id, b).
  - injection Hb as <- <-. destruct Hfresh. apply list_elem_of_fmap. by exists (id, a).
  - by apply IH.
Qed.

(** Replaying the status changes of one cycle for a queued task moves
    only that task, and only forward. *)
Lemma replay_advances (rows : list (string * TaskStatus)) (id : string)
    (history : list (string * TaskStatus)) :
  NoDup (map fst rows) -> (id, QUEUED) ∈ rows -> history ∈ cycle_histories id ->
  advances rows (replay history rows).
Proof.
  intros Hnodup Hqueued Hhist.
  assert (forall st row, row ∈ rows ->
            row.1 = (restatus (id, st) row).1
            /\ status_le row.2 (restatus (id, st) row).2 = true) as Hone.
  { intros st [id0 st0] Hin. unfold restatus. simpl.
    destruct (String.eqb id0 id) eqn:Heq; simpl; [| by rewrite status_le_refl].
    apply String.eqb_eq in Heq as ->.
    by rewrite (unique_status rows id st0 QUEUED Hnodup Hin Hqueued). }
  assert (forall st1 st2 row, row ∈ rows ->
            row.1 = (restatus (id, st2) (restatus (id, st1) row)).1
            /\ status_le row.2 (restatus (id, st2) (restatus (id, st1) row)).2 = true)
    as Htwo.
  { intros st1 st2 [id0 st0] Hin. unfold restatus. simpl.
    destruct (String.eqb id0 id) eqn:Heq; simpl; rewrite Heq; simpl;
      [| by rewrite status_le_refl].
    apply String.eqb_eq in Heq as ->.
    by rewrite (unique_status rows id st0 QUEUED Hnodup Hin Hqueued). }
  unfold cycle_histories in Hhist. rewrite !elem_of_cons in Hhist.
  destruct Hhist as [-> | [-> | [-> | [-> | Hnil]]]]; unfold replay; simpl.
  - apply advances_refl.
  - apply advances_map, Hone.
  - rewrite map_map. apply advances_map. intros row Hin. by apply Htwo.
  - rewrite map_map. apply advances_map. intros row Hin. by apply Htwo.
  - by apply elem_of_nil in Hnil.
Qed.

#[local] Instance moves_forward_preorder : PreOrder moves_forward.
Proof.
  split.
  - intros s _. apply advances_refl.
  - intros s1 s2 s3 H12 H23 Hnodup. eapply advances_trans; [by apply H12 |].
    apply H23. unfold ids_unique. rewrite (advances_ids _ _ (H12 Hnodup)). exact Hnodup.
Qed.

Lemma moves_forward_same_board (s s' : Sys) :
  board (store (world s')) = board (store (world s)) -> moves_forward s s'.
Proof. intros Hsame _. rewrite Hsame. apply advances_refl. Qed.

Lemma run_once_moves_forward (env : Env) : frames moves_forward (run_once env).
Proof.
  intros s r s' Hrun. unfold run_once in Hrun.
  apply bind_cases in Hrun as [(next & s0 & Hnext & Hrun) | (e & Hnext & _)];
    unfold get_next_task in Hnext;
    apply sys_transact in Hnext as [(e' & _ & Hr & ->) | (_ & Hr & ->)]; try done.
  2: { by apply moves_forward_same_board. }
  injection Hr as Hr.
  transitivity (put_store (committed (fun _ st => st) (fun _ => []) (store (world s))) s).
  { by apply moves_forward_same_board. }
  pose proof (select_next_head (agent_tasks (store (world s)))) as Hhead.
  rewrite <- Hr in Hhead. clear Hr.
  destruct next as [t |].
  2: { injection Hrun as _ <-. reflexivity. }
  destruct Hhead as (Hin & Hq & _).
  apply bind_cases in Hrun as [(flag & s1 & Hcycle & [= _ <-]) | (e & Hcycle & _)].
  all: intros Hnodup;
    destruct (execute_task_cases env t _ _ _ Hcycle) as (l & [_ Hboard] & Hhist & _);
    rewrite Hboard; apply (replay_advances _ (t_id t)); [exact Hnodup | | exact Hhist];
    unfold board; simpl; apply list_elem_of_fmap; exists t; by rewrite Hq.
Qed.

(** ** Sessions across cycles *)

#[local] Instance keeps_sessions_preorder : PreOrder keeps_sessions.
Proof.
  split.
  - by intros s Hfresh.
  - intros s1 s2 s3 H12 H23 Hfresh. destruct (H12 Hfresh) as [Hf2 Hsub2].
    destruct (H23 Hf2) as [Hf3 Hsub3]. split; [done |]. by transitivity (active_browsers (self s2)).
Qed.

Lemma run_once_keeps_sessions (env : Env) : frames keeps_sessions (run_once env).
Proof.
  assert (forall s s', acts (fun _ => False) s s' -> keeps_sessions s s') as Hquiet.
  { intros s s' Hacts Hfresh.
    destruct (isolated_quiet "" s s' Hacts Hfresh) as (Hf & Hsub & _). by split. }
  unfold run_once.
  apply frames_bind; [apply _ | | intros next].
  { intros s r s' Hrun. apply Hquiet. by eapply acts_store. }
  destruct next as [t |]; [| apply frames_ret; apply _].
  apply frames_bind; [apply _ | | intros _; apply frames_ret; apply _].
  intros s r s' Hrun Hfresh.
  destruct (execute_task_isolated env t s s' r Hrun Hfresh) as (Hf & Hsub & _). by split.
Qed.

(** ** The loop *)

Lemma loop_turn_frames (R : Sys -> Sys -> Prop) `{!PreOrder R} (env : Env) :
  frames R (run_once env) -> frames R (loop_turn env).
Proof. intros Hcycle. unfold loop_turn. by repeat trace_step. Qed.

Lemma loop_turns_frames (R : Sys -> Sys -> Prop) `{!PreOrder R} (env : Env) (n : nat) :
  frames R (run_once env) -> frames R (loop_turns env n).
Proof.
  intros Hcycle. induction n as [| n IH]; simpl; [apply frames_ret; apply _ |].
  apply frames_bind; [apply _ | by apply loop_turn_frames | by intros _].
Qed.

Lemma loop_turns_returns (env : Env) (n : nat) (s : Sys) :
  fst (loop_turns env n s) = Ret tt.
Proof.
  revert s. induction n as [| n IH]; intros s; [done |].
  cbn [loop_turns]. cbv [bind loop_turn try_except ret].
  destruct (run_once env s) as [[flag | e] s1]; apply IH.
Qed.

(** X6.  One worker cycle keeps tenants apart, in every environment:
    started with controllers that are told apart by their object ids, it
    ends with such a pool, drops or replaces no live handle, and sends no
    request through the live handle of a tenant other than the task's
    own. *)
Theorem cycle_keeps_tenants_apart (env : Env) (task : Task) (s : Sys) :
  pool_fresh s ->
  let s' := snd (execute_task env task s) in
  pool_fresh s'
  /\ active_browsers (self s) ⊆ active_browsers (self s')
  /\ Forall (fun c => ~ foreign (t_shop_id task) s' c)
       (new_requests (page (world s)) (page (world s'))).
Proof.
  intros Hfresh. cbv zeta.
  destruct (execute_task env task s) as [r s'] eqn:Hrun. cbn [snd].
  destruct (execute_task_isolated env task s s' r Hrun Hfresh) as (Hf & Hsub & Hsend).
  split; [exact Hf |]. split; [exact Hsub |]. by apply sends_new_requests.
Qed.

Lemma pool_fresh_after_first_acquire : pool_fresh after_first_acquire.
Proof.
  assert (active_browsers (self after_first_acquire)
          = {[ "shop_01" := mkController 0 9222 "131" ]}) as Hpool by reflexivity.
  split.
  - intros shop c Hlive. rewrite Hpool in Hlive.
    apply lookup_singleton_Some in Hlive as [_ <-]. vm_compute. lia.
  - intros shop1 shop2 c1 c2 H1 H2 _. rewrite Hpool in H1, H2.
    apply lookup_singleton_Some in H1 as [<- _].
    by apply lookup_singleton_Some in H2 as [<- _].
Qed.

Lemma cycle_keeps_tenants_apart_witness :
  let s' := snd (execute_task calm other_task after_first_acquire) in
  pool_fresh s'
  /\ active_browsers (self after_first_acquire) ⊆ active_browsers (self s')
  /\ Forall (fun c => ~ foreign "shop_02" s' c)
       (new_requests (page (world after_first_acquire)) (page (world s'))).
Proof.
  apply (cycle_keeps_tenants_apart calm other_task after_first_acquire).
  exact pool_fresh_after_first_acquire.
Defined.

(** X7.  Over any number of turns of the worker loop, in every
    environment, the loop body never lets an exception out, and with task
    ids a key of the task table every task keeps its row and its status
    only moves forward along queued, running, success or failed: no task
    goes back to queued, and a finished task stays as it is. *)
Theorem loop_statuses_only_move_forward (env : Env) (turns : nat) (s : Sys) :
  ids_unique s ->
  let out := loop_turns env turns s in
  fst out = Ret tt
  /\ advances (board (store (world s))) (board (store (world (snd out)))).
Proof.
  intros Hkey. cbv zeta. split; [apply loop_turns_returns |].
  destruct (loop_turns env turns s) as [r s'] eqn:Hrun. cbn [snd].
  by apply (loop_turns_frames moves_forward env turns (run_once_moves_forward env)
              s r s' Hrun).
Qed.

Lemma loop_statuses_only_move_forward_witness :
  let out := loop_turns calm 3 busy_sys in
  fst out = Ret tt
  /\ advances (board (store (world busy_sys))) (board (store (world (snd out)))).
Proof.
  apply (loop_statuses_only_move_forward calm 3 busy_sys).
  refine (bool_decide_unpack _ _). vm_compute. reflexivity.
Defined.

(** X8.  Over any number of turns of the worker loop, in every
    environment, the store only grows: no task row is added, removed,
    reordered or redefined (id, shop, action, payload, priority, dry-run
    flag and creation time stay), run rows are only added and keep their
    id, task, worker and start time, and artifact rows and applied writes
    are only added, never changed or removed. *)
Theorem loop_store_only_grows (env : Env) (turns : nat) (s : Sys) :
  store_grows (store (world s)) (store (world (snd (loop_turns env turns s)))).
Proof.
  destruct (loop_turns env turns s) as [r s'] eqn:Hrun. cbn [snd].
  apply (loop_turns_frames (on_world_of (on_store_of store_grows)) env turns) in Hrun;
    [exact Hrun |].
  unfold run_once.
  repeat first [ apply lift_store; apply get_next_task_grows
               | apply execute_task_grows
               | trace_step ].
Qed.

(** X9.  Over any number of turns of the worker loop, in every
    environment, the worker keeps its sessions: a live handle is never
    dropped or replaced, so a tenant is served by the same controller in
    every later cycle; controllers stay told apart by their object ids,
    and only tenants with a non-empty provisioning id ever hold one. *)
Theorem loop_keeps_sessions (env : Env) (turns : nat) (s : Sys) :
  pool_fresh s -> pool_wf (self s) ->
  let s' := snd (loop_turns env turns s) in
  pool_fresh s' /\ pool_wf (self s')
  /\ active_browsers (self s) ⊆ active_browsers (self s').
Proof.
  intros Hfresh Hwf. cbv zeta.
  destruct (loop_turns env turns s) as [r s'] eqn:Hrun. cbn [snd].
  pose proof (loop_turns_frames keeps_sessions env turns (run_once_keeps_sessions env)
                s r s' Hrun Hfresh) as [Hf Hsub].
  split; [exact Hf |]. split; [| exact Hsub].
  apply (loop_turns_frames keeps_pool env turns) in Hrun; [by apply Hrun |].
  unfold run_once.
  repeat first [ apply on_world_keeps_pool | apply execute_task_keeps_pool | trace_step ].
Qed.

Lemma loop_keeps_sessions_witness :
  let s' := snd (loop_turns calm 3 serving_sys) in
  pool_fresh s' /\ pool_wf (self s')
  /\ active_browsers (self serving_sys) ⊆ active_browsers (self s').
Proof.
  apply (loop_keeps_sessions calm 3 serving_sys).
  - exact pool_fresh_after_first_acquire.
  - intros shop c Hlive.
    change (active_browsers (self serving_sys))
      with ({[ "shop_01" := mkController 0 9222 "131" ]} : gmap string BrowserController)
      in Hlive.
    apply lookup_singleton_Some in Hlive as [<- _].
    exists "12345". split; reflexivity.
Defined.

(** ** A cycle with nothing to do *)

(** X10.  When the store answers the query for the next task, [run_once]
    reports that nothing was executed exactly when no task is queued,
    and then the cycle has done nothing but ask: no table and no write
    log changed, no request reached a page session or the session
    provider, and the worker is as it was. *)
Theorem run_once_idle (env : Env) (s : Sys) :
  store_fault env (st_tick (store (world s))) SelectNext = None ->
  (fst (run_once env s) = Ret false
   <-> forall t, t ∈ agent_tasks (store (world s)) -> t_status t <> QUEUED)
  /\ (fst (run_once env s) = Ret false ->
      snd (run_once env s) = put_store (asked (store (world s))) s).
Proof.
  intros Hup. unfold run_once, get_next_task, bind.
  rewrite (on_store_ok env SelectNext _ _ _ s Hup).
  pose proof (select_next_head (agent_tasks (store (world s)))) as Hhead.
  destruct (head (select_next (agent_tasks (store (world s))))) as [t |].
  - destruct Hhead as (Hin & Hq & _).
    destruct (execute_task env t _) as [[flag | e] s1]; simpl.
    + split; [| done]. split; [done |]. intros Hnone. by destruct (Hnone t Hin).
    + split; [| done]. split; [done |]. intros Hnone. by destruct (Hnone t Hin).
  - simpl. split; [done |]. intros _. unfold committed, asked. simpl.
    by rewrite app_nil_r.
Qed.

Lemma run_once_idle_witness :
  (fst (run_once calm done_sys) = Ret false
   <-> forall t, t ∈ agent_tasks (store (world done_sys)) -> t_status t <> QUEUED)
  /\ (fst (run_once calm done_sys) = Ret false ->
      snd (run_once calm done_sys) = put_store (asked (store (world done_sys))) done_sys).
Proof.
  apply (run_once_idle calm done_sys). reflexivity.
Defined.

(** ** The session provider client *)

Lemma py_or_truthy_r (a b : PyVal) : truthy b = true -> truthy (py_or a b) = true.
Proof. intros Hb. unfold py_or. by destruct (truthy a) eqn:Ha. Qed.

(** X11.  [start_browser] never raises, whatever the provider does; it
    sends exactly one request, for the given id, carrying the download
    path only if that is a non-empty text; it reports success only for a
    reply with status code 0 whose port converts to an integer, and then
    carries that port and no error; every failure carries no port and an
    error.  After a reply from the provider the error is truthy, and is
    the reply's [err] or [LastError] as it came, a text or not, or else a
    text; after a request that raised it is [str] of the exception. *)
Theorem start_browser_outcome (env : Env) (browser_id : string) (is_headless : bool)
    (download_path : option string) (z : Provider) :
  exists r,
    start_browser env browser_id is_headless download_path z
    = (Ret r,
       mkProvider (S (z_tick z))
         (z_log z ++ [StartBrowser browser_id is_headless
                        (if opt_truthy download_path then download_path else None)]))
    /\ start_result_shape (api_reply env (z_tick z)) r.
Proof.
  unfold start_browser, try_except, bind, _call_api, start_result_shape.
  destruct (api_reply env (z_tick z)) as [e | j]; [by eexists |].
  destruct (eq_zero (jget j "statusCode")) eqn:Hcode.
  - unfold py_int.
    destruct (jget j "debuggingPort") as [| flag | port | m e | text | l | d];
      try (eexists; split; [reflexivity |]; simpl; by eauto 6).
    destruct (int_of_str env text); eexists; (split; [reflexivity |]); simpl; by eauto 6.
  - eexists. split; [reflexivity |]. simpl. split; [done |]. split.
    + apply py_or_truthy_r, py_or_truthy_r. reflexivity.
    + unfold py_or. destruct (truthy (jget j "err")); [by left |].
      destruct (truthy (jget j "LastError")); [right; by left |].
      right. right. by eexists.
Qed.

(** The error is not always a text: a reply whose [err] is the number 500
    hands that number on. *)
Lemma start_browser_numeric_error (env : Env) (browser_id : string) (z : Provider) :
  api_reply env (z_tick z) = ApiJson numeric_error_reply ->
  exists r z',
    start_browser env browser_id headless None z = (Ret r, z')
    /\ success r = false
    /\ sb_error r = VInt 500.
Proof.
  intros Hreply. unfold start_browser, try_except, bind, _call_api. rewrite Hreply.
  eexists _, _. split; [vm_compute; reflexivity |]. split; reflexivity.
Qed.

(** ** The sites without locators *)

Lemma navigate_run (env : Env) (b : BrowserController) (url : PyVal) (p : Page) :
  navigate env b url p
  = (Ret (match driver_fault env (p_tick p) (Get url) with
          | Some _ => false
          | None => true
          end),
     mkPage (S (p_tick p)) (p_trace p ++ [(oid b, Get url)])).
Proof.
  unfold navigate, try_except, bind, request.
  by destruct (driver_fault env (p_tick p) (Get url)).
Qed.

Lemma search_without_locators (env : Env) (b : BrowserController)
    (table : gmap string PyVal) (keyword : PyVal) (p : Page) :
  table !! "product_list" = None ->
  UpdateTitleAction._search_product env b table keyword p = (Ret false, p).
Proof.
  intros Hlist. unfold UpdateTitleAction._search_product, loc, loc_walk, bind.
  rewrite Hlist. cbn [default]. by rewrite !lookup_empty.
Qed.

(** X12.  For the five site codes other than id, whose tables hold only
    a base URL, no registered action gets to work: [fetch_ads_summary]
    returns CONFIG_ERROR without sending any request, and a live
    [update_title] with a valid payload sends exactly one request, a page
    load of [None], and ends with NAVIGATION_ERROR or SEARCH_ERROR. *)
Theorem other_sites_run_no_action (env : Env) (b : BrowserController) (code : string)
    (context : ActionContext) (payload : gmap string PyVal) (pid title : PyVal)
    (p : Page) :
  code ∈ other_sites ->
  dry_run context = false ->
  payload !! "product_id" = Some pid ->
  payload !! "new_title" = Some title ->
  FetchAdsSummaryAction._do_action env b (get_locators code) context payload p
  = (Ret (failed_result "fetch_ads_summary" "CONFIG_ERROR" "广告中心 URL 未配置"), p)
  /\ exists r p',
       UpdateTitleAsCalled._do_action env b (get_locators code) context payload p
       = (Ret r, p')
       /\ ok r = false
       /\ (error_code r = Some "NAVIGATION_ERROR" \/ error_code r = Some "SEARCH_ERROR")
       /\ new_requests p p' = [(oid b, Get VNone)].
Proof.
  intros Hcode Hlive Hid Hnew.
  assert (get_locators code !! "ads_center" = None
          /\ get_locators code !! "product_list" = None) as [Hads Hlist].
  { unfold other_sites in Hcode. rewrite !elem_of_cons in Hcode.
    destruct Hcode as [-> | [-> | [-> | [-> | [-> | Hnil]]]]];
      [| | | | | by apply elem_of_nil in Hnil]; by split. }
  clear Hcode.
  generalize dependent (get_locators code). intros table Hads Hlist. split.
  - unfold FetchAdsSummaryAction._do_action, cfg_get2, bind. by rewrite Hads.
  - unfold UpdateTitleAsCalled._do_action. cbv zeta. fold required_keys.
    rewrite (validate_present payload pid title Hid Hnew). cbn [opt_truthy].
    cbv [bind subscript cfg_get2]. rewrite Hid, Hnew, Hlive, Hlist.
    cbn [ret default]. rewrite lookup_empty. cbn [default]. rewrite navigate_run.
    destruct (driver_fault env (p_tick p) (Get VNone)) as [e |]; cbn [negb ret].
    + eexists _, _. split; [reflexivity |]. split; [done |]. split; [by left |].
      unfold new_requests. cbn [p_trace]. by rewrite drop_app_length.
    + rewrite (search_without_locators env b table _ _ Hlist). cbn [negb ret].
      eexists _, _. split; [reflexivity |]. split; [done |]. split; [by right |].
      unfold new_requests. cbn [p_trace]. by rewrite drop_app_length.
Qed.

Lemma other_sites_run_no_action_witness :
  FetchAdsSummaryAction._do_action calm chrome (get_locators "my") live_context
    title_payload empty_page
  = (Ret (failed_result "fetch_ads_summary" "CONFIG_ERROR" "广告中心 URL 未配置"),
     empty_page)
  /\ exists r p',
       UpdateTitleAsCalled._do_action calm chrome (get_locators "my") live_context
         title_payload empty_page
       = (Ret r, p')
       /\ ok r = false
       /\ (error_code r = Some "NAVIGATION_ERROR" \/ error_code r = Some "SEARCH_ERROR")
       /\ new_requests empty_page p' = [(oid chrome, Get VNone)].
Proof.
  apply (other_sites_run_no_action calm chrome "my" live_context title_payload
           (VStr "42") (VStr "Sepatu") empty_page); try reflexivity.
  unfold other_sites. apply list_elem_of_here.
Defined.

(** ** The product snapshot *)

Lemma extract_product_named (env : Env) (b : BrowserController) (row : Element)
    (i : nat) :
  yields (fun product => forall d, product = Some d ->
                                   truthy (default VNone (d !! "name")) = true)
    (FetchProductSnapshotAction._extract_product_from_row env b row i).
Proof.
  unfold FetchProductSnapshotAction._extract_product_from_row.
  apply yields_try_except; [| intros e; by apply yields_ret].
  repeat (apply yields_bind; intros ?).
  match goal with
  | |- yields _ (if ?c then _ else _) => destruct c eqn:Hname
  end; apply yields_ret; [| done].
  by intros d [= <-].
Qed.

Lemma extract_rows_appends (env : Env) (b : BrowserController) (rows : list Element)
    (i : nat) (s s' : Page * list PyVal) (r : Res unit) :
  FetchProductSnapshotAction.extract_rows env b rows i s = (r, s') ->
  exists new,
    snd s' = snd s ++ new /\ (length new <= length rows)%nat /\ Forall named new.
Proof.
  revert i s. induction rows as [| row rest IH]; intros i s; simpl.
  { intros [= _ <-]. exists []. by rewrite app_nil_r. }
  unfold bind at 1, zoom.
  destruct (FetchProductSnapshotAction._extract_product_from_row env b row i (fst s))
    as [[product | e] p1] eqn:Hrow.
  2: { intros [= _ <-]. exists []. simpl. rewrite app_nil_r. split; [done |].
       split; [lia | constructor]. }
  pose proof (extract_product_named env b row i _ _ _ Hrow) as Hnamed.
  destruct product as [d |]; unfold bind, ret; intros Hrest;
    apply IH in Hrest as (new & Hnew & Hlen & Hall); simpl in Hnew.
  - exists (VDict d :: new). rewrite Hnew, <- app_assoc. split; [done |].
    split; [simpl; lia |]. constructor; [| done]. exists d. split; [done |].
    by apply Hnamed.
  - exists new. split; [done |]. split; [lia | done].
Qed.

Lemma slice_to_length {A} (limit : PyVal) (rows taken : list A) (n : Z) :
  slice_to limit rows = Ret taken -> limit = VInt n -> 0 <= n ->
  (length taken <= Z.to_nat n)%nat.
Proof.
  intros Hslice -> Hn. unfold slice_to in Hslice.
  destruct (n <? 0) eqn:Hneg; [lia |]. injection Hslice as <-.
  rewrite length_take. lia.
Qed.

Lemma extract_products_bounded (env : Env) (b : BrowserController)
    (locators : gmap string PyVal) (limit : PyVal) :
  yields (fun products =>
            Forall named products
            /\ forall n, limit = VInt n -> 0 <= n ->
                         (length products <= Z.to_nat n)%nat)
    (FetchProductSnapshotAction._extract_products env b locators limit).
Proof.
  unfold FetchProductSnapshotAction._extract_products.
  apply yields_bind. intros row_loc p products p'.
  destruct (try_except _ _ (p, @nil PyVal)) as [r1 [p1 found]] eqn:Hrun.
  intros [= <- _].
  assert (exists rb,
            (t <- zoom fst (fun p0 s => (p0, snd s))
                    (request env b
                       (FindElements
                          (default (CSS_SELECTOR, "tr[data-product-id], .product-item")
                             row_loc))) ;;
             rows <- (fun s : Page * list PyVal =>
                        match slice_to limit
                                (map (Nth (default
                                             (CSS_SELECTOR,
                                              "tr[data-product-id], .product-item")
                                             row_loc))
                                   (seq 0 (driver_count env t))) with
                        | Ret l => (Ret l, s)
                        | Raise e => (Raise e, s)
                        end) ;;
             FetchProductSnapshotAction.extract_rows env b rows 0) (p, [])
            = (rb, (p1, found))) as [rb Hbody].
  { apply try_except_cases in Hrun as [(u & Hrun & _) | (e & s1 & Hrun & Hh)].
    - by eexists.
    - injection Hh as _ ->. by eexists. }
  clear Hrun.
  apply bind_cases in Hbody as [(t & s2 & Hreq & Hbody) | (e & Hreq & _)];
    unfold zoom in Hreq; destruct (request env b _ _) as [r2 p2];
    cbn [fst snd] in Hreq.
  2: { injection Hreq as _ _ <-. split; [constructor | simpl; lia]. }
  injection Hreq as _ <-.
  unfold bind in Hbody.
  destruct (slice_to limit _) as [taken | e] eqn:Hslice.
  2: { injection Hbody as _ _ <-. split; [constructor | simpl; lia]. }
  apply extract_rows_appends in Hbody as (new & Hnew & Hlen & Hall).
  simpl in Hnew. subst found. split; [done |]. intros n Hlimit Hn.
  pose proof (slice_to_length limit _ taken n Hslice Hlimit Hn). lia.
Qed.

(** X13.  A successful [fetch_product_snapshot] reports what it
    collected: its data holds the keyword, the list of products and the
    length of that list as count; the list is not empty, every entry is
    a dict with a non-empty name, and with a non-negative integer limit
    (10 when the payload gives none) it has at most that many entries. *)
Theorem fetch_product_snapshot_count (env : Env) (b : BrowserController)
    (locators : gmap string PyVal) (context : ActionContext)
    (payload : gmap string PyVal) (p p' : Page) (r : ActionResult) :
  FetchProductSnapshotAction._do_action env b locators context payload p = (Ret r, p') ->
  ok r = true ->
  exists products,
    data r = Some {[ "keyword" := default (VStr "") (payload !! "keyword");
                     "count" := VInt (Z.of_nat (length products));
                     "products" := VList products ]}
    /\ (1 <= length products)%nat
    /\ Forall named products
    /\ forall n, default (VInt 10) (payload !! "limit") = VInt n -> 0 <= n ->
                 (length products <= Z.to_nat n)%nat.
Proof.
  intros Hrun. revert p r p' Hrun.
  change (yields (fun r => ok r = true ->
            exists products,
              data r = Some {[ "keyword" := default (VStr "") (payload !! "keyword");
                               "count" := VInt (Z.of_nat (length products));
                               "products" := VList products ]}
              /\ (1 <= length products)%nat
              /\ Forall named products
              /\ forall n, default (VInt 10) (payload !! "limit") = VInt n -> 0 <= n ->
                           (length products <= Z.to_nat n)%nat)
            (FetchProductSnapshotAction._do_action env b locators context payload)).
  unfold FetchProductSnapshotAction._do_action. cbv zeta.
  apply yields_bind. intros url. apply yields_bind. intros opened.
  destruct (negb opened); [by apply yields_ret |].
  apply yields_bind. intros _.
  eapply yields_bind_post; [apply extract_products_bounded |].
  intros products [Hnamed Hbound].
  destruct products as [| first rest]; apply yields_ret; [done |].
  intros _. exists (first :: rest). split; [done |]. split; [simpl; lia |]. by split.
Qed.

Lemma fetch_product_snapshot_count_witness :
  exists r p',
    FetchProductSnapshotAction._do_action stocked chrome SHOPEE_ID live_context
      one_row_payload empty_page = (Ret r, p')
    /\ ok r = true
    /\ exists products,
         data r = Some {[ "keyword" := default (VStr "") (one_row_payload !! "keyword");
                          "count" := VInt (Z.of_nat (length products));
                          "products" := VList products ]}
         /\ (1 <= length products)%nat
         /\ Forall named products
         /\ forall n, default (VInt 10) (one_row_payload !! "limit") = VInt n -> 0 <= n ->
                      (length products <= Z.to_nat n)%nat.
Proof.
  eexists _, _. split; [vm_compute; reflexivity |]. split; [reflexivity |].
  eapply (fetch_product_snapshot_count stocked chrome SHOPEE_ID live_context
            one_row_payload empty_page); [vm_compute; reflexivity | reflexivity].
Defined.

(** ** Actions that return *)

Section Returns.
Context {S : Type}.

Lemma returns_ret {A} (a : A) : returns (@ret S A a).
Proof. intros s. by eexists _, _. Qed.

Lemma returns_bind {A B} (m : M S A) (k : A -> M S B) :
  returns m -> (forall a, returns (k a)) -> returns (bind m k).
Proof.
  intros Hm Hk s. unfold bind. destruct (Hm s) as (a & s1 & ->). apply Hk.
Qed.

Lemma returns_try_except {A} (m : M S A) (h : Exn -> M S A) :
  (forall e, returns (h e)) -> returns (try_except m h).
Proof.
  intros Hh s. unfold try_except. destruct (m s) as [[a | e] s1]; [by eexists _, _ |].
  apply Hh.
Qed.

Lemma loc_returns (table : gmap string PyVal) (k1 k2 : string) :
  walkable table k1 -> returns (@loc S table [k1; k2]).
Proof.
  unfold walkable, loc, loc_walk. intros Hwalk s.
  destruct (table !! k1) as [[] |]; try done; simpl; case_match; by eexists _, _.
Qed.

Lemma cfg_get2_returns (table : gmap string PyVal) (k1 k2 : string) :
  walkable table k1 -> returns (@cfg_get2 S table k1 k2).
Proof.
  unfold walkable, cfg_get2. intros Hwalk s.
  destruct (table !! k1) as [[] |]; try done; by eexists _, _.
Qed.

End Returns.

Ltac returns_step :=
  first
    [ apply returns_ret
    | apply returns_try_except; intros ?
    | apply loc_returns; assumption
    | apply cfg_get2_returns; assumption
    | match goal with
      | |- returns (bind _ _) => apply returns_bind; [| intros ?]
      | |- returns (if ?c then _ else _) => destruct c
      | |- returns (match ?x with _ => _ end) => destruct x
      end ].

Lemma site_tables_walkable (table : gmap string PyVal) :
  table ∈ site_tables -> walkable table "product_list" /\ walkable table "ads_center".
Proof.
  unfold site_tables. rewrite !elem_of_cons.
  intros [-> | [-> | [-> | [-> | [-> | [-> | Hnil]]]]]];
    [| | | | | | by apply elem_of_nil in Hnil]; by split.
Qed.

(** X14.  On each of the six shipped site tables, in every environment,
    the inner logic of the two fetch actions returns an outcome instead of
    raising: [fetch_product_snapshot] whenever the payload holds no
    keyword, and [fetch_ads_summary] whenever the date range of the
    payload can be a dict key (anything but a list or a dict). *)
Theorem fetch_actions_return (env : Env) (b : BrowserController)
    (table : gmap string PyVal) (context : ActionContext)
    (payload : gmap string PyVal) :
  table ∈ site_tables ->
  truthy (default (VStr "") (payload !! "keyword")) = false ->
  hashable (default (VStr "today") (payload !! "date_range")) = true ->
  returns (FetchProductSnapshotAction._do_action env b table context payload)
  /\ returns (FetchAdsSummaryAction._do_action env b table context payload).
Proof.
  intros Htable Hkey Hrange. apply site_tables_walkable in Htable as [Hlist Hads]. split.
  - unfold FetchProductSnapshotAction._do_action. cbv zeta. rewrite Hkey.
    unfold navigate.
    assert (forall limit,
              returns (FetchProductSnapshotAction._extract_products env b table limit))
      as Hextract.
    { intros limit. unfold FetchProductSnapshotAction._extract_products.
      apply returns_bind; [by apply loc_returns |]. intros row_loc p.
      destruct (try_except _ _ (p, @nil PyVal)) as [r1 [p1 found]]. by eexists _, _. }
    repeat first [ apply Hextract | returns_step ].
  - assert (forall fs metrics,
              returns (FetchAdsSummaryAction.read_metrics env b table fs metrics))
      as Hread.
    { induction fs as [| [metric_name locator_key] rest IH]; intros metrics; simpl.
      - apply returns_ret.
      - unfold get_text. repeat first [ apply IH | returns_step ]. }
    unfold FetchAdsSummaryAction._do_action, FetchAdsSummaryAction._select_date_range,
      FetchAdsSummaryAction._extract_summary_data,
      FetchAdsSummaryAction._extract_by_fallback, FetchAdsSummaryAction.range_key.
    cbv zeta. unfold navigate, wait_and_click.
    destruct (default (VStr "today") (payload !! "date_range")); try done;
      repeat first [ apply Hread | returns_step ].
Qed.

Lemma fetch_actions_return_witness :
  returns (FetchProductSnapshotAction._do_action calm chrome SHOPEE_ID live_context
             one_row_payload)
  /\ returns (FetchAdsSummaryAction._do_action calm chrome SHOPEE_ID live_context
                one_row_payload).
Proof.
  apply (fetch_actions_return calm chrome SHOPEE_ID live_context one_row_payload);
    [apply list_elem_of_here | reflexivity | reflexivity].
Defined.

Lemma wait_and_click_run (env : Env) (b : BrowserController) (l : Locator)
    (timeout : Z) (p : Page) :
  driver_fault env (p_tick p) (WaitClickable l timeout) = None ->
  driver_fault env (S (p_tick p)) (Click (Found l)) = None ->
  wait_and_click env b l timeout p
  = (Ret true,
     mkPage (S (S (p_tick p)))
       (p_trace p ++ [(oid b, WaitClickable l timeout)] ++ [(oid b, Click (Found l))])).
Proof.
  intros Hwait Hclick. unfold wait_and_click, try_except, bind, request.
  rewrite Hwait. cbn [p_tick p_trace]. rewrite Hclick. cbn [ret]. by rewrite <- app_assoc.
Qed.

(** X15.  On the id site, a date range that is a list or a dict makes
    the inner logic of [fetch_ads_summary] raise a [TypeError] as soon as
    the page has loaded and the date picker has been clicked: the look-up
    of the range in the dict of range keys needs a hashable key. *)
Theorem fetch_ads_summary_unhashable_range (env : Env) (b : BrowserController)
    (context : ActionContext) (payload : gmap string PyVal) (p : Page) :
  hashable (default (VStr "today") (payload !! "date_range")) = false ->
  driver_fault env (p_tick p) (Get id_ads_url) = None ->
  driver_fault env (S (p_tick p)) (WaitClickable id_date_picker 5) = None ->
  driver_fault env (S (S (p_tick p))) (Click (Found id_date_picker)) = None ->
  exists e p',
    FetchAdsSummaryAction._do_action env b SHOPEE_ID context payload p = (Raise e, p')
    /\ exn_class e = TypeError
    /\ new_requests p p'
       = [(oid b, Get id_ads_url); (oid b, WaitClickable id_date_picker 5);
          (oid b, Click (Found id_date_picker))].
Proof.
  intros Hrange Hget Hwait Hclick.
  unfold FetchAdsSummaryAction._do_action. cbv zeta.
  change (cfg_get2 SHOPEE_ID "ads_center" "entry_url")
    with (@ret Page PyVal id_ads_url).
  cbv [bind ret]. cbn [truthy id_ads_url String.eqb Ascii.eqb Bool.eqb negb].
  rewrite navigate_run, Hget. cbn [negb].
  unfold FetchAdsSummaryAction._select_date_range.
  change (loc SHOPEE_ID ["ads_center"; "date_picker"])
    with (@ret Page (option Locator) (Some id_date_picker)).
  cbv [bind ret]. rewrite wait_and_click_run by done.
  unfold FetchAdsSummaryAction.range_key.
  destruct (default (VStr "today") (payload !! "date_range")); try done.
  all: eexists _, _; split; [reflexivity |]; split; [reflexivity |];
    unfold new_requests; cbn [p_trace]; rewrite <- app_assoc; by rewrite drop_app_length.
Qed.

Lemma fetch_ads_summary_unhashable_range_witness :
  exists e p',
    FetchAdsSummaryAction._do_action calm chrome SHOPEE_ID live_context
      list_range_payload empty_page = (Raise e, p')
    /\ exn_class e = TypeError
    /\ new_requests empty_page p'
       = [(oid chrome, Get id_ads_url); (oid chrome, WaitClickable id_date_picker 5);
          (oid chrome, Click (Found id_date_picker))].
Proof.
  apply (fetch_ads_summary_unhashable_range calm chrome live_context list_range_payload
           empty_page); reflexivity.
Defined.

(** ** [update_title] never updates *)

Lemma update_title_field_never_true (env : Env) (b : BrowserController)
    (locators : gmap string PyVal) (new_title : PyVal) :
  yields (fun updated => updated = false)
    (UpdateTitleAsCalled._update_title_field env b locators new_title).
Proof.
  unfold UpdateTitleAsCalled._update_title_field, execute_script_call.
  apply yields_bind. intros input_loc. destruct input_loc as [l |]; [| by apply yields_ret].
  apply yields_bind. intros element. destruct element as [el |]; [| by apply yields_ret].
  apply yields_bind. intros _. apply yields_bind_post with (Q := fun _ => False).
  - by intros s a s'.
  - by intros _ [].
Qed.

Lemma live_update_codes_elem (code : string) :
  bool_decide (code ∈ live_update_codes) = true -> code ∈ live_update_codes.
Proof. apply bool_decide_eq_true_1. Qed.

(** X16.  A live [update_title] never succeeds, in any environment and
    on any locator table: the call that clears the title field passes the
    element to [BrowserController.execute_script], which takes the script
    only, so the step that types the title never returns [True].  The
    inner logic returns only failures, with one of five codes and never
    SAVE_ERROR, and every outcome the template returns for it has
    [ok=False]. *)
Theorem update_title_never_succeeds_live (env : Env) (b : BrowserController)
    (locators : gmap string PyVal) (has_store : bool) (context : ActionContext)
    (payload : gmap string PyVal) :
  dry_run context = false ->
  yields (fun r => ok r = false
                   /\ exists code, error_code r = Some code /\ code ∈ live_update_codes)
    (UpdateTitleAsCalled._do_action env b locators context payload)
  /\ yields (fun r => ok r = false)
       (execute env (UpdateTitleAsCalled.cls env) b has_store context payload).
Proof.
  intros Hlive.
  assert (forall table,
            yields (fun r => ok r = false
                             /\ exists code, error_code r = Some code
                                             /\ code ∈ live_update_codes)
              (UpdateTitleAsCalled._do_action env b table context payload)) as Hinner.
  { intros table. unfold UpdateTitleAsCalled._do_action. cbv zeta. rewrite Hlive.
    assert (forall code message,
              bool_decide (code ∈ live_update_codes) = true ->
              yields (fun r => ok r = false
                               /\ exists code, error_code r = Some code
                                               /\ code ∈ live_update_codes)
                (@ret Page _ (failed_result UpdateTitleAction.name code message)))
      as Hfail.
    { intros code message Hcode. apply yields_ret. split; [done |].
      exists code. split; [done |]. by apply live_update_codes_elem. }
    destruct (opt_truthy _).
    { apply yields_ret. split; [done |]. exists "VALIDATION_ERROR". split; [done |].
      by apply live_update_codes_elem. }
    apply yields_bind. intros product_id. apply yields_bind. intros new_title.
    apply yields_bind. intros url. apply yields_bind. intros opened.
    destruct (negb opened); [by apply Hfail |].
    apply yields_bind. intros searched. destruct (negb searched); [by apply Hfail |].
    apply yields_bind. intros old_title. destruct old_title; [| by apply Hfail].
    eapply yields_bind_post; [apply update_title_field_never_true |].
    intros updated ->. by apply Hfail. }
  split; [apply Hinner |].
  unfold execute. apply yields_bind. intros start_time. apply yields_bind. intros before.
  apply yields_try_except.
  - eapply yields_bind_post; [apply yields_zoom, Hinner |].
    intros result [Hok _]. rewrite Hok, andb_false_r.
    apply yields_bind_post with (Q := fun r => ok r = false); [by apply yields_ret |].
    intros r Hr. apply yields_bind. intros now. by apply yields_ret.
  - intros e. apply yields_bind. intros shot. apply yields_bind. intros now.
    by apply yields_ret.
Qed.

Lemma update_title_never_succeeds_live_witness :
  yields (fun r => ok r = false
                   /\ exists code, error_code r = Some code /\ code ∈ live_update_codes)
    (UpdateTitleAsCalled._do_action calm chrome SHOPEE_ID live_context title_payload)
  /\ yields (fun r => ok r = false)
       (execute calm (UpdateTitleAsCalled.cls calm) chrome true live_context
          title_payload).
Proof.
  apply (update_title_never_succeeds_live calm chrome SHOPEE_ID true live_context
           title_payload).
  reflexivity.
Defined.

(** ** One run per task *)

Lemma replay_cons (w : string * TaskStatus) (ws rows : list (string * TaskStatus)) :
  replay (w :: ws) rows = replay ws (map (restatus w) rows).
Proof. reflexivity. Qed.

(** Writes of a status other than queued put nothing back in the queue. *)
Lemma replay_no_requeue (ws rows : list (string * TaskStatus)) (id : string) :
  Forall (fun w => w.2 <> QUEUED) ws ->
  (id, QUEUED) ∈ replay ws rows -> (id, QUEUED) ∈ rows /\ id ∉ map fst ws.
Proof.
  intros Hws. revert rows. induction Hws as [| w ws Hw _ IH]; intros rows Hin.
  { split; [exact Hin | apply not_elem_of_nil]. }
  rewrite replay_cons in Hin. apply IH in Hin as [Hin Hfresh].
  apply list_elem_of_fmap in Hin as ([id0 st0] & Heq & Hrow).
  unfold restatus in Heq. simpl in Heq.
  destruct (String.eqb id0 w.1) eqn:Hid.
  - injection Heq as -> Hst. by destruct Hw.
  - injection Heq as -> ->. split; [exact Hrow |].
    simpl. apply not_elem_of_cons. split; [| exact Hfresh].
    intros ->. by rewrite String.eqb_refl in Hid.
Qed.

#[local] Instance closes_preorder : PreOrder closes.
Proof.
  split.
  - intros s. split; [done |]. exists []. by split.
  - intros s1 s2 s3 (Hr1 & h1 & Hb1 & Hh1) (Hr2 & h2 & Hb2 & Hh2).
    split; [congruence |]. exists (h1 ++ h2).
    split; [by rewrite replay_app, <- Hb1 | by apply Forall_app].
Qed.

Lemma closes_same_tables (s s' : Sys) :
  agent_tasks (store (world s')) = agent_tasks (store (world s)) ->
  agent_runs (store (world s')) = agent_runs (store (world s)) ->
  closes s s'.
Proof.
  intros Htasks Hruns. split; [unfold run_tasks; by rewrite Hruns |].
  exists []. unfold board. rewrite Htasks. by split.
Qed.

Lemma update_task_status_closes (env : Env) (id : string) (status : TaskStatus)
    (error : option string) :
  status <> QUEUED ->
  frames closes (on_world (on_store (update_task_status env id status error))).
Proof.
  intros Hstatus s r s' Hrun.
  assert (run_tasks s' = run_tasks s) as Hruns.
  { revert Hrun. unfold on_world, on_store, zoom, update_task_status, transact, run_tasks.
    destruct (store_fault env _ UpdateTask); by intros [= _ <-]. }
  split; [exact Hruns |].
  apply sys_update_task_status in Hrun as [(e & _ & _ & _ & Hb) | (_ & _ & _ & Hb)].
  - exists []. by split.
  - exists [(id, status)]. split; [exact Hb |]. by repeat constructor.
Qed.

Lemma complete_run_closes (env : Env) (run : string) (result : RunResult)
    (error : option string) :
  frames closes (on_world (on_store (complete_run env run result error))).
Proof.
  intros s r s'. unfold on_world, on_store, zoom, complete_run, transact.
  destruct (store_fault env _ UpdateRun); intros [= _ <-].
  - by apply closes_same_tables.
  - split; [| exists []; by split].
    unfold run_tasks. simpl. rewrite map_map. apply map_ext.
    intros x. by destruct (String.eqb (r_id x) run).
Qed.

Lemma execute_closes (env : Env) (a : BaseAction) (b : BrowserController)
    (has_store : bool) (context : ActionContext) (payload : gmap string PyVal) :
  frames closes (on_world (execute env a b has_store context payload)).
Proof.
  intros s r s'. unfold on_world, zoom.
  destruct (execute env a b has_store context payload (world s)) as [r1 w1] eqn:Hrun.
  intros [= _ <-].
  destruct (execute_frame env a b has_store context payload _ _ _ Hrun)
    as ((Htasks & Hruns & _) & _).
  by apply closes_same_tables.
Qed.

Lemma execute_task_cycles (env : Env) (task : Task) (s s' : Sys) (r : Res bool) :
  execute_task env task s = (r, s') -> cycles (t_id task) s s'.
Proof.
  unfold execute_task. intros Hrun.
  apply bind_cases in Hrun as [(u & s0 & H0 & Hrun) | (e & H0 & _)].
  2: { apply update_task_status_closes in H0 as [Hr Hh]; [| done]. by split; [| left]. }
  pose proof H0 as Hfirst.
  apply update_task_status_closes in H0 as [Hr0 (h0 & Hb0 & Hh0)]; [| done].
  apply sys_update_task_status in Hfirst as [(e & _ & [=] & _) | (_ & _ & _ & Hboard0)].
  assert ((t_id task, QUEUED) ∉ board (store (world s0))) as Hleft.
  { rewrite Hboard0. intros Hin.
    apply (replay_no_requeue [(t_id task, RUNNING)]) in Hin as [_ Hfresh];
      [| by repeat constructor].
    apply Hfresh. simpl. apply list_elem_of_here. }
  apply bind_cases in Hrun as [(run & s1 & H1 & Hrun) | (e & H1 & _)];
    unfold create_run in H1;
    apply sys_transact in H1 as [(e' & _ & Hr1 & ->) | (_ & Hr1 & ->)]; try done.
  2: { split; [by exists h0 |]. left. unfold run_tasks in *. simpl. exact Hr0. }
  injection Hr1 as ->.
  assert (closes (put_store
                    (committed
                       (fun n st =>
                          mkStore (agent_tasks st)
                            (agent_runs st ++
                               [mkRun (uuid4 env n) (t_id task) (worker_id (self s0))
                                  (utcnow env n) None None None])
                            (agent_artifacts st) (st_tick st) (st_log st))
                       (fun n => [NewRun (uuid4 env n) (t_id task) (worker_id (self s0))])
                       (store (world s0))) s0) s') as (Hr2 & h2 & Hb2 & Hh2).
  { revert Hrun. generalize (put_store
                    (committed
                       (fun n st =>
                          mkStore (agent_tasks st)
                            (agent_runs st ++
                               [mkRun (uuid4 env n) (t_id task) (worker_id (self s0))
                                  (utcnow env n) None None None])
                            (agent_artifacts st) (st_tick st) (st_log st))
                       (fun n => [NewRun (uuid4 env n) (t_id task) (worker_id (self s0))])
                       (store (world s0))) s0).
    intros s1. revert s1 r s'.
    match goal with
    | |- forall s1 r s', ?m s1 = (r, s') -> closes s1 s' => change (frames closes m)
    end.
    repeat first
      [ apply update_task_status_closes; done
      | apply complete_run_closes
      | apply execute_closes
      | apply get_action_class_frames; apply _
      | apply locale_site_frames; apply _
      | match goal with
        | |- frames _ (get_browser_for_shop _ _) =>
            intros s2 r2 s3 Hacq; apply get_browser_silent in Hacq;
            apply closes_same_tables; by rewrite Hacq
        end
      | progress cbv zeta
      | trace_step ]. }
  unfold board in Hb2, Hboard0, Hleft. simpl in Hb2.
  split.
  - exists (h0 ++ h2). split; [| by apply Forall_app].
    by rewrite replay_app, <- Hb0.
  - right. split.
    + rewrite Hr2. unfold run_tasks in *. simpl. rewrite map_app. simpl. by rewrite Hr0.
    + unfold board. rewrite Hb2. intros Hin.
      apply replay_no_requeue in Hin as [Hin _]; [| done]. by apply Hleft.
Qed.

#[local] Instance keeps_runs_once_preorder : PreOrder keeps_runs_once.
Proof.
  split; [by intros s H | intros s1 s2 s3 H1 H2 H; by apply H2, H1].
Qed.

Lemma run_once_keeps_runs_once (env : Env) : frames keeps_runs_once (run_once env).
Proof.
  intros s r s' Hrun [Hnodup Hleft]. unfold run_once in Hrun.
  apply bind_cases in Hrun as [(next & s0 & Hnext & Hrun) | (e & Hnext & _)];
    unfold get_next_task in Hnext;
    apply sys_transact in Hnext as [(e' & _ & Hr & ->) | (_ & Hr & ->)];
    try discriminate.
  2: { by split. }
  injection Hr as Hr.
  pose proof (select_next_head (agent_tasks (store (world s)))) as Hhead.
  rewrite <- Hr in Hhead. clear Hr.
  destruct next as [t |].
  2: { injection Hrun as _ <-. by split. }
  destruct Hhead as (Hin & Hq & _).
  assert ((t_id t, QUEUED) ∈ board (store (world s))) as Hqueued.
  { unfold board. apply list_elem_of_fmap. exists t. by rewrite Hq. }
  assert (exists rr, execute_task env t
            (put_store (committed (fun _ st => st) (fun _ => []) (store (world s))) s)
            = (rr, s')) as [rr Hcycle].
  { apply bind_cases in Hrun as [(flag & s1 & Hcycle & [= _ <-]) | (e & Hcycle & _)];
      by eexists. }
  apply execute_task_cycles in Hcycle as [(history & Hboard & Hhist) Hruns].
  change (board (store (world (put_store
            (committed (fun _ st => st) (fun _ => []) (store (world s))) s))))
    with (board (store (world s))) in Hboard.
  change (run_tasks (put_store
            (committed (fun _ st => st) (fun _ => []) (store (world s))) s))
    with (run_tasks s) in Hruns.
  assert (forall id, (id, QUEUED) ∈ board (store (world s')) ->
                     (id, QUEUED) ∈ board (store (world s))) as Hback.
  { intros id Hid. rewrite Hboard in Hid. by apply replay_no_requeue in Hid as [Hid _]. }
  destruct Hruns as [Hruns | [Hruns Hgone]]; unfold runs_once; rewrite Hruns.
  - split; [done |]. intros id Hid Hq'. by apply (Hleft id Hid), Hback.
  - split.
    + apply NoDup_app. split; [done |]. split; [| apply NoDup_singleton].
      intros id Hid Hnew. apply list_elem_of_singleton in Hnew as ->.
      by apply (Hleft _ Hid).
    + intros id Hid Hq'. apply elem_of_app in Hid as [Hid | Hid].
      * by apply (Hleft id Hid), Hback.
      * apply list_elem_of_singleton in Hid as ->. by apply Hgone.
Qed.

(** X17.  Over any number of turns of the worker loop, in every
    environment, no task is run twice: if no task has two run rows and
    every task that has one has left the queue, this still holds after
    the turns.  A run row is only created for a task once it has been
    marked running, and nothing the worker writes puts a task back in the
    queue. *)
Theorem loop_runs_each_task_once (env : Env) (turns : nat) (s : Sys) :
  runs_once s -> runs_once (snd (loop_turns env turns s)).
Proof.
  intros Hinv. destruct (loop_turns env turns s) as [r s'] eqn:Hrun. cbn [snd].
  by apply (loop_turns_frames keeps_runs_once env turns (run_once_keeps_runs_once env)
              s r s' Hrun).
Qed.

Lemma loop_runs_each_task_once_witness :
  runs_once (snd (loop_turns calm 3 busy_sys)).
Proof.
  apply (loop_runs_each_task_once calm 3 busy_sys).
  split; [apply NoDup_nil_2 |]. intros id Hid. by apply elem_of_nil in Hid.
Defined.

(** X18.  Once the title field is configured and has appeared,
    [_update_title_field] raises a [TypeError] in every environment: it
    has sent the wait for the field and the look-up, and possibly the
    script, of [scroll_to_element], and nothing is ever typed into the
    field. *)
Theorem update_title_field_raises (env : Env) (b : BrowserController)
    (locators : gmap string PyVal) (new_title : PyVal) (input_loc : Locator)
    (p : Page) :
  loc locators ["product_edit"; "title_input"] p = (Ret (Some input_loc), p) ->
  driver_fault env (p_tick p) (WaitPresence input_loc 10) = None ->
  exists e p',
    UpdateTitleAsCalled._update_title_field env b locators new_title p = (Raise e, p')
    /\ exn_class e = TypeError
    /\ (new_requests p p'
        = [(oid b, WaitPresence input_loc 10); (oid b, FindElement input_loc)]
        \/ new_requests p p'
           = [(oid b, WaitPresence input_loc 10); (oid b, FindElement input_loc);
              (oid b, ExecuteScript scroll_script (Some (Found input_loc)))]).
Proof.
  intros Hloc Hwait.
  unfold UpdateTitleAsCalled._update_title_field, bind at 1. rewrite Hloc.
  unfold wait_for_element, scroll_to_element, execute_script_call, try_except_class,
    try_except, bind, request, raise, ret.
  rewrite Hwait. cbn [p_tick p_trace].
  destruct (driver_fault env (S (p_tick p)) (FindElement input_loc)) as [e1 |];
    cbn [p_tick p_trace].
  - eexists _, _. split; [reflexivity |]. split; [done |]. left.
    unfold new_requests. cbn [p_trace]. rewrite <- app_assoc. by rewrite drop_app_length.
  - destruct (driver_fault env (S (S (p_tick p))) _) as [e2 |];
      eexists _, _; (split; [reflexivity |]); (split; [done |]); right;
      unfold new_requests; cbn [p_trace]; rewrite <- !app_assoc;
      by rewrite drop_app_length.
Qed.

Lemma update_title_field_raises_witness :
  exists e p',
    UpdateTitleAsCalled._update_title_field calm chrome SHOPEE_ID (VStr "Sepatu")
      empty_page = (Raise e, p')
    /\ exn_class e = TypeError
    /\ (new_requests empty_page p'
        = [(oid chrome, WaitPresence id_title_input 10);
           (oid chrome, FindElement id_title_input)]
        \/ new_requests empty_page p'
           = [(oid chrome, WaitPresence id_title_input 10);
              (oid chrome, FindElement id_title_input);
              (oid chrome, ExecuteScript scroll_script (Some (Found id_title_input)))]).
Proof.
  apply (update_title_field_raises calm chrome SHOPEE_ID (VStr "Sepatu") id_title_input
           empty_page); reflexivity.
Defined.

(** ** The life of a run row *)

(** X19.  When the store answers both requests and the new id is not
    yet the id of a run, [create_run] followed by [complete_run] for the
    id it returned leaves exactly one more run row, closed with the given
    result and with the error text only if that is not empty; every other
    run row, every task and every artifact row is as before, and the two
    writes are logged in order. *)
Theorem run_lifecycle (env : Env) (task worker : string) (result : RunResult)
    (error : option string) (s : Store) :
  store_fault env (st_tick s) InsertRun = None ->
  store_fault env (S (st_tick s)) UpdateRun = None ->
  uuid4 env (st_tick s) ∉ map r_id (agent_runs s) ->
  (run <- create_run env task worker ;;
   _ <- complete_run env run result error ;;
   ret run) s
  = (Ret (uuid4 env (st_tick s)),
     mkStore (agent_tasks s)
       (agent_runs s ++ [closed_run env (st_tick s) task worker result error])
       (agent_artifacts s) (S (S (st_tick s)))
       (st_log s ++ [NewRun (uuid4 env (st_tick s)) task worker;
                     EndRun (uuid4 env (st_tick s)) result error])).
Proof.
  intros Hinsert Hupdate Hfresh.
  unfold bind, create_run, complete_run, transact, ret. rewrite Hinsert.
  cbn [st_tick agent_tasks agent_runs agent_artifacts st_log]. rewrite Hupdate.
  f_equal. f_equal; [| by rewrite <- app_assoc].
  rewrite map_app. f_equal.
  - rewrite <- (map_id (agent_runs s)) at 2. apply map_ext_in.
    intros r Hin. destruct (String.eqb (r_id r) _) eqn:Heq; [| done].
    apply String.eqb_eq in Heq. destruct Hfresh. rewrite <- Heq.
    apply list_elem_of_fmap. exists r. split; [done |]. by apply list_elem_of_In.
  - simpl. by rewrite String.eqb_refl.
Qed.

Lemma run_lifecycle_witness :
  (run <- create_run calm "t1" "worker-01" ;;
   _ <- complete_run calm run EmptyResult (Some "boom") ;;
   ret run) empty_store
  = (Ret (uuid4 calm (st_tick empty_store)),
     mkStore (agent_tasks empty_store)
       (agent_runs empty_store
          ++ [closed_run calm (st_tick empty_store) "t1" "worker-01" EmptyResult
                (Some "boom")])
       (agent_artifacts empty_store) (S (S (st_tick empty_store)))
       (st_log empty_store
          ++ [NewRun (uuid4 calm (st_tick empty_store)) "t1" "worker-01";
              EndRun (uuid4 calm (st_tick empty_store)) EmptyResult (Some "boom")])).
Proof.
  apply (run_lifecycle calm "t1" "worker-01" EmptyResult (Some "boom") empty_store);
    [reflexivity | reflexivity | apply not_elem_of_nil].
Defined.

(** ** Draining the queue *)

Lemma settles_refl (rows : list (string * TaskStatus)) : settles rows rows.
Proof. induction rows; constructor; [by split; [| left] | done]. Qed.

Lemma settles_trans (r1 r2 r3 : list (string * TaskStatus)) :
  settles r1 r2 -> settles r2 r3 -> settles r1 r3.
Proof.
  intros H12. revert r3. induction H12 as [| a b l k [Hid Hst] _ IH]; intros r3 H23.
  - inversion H23. constructor.
  - inversion H23 as [| b' c k' m [Hid' Hst'] Hrest]; subst. constructor; [| by apply IH].
    split; [congruence |].
    destruct Hst as [Hsame | [Hq Hfinal]].
    + rewrite <- Hsame. exact Hst'.
    + right. split; [exact Hq |].
      destruct Hst' as [-> | [Hq' _]]; [exact Hfinal |].
      destruct Hfinal; congruence.
Qed.

Lemma settles_ids (rows rows' : list (string * TaskStatus)) :
  settles rows rows' -> map fst rows' = map fst rows.
Proof. induction 1 as [| a b l k [Hid _] _ IH]; simpl; congruence. Qed.

Lemma close_row_other (id : string) (final : TaskStatus)
    (rows : list (string * TaskStatus)) :
  id ∉ map fst rows -> map (close_row id final) rows = rows.
Proof.
  induction rows as [| [id0 st0] rest IH]; intros Hfresh; [done |].
  simpl in Hfresh. apply not_elem_of_cons in Hfresh as [Hne Hfresh].
  simpl. rewrite (IH Hfresh). f_equal.
  unfold close_row, restatus. simpl.
  destruct (String.eqb id0 id) eqn:Heq; [| by simpl; rewrite Heq].
  apply String.eqb_eq in Heq. congruence.
Qed.

(** Closing the one queued row of a task settles the table and takes one
    off the count of queued rows. *)
Lemma close_row_settles (id : string) (final : TaskStatus)
    (rows : list (string * TaskStatus)) :
  final = SUCCESS \/ final = FAILED ->
  NoDup (map fst rows) -> (id, QUEUED) ∈ rows ->
  settles rows (map (close_row id final) rows)
  /\ S (length (List.filter queued_row (map (close_row id final) rows)))
     = length (List.filter queued_row rows).
Proof.
  intros Hfinal. induction rows as [| [id0 st0] rest IH]; intros Hnodup Hin.
  { by apply elem_of_nil in Hin. }
  simpl in Hnodup. apply NoDup_cons in Hnodup as [Hfresh Hnodup].
  apply elem_of_cons in Hin as [Hin | Hin].
  - injection Hin as <- <-. cbn [map]. rewrite (close_row_other id final rest Hfresh).
    assert (close_row id final (id, QUEUED) = (id, final)) as ->.
    { unfold close_row, restatus. simpl. rewrite String.eqb_refl. simpl.
      by rewrite String.eqb_refl. }
    simpl. split.
    + constructor; [| apply settles_refl]. split; [done |]. by right.
    + unfold queued_row at 1. simpl.
      rewrite bool_decide_eq_false_2 by (destruct Hfinal; congruence). done.
  - destruct (IH Hnodup Hin) as [Hsettles Hcount].
    assert (id0 <> id) as Hne.
    { intros ->. apply Hfresh. apply list_elem_of_fmap. by exists (id, QUEUED). }
    assert (close_row id final (id0, st0) = (id0, st0)) as Hsame.
    { unfold close_row, restatus. simpl.
      destruct (String.eqb id0 id) eqn:Heq; [| by simpl; rewrite Heq].
      apply String.eqb_eq in Heq. congruence. }
    simpl. rewrite Hsame. split.
    + constructor; [| exact Hsettles]. split; [done |]. by left.
    + simpl. destruct (queued_row (id0, st0)); simpl; by rewrite <- Hcount.
Qed.

(** One turn of the loop against a store that answers. *)
Lemma loop_turn_settles (env : Env) (s : Sys) :
  store_answers env -> ids_unique s ->
  let s' := snd (loop_turn env s) in
  settles (board (store (world s))) (board (store (world s')))
  /\ pending s' = Nat.pred (pending s).
Proof.
  intros [Hok Hselect] Hkey. cbv zeta.
  unfold loop_turn, run_once, get_next_task, try_except, bind.
  rewrite (on_store_ok env SelectNext _ _ _ s (Hselect _)).
  pose proof (select_next_head (agent_tasks (store (world s)))) as Hhead.
  destruct (head (select_next (agent_tasks (store (world s))))) as [t |].
  2: { simpl. split; [apply settles_refl |]. unfold pending, board. simpl.
       replace (List.filter queued_row
                  (map (fun t => (t_id t, t_status t)) (agent_tasks (store (world s)))))
         with (@nil (string * TaskStatus)); [done |].
       symmetry. induction (agent_tasks (store (world s))) as [| t rest IH]; [done |].
       simpl. unfold queued_row at 1. simpl.
       rewrite bool_decide_eq_false_2 by (apply Hhead; by left).
       apply IH. intros t' Hin. apply Hhead. by right. }
  destruct Hhead as (Hin & Hq & _).
  destruct (execute_task env t _) as [r s1] eqn:Hcycle.
  destruct (execute_task_cases env t _ _ _ Hcycle) as (l & [_ Hboard] & _ & Hdone).
  apply (completed_cycle_statuses _ _ _ _) in Hdone as (closed & -> & Hwrites);
    [| exact Hok].
  rewrite Hwrites in Hboard. cbn [fst snd ret].
  change (board (store (world (put_store
            (committed (fun _ st => st) (fun _ => []) (store (world s))) s))))
    with (board (store (world s))) in Hboard.
  unfold replay in Hboard. simpl in Hboard. rewrite map_map in Hboard.
  change (map (fun x => restatus (t_id t, if closed then SUCCESS else FAILED)
                         (restatus (t_id t, RUNNING) x))
            (board (store (world s))))
    with (map (close_row (t_id t) (closed_status closed)) (board (store (world s))))
    in Hboard.
  unfold pending. rewrite Hboard.
  destruct (close_row_settles (t_id t) (closed_status closed) (board (store (world s))))
    as [Hsettles Hcount].
  - destruct closed; [by left | by right].
  - exact Hkey.
  - unfold board. apply list_elem_of_fmap. exists t. by rewrite Hq.
  - split; [exact Hsettles |]. by rewrite <- Hcount.
Qed.

Lemma loop_turns_settles (env : Env) (turns : nat) (s : Sys) :
  store_answers env -> ids_unique s ->
  let s' := snd (loop_turns env turns s) in
  settles (board (store (world s))) (board (store (world s')))
  /\ pending s' = (pending s - turns)%nat.
Proof.
  intros Hstore. revert s. induction turns as [| n IH]; intros s Hkey; cbv zeta.
  { simpl. split; [apply settles_refl | lia]. }
  destruct (loop_turn_settles env s Hstore Hkey) as [Hfirst Hcount].
  cbn [loop_turns]. unfold bind.
  assert (fst (loop_turn env s) = Ret tt) as Hret.
  { unfold loop_turn, try_except, bind.
    by destruct (run_once env s) as [[flag | e] s1]. }
  destruct (loop_turn env s) as [r s1]. simpl in Hret, Hfirst, Hcount. subst r.
  destruct (IH s1) as [Hrest Hcount'].
  { unfold ids_unique. by rewrite (settles_ids _ _ Hfirst). }
  split; [by eapply settles_trans |]. rewrite Hcount', Hcount. lia.
Qed.

(** X20.  When no call the worker makes to the store raises, which for
    [get_next_task] takes an answered query and a payload that decodes,
    and task ids are unique, the loop drains the queue: after at least as
    many turns as there are queued tasks, every task that was queued is
    success or failed and every other task is as it was, whatever the
    browser, the session provider and the artifact table do. *)
Theorem loop_drains_queue (env : Env) (turns : nat) (s : Sys) :
  store_answers env -> ids_unique s -> (pending s <= turns)%nat ->
  drained (board (store (world s)))
    (board (store (world (snd (loop_turns env turns s))))).
Proof.
  intros Hstore Hkey Hturns.
  destruct (loop_turns_settles env turns s Hstore Hkey) as [Hsettles Hcount].
  cbv zeta in Hsettles, Hcount.
  assert (pending (snd (loop_turns env turns s)) = 0%nat) as Hnone by lia.
  unfold pending in Hnone. clear Hcount Hturns.
  induction Hsettles as [| a b l k [Hid Hst] _ IH]; [constructor |].
  simpl in Hnone. destruct (queued_row b) eqn:Hb; [done |].
  constructor; [| by apply IH]. split; [exact Hid |].
  unfold queued_row in *. destruct Hst as [Hsame | [Hq Hfinal]].
  - rewrite <- Hsame, Hb. reflexivity.
  - by rewrite bool_decide_eq_true_2.
Qed.

Lemma loop_drains_queue_witness :
  drained (board (store (world busy_sys)))
    (board (store (world (snd (loop_turns calm 4 busy_sys))))).
Proof.
  apply (loop_drains_queue calm 4 busy_sys).
  - split; [intros n; repeat split; reflexivity | intros n; reflexivity].
  - refine (bool_decide_unpack _ _). vm_compute. reflexivity.
  - vm_compute. lia.
Defined.

(** ** A task whose action is not registered *)

(** X21.  When a task names an action that is not in the registry and
    its tenant's session is acquired, the worker, whose store answers,
    marks the task running, creates the run, records the [ValueError] of
    [get_action_class] as the run's error with an empty result, marks the
    task failed with that message and returns [False].  No artifact row is
    created and the browser sees nothing beyond the acquisition: neither
    the template nor any action ran. *)
Theorem unknown_action_fails_task (env : Env) (task : Task) (s : Sys)
    (b : BrowserController) :
  worker_store_ok env ->
  ACTION_REGISTRY env !! t_action task = None ->
  fst (get_browser_for_shop env (t_shop_id task) s) = Ret (Some b) ->
  let out := execute_task env task s in
  let msg := unknown_action_message (t_action task) in
  fst out = Ret false
  /\ (exists run,
        new_writes (store (world s)) (store (world (snd out)))
        = [SetStatus (t_id task) RUNNING None;
           NewRun run (t_id task) (worker_id (self s));
           EndRun run EmptyResult (Some msg);
           SetStatus (t_id task) FAILED (Some msg)])
  /\ board (store (world (snd out)))
     = replay [(t_id task, RUNNING); (t_id task, FAILED)] (board (store (world s)))
  /\ agent_artifacts (store (world (snd out))) = agent_artifacts (store (world s))
  /\ page (world (snd out))
     = page (world (snd (get_browser_for_shop env (t_shop_id task) s))).
Proof.
  intros Hok Hnone Hacq. cbv zeta.
  assert (Hup : forall n, store_fault env n UpdateTask = None) by (intros n; apply Hok).
  assert (Hins : forall n, store_fault env n InsertRun = None) by (intros n; apply Hok).
  assert (Hend : forall n, store_fault env n UpdateRun = None) by (intros n; apply Hok).
  destruct (get_browser_for_shop env (t_shop_id task) s) as [racq s1] eqn:Hget.
  simpl in Hacq. subst racq.
  assert (exists st',
            execute_task env task s = (Ret false, put_store st' s1)
            /\ st_log st'
               = st_log (store (world s)) ++
                 [SetStatus (t_id task) RUNNING None;
                  NewRun (uuid4 env (S (st_tick (store (world s))))) (t_id task)
                    (worker_id (self s));
                  EndRun (uuid4 env (S (st_tick (store (world s))))) EmptyResult
                    (Some (unknown_action_message (t_action task)));
                  SetStatus (t_id task) FAILED
                    (Some (unknown_action_message (t_action task)))]
            /\ board st'
               = replay [(t_id task, RUNNING); (t_id task, FAILED)]
                   (board (store (world s)))
            /\ agent_artifacts st' = agent_artifacts (store (world s)))
    as (st' & -> & Hlog & Hboard & Harts).
  { eexists. split.
    - unfold execute_task, update_task_status, create_run, complete_run.
      unfold bind at 1. rewrite (on_store_ok env _ _ _ _ s (Hup _)).
      unfold bind at 1. rewrite (on_store_ok env _ _ _ _ _ (Hins _)).
      unfold try_except, bind at 1.
      rewrite !get_browser_put_store, Hget. cbn [fst snd].
      unfold bind at 1, get_action_class. rewrite Hnone. unfold raise.
      unfold bind at 1. rewrite (on_store_ok env _ _ _ _ _ (Hend _)).
      unfold bind at 1. rewrite (on_store_ok env _ _ _ _ _ (Hup _)).
      unfold ret. rewrite !put_store_twice. reflexivity.
    - cbn [committed st_log st_tick agent_tasks agent_runs agent_artifacts put_store
           store world self exn_str].
      split; [by rewrite <- !app_assoc |]. split; [| reflexivity].
      unfold board.
      cbn [committed st_log st_tick agent_tasks agent_runs agent_artifacts put_store
           store world self].
      by rewrite !board_restatus. }
  cbn [fst snd put_store world store page].
  split; [reflexivity |]. split; [| by repeat split].
  eexists. unfold new_writes. rewrite Hlog. apply drop_app_length.
Qed.

Lemma unknown_action_fails_task_witness :
  let out := execute_task calm unknown_task fresh_sys in
  let msg := unknown_action_message "delete_shop" in
  fst out = Ret false
  /\ (exists run,
        new_writes (store (world fresh_sys)) (store (world (snd out)))
        = [SetStatus "t3" RUNNING None;
           NewRun run "t3" "worker-01";
           EndRun run EmptyResult (Some msg);
           SetStatus "t3" FAILED (Some msg)])
  /\ board (store (world (snd out)))
     = replay [("t3", RUNNING); ("t3", FAILED)] (board (store (world fresh_sys)))
  /\ agent_artifacts (store (world (snd out))) = agent_artifacts (store (world fresh_sys))
  /\ page (world (snd out))
     = page (world (snd (get_browser_for_shop calm "shop_01" fresh_sys))).
Proof.
  apply (unknown_action_fails_task calm unknown_task fresh_sys (mkController 0 9222 "131")).
  - intros n. repeat split; reflexivity.
  - reflexivity.
  - vm_compute. reflexivity.
Defined.

(** ** Evidence rows *)

#[local] Instance records_preorder (run : string) : PreOrder (records run).
Proof.
  split.
  - intros s. split; [done |]. split; [done |]. exists []. by rewrite app_nil_r.
  - intros s1 s2 s3 (Ht1 & Hr1 & l1 & Hl1 & Ha1) (Ht2 & Hr2 & l2 & Hl2 & Ha2).
    split; [congruence |]. split; [congruence |].
    exists (l1 ++ l2). split; [by rewrite Hl2, Hl1, app_assoc | by apply Forall_app].
Qed.

#[local] Instance store_kept_preorder (has_store : bool) :
  PreOrder (store_kept has_store).
Proof.
  destruct has_store; split; try done. intros s1 s2 s3. unfold store_kept. congruence.
Qed.

Lemma save_artifact_record_records (env : Env) (run : string) (type : ArtifactType)
    (path : string) :
  type <> TRACE -> frames (records run) (save_artifact_record env run type path).
Proof.
  intros Htype s r s'. unfold save_artifact_record, transact.
  destruct (store_fault env (st_tick s) InsertArtifact); intros [= _ <-];
    (split; [done |]); (split; [done |]); simpl.
  - exists []. by rewrite app_nil_r.
  - eexists. split; [reflexivity |]. by repeat constructor.
Qed.

(** X22.  Whatever the action and the environment, a run of the
    template changes no task and no run row, and every artifact row it
    adds belongs to the run of its context and is a before, after or error
    shot; without a store attached it leaves the store exactly as it
    was. *)
Theorem execute_artifacts_belong_to_run (env : Env) (a : BaseAction)
    (b : BrowserController) (has_store : bool) (context : ActionContext)
    (payload : gmap string PyVal) (w : World) :
  let w' := snd (execute env a b has_store context payload w) in
  records (run_id context) (store w) (store w')
  /\ store_kept has_store (store w) (store w').
Proof.
  cbv zeta. destruct (execute env a b has_store context payload w) as [r w'] eqn:Hrun.
  cbn [snd]. split.
  - revert Hrun. generalize w r w'.
    change (frames (on_store_of (records (run_id context)))
              (execute env a b has_store context payload)).
    unfold execute, capture.
    repeat first
      [ apply frames_zoom; intros w0 p; unfold on_store_of; simpl; reflexivity
      | eapply frames_zoom_rel;
          [apply save_artifact_record_records; done | by intros w0 st]
      | intros w0 r0 w1 [= _ <-]; unfold on_store_of; simpl; reflexivity
      | trace_step ].
  - revert Hrun. generalize w r w'.
    change (frames (on_store_of (store_kept has_store))
              (execute env a b has_store context payload)).
    unfold execute. destruct has_store.
    + intros w0 r0 w1 _. exact I.
    + cbn [andb].
      repeat first
        [ apply frames_zoom; intros w0 p; unfold on_store_of; simpl; reflexivity
        | intros w0 r0 w1 [= _ <-]; unfold on_store_of; simpl; reflexivity
        | trace_step ].
Qed.
